(** * Squash court availability checker: a shallow embedding

    The development follows [check_squash_availability.py]:

    - the feed client ([fetch_slots], [fetch_all_slots]),
    - the window filter ([time_overlaps], [filter_squash_slots_by_time]),
    - the per-court aggregation ([get_squash_court_availability] and its
      helpers [_process_single_slot], [_process_missing_slot],
      [_process_multiple_court_slots]),
    - the orchestration ([check_squash_availability],
      [check_availability_programmatic]),
    - the printed report ([print_results]).

    Python dictionaries that are only used as maps ([court_info]) are
    [gmap string _]; the dictionary [time_slots], whose iteration order
    decides which group is processed last, is an insertion-ordered
    association list, and so are the two dictionaries [print_results]
    goes through to print.  A JSON object is a record whose fields are
    options, [None] for an absent key, so that every [.get(key, default)]
    of the source is a [default] here.  Exceptions are values of an
    outcome type; [while True] runs on fuel, and the properties show
    that fuel above the page ceiling is never used up.

    The server is a function from the number of the request and the
    requested URL to a response, so that it may answer the same URL
    differently as a run goes on.

    What the program takes from Python's libraries is modelled in
    [Py] and [Datetime]: [strptime] and [strftime] for the three
    formats the program uses, on ASCII text; [datetime.fromisoformat],
    whose syntax depends on the Python version, is a parameter of the
    filter, and [iso_basic] is the instance the examples run on.

    The file has four parts: the program, the vocabulary of the
    statements, example feeds, and the properties. *)

From Stdlib Require Import ZArith QArith Ascii String DecimalString.
From stdpp Require Import gmap strings list fin_maps sorting.

Open Scope string_scope.
Open Scope Z_scope.
Open Scope list_scope.

(** ** Python strings *)

Module Py.

(** [needle in hay] on [str]. *)
Fixpoint str_in (needle hay : string) : bool :=
  String.prefix needle hay ||
  match hay with
  | EmptyString => false
  | String _ hay' => str_in needle hay'
  end.

(** [s.split(sep)] for a one-character separator. *)
Fixpoint split (sep : ascii) (s : string) : list string :=
  match s with
  | EmptyString => [EmptyString]
  | String c s' =>
      if Ascii.eqb c sep then EmptyString :: split sep s'
      else match split sep s' with
           | [] => [String c EmptyString]
           | h :: t => String c h :: t
           end
  end.

(** [l[-1]] on a list of strings ([IndexError] cannot occur on the
    result of [split], which is never empty). *)
Definition last_segment (l : list string) : string := List.last l EmptyString.

(** [s.replace(old, new)] for a one-character [old]. *)
Fixpoint replace_char (old : ascii) (new : string) (s : string) : string :=
  match s with
  | EmptyString => EmptyString
  | String c s' =>
      if Ascii.eqb c old then new +:+ replace_char old new s'
      else String c (replace_char old new s')
  end.

(** Truthiness of a string: [bool(s)]. *)
Definition truthy (s : string) : bool := negb (String.eqb s "").

(** [a or b] on strings. *)
Definition str_or (a b : string) : string := if truthy a then a else b.

(** [x in l] for a list of strings. *)
Definition list_in (x : string) (l : list string) : bool :=
  existsb (String.eqb x) l.

End Py.

(** ** The feed's records *)

(** A price is a JSON number; the code only ever tests [price > 0]. *)
Definition Qpositive (p : Q) : bool := 0 <? Qnum p.

Record offer := { price : option Q }.

(** The value under a location's ['name'] key: a string, or some other
    JSON value (the code tests [isinstance(location_name, str)]). *)
Inductive name_value :=
| NameStr (s : string)
| NameOther.

Record location := {
  loc_name : option name_value;
  loc_identifier : option string
}.

(** The dictionary under an item's ['data'] key.  Every key may be absent;
    [sd_other_keys] says whether the dictionary has keys the code never
    reads (it matters only to [if not slot_data]). *)
Record slot_data := {
  sd_identifier : option string;
  sd_facilityUse : option string;
  sd_startDate : option string;
  sd_endDate : option string;
  sd_remainingUses : option Z;
  sd_offers : option (list offer);
  sd_locations : option (list location);   (* 'beta:sportsActivityLocation' *)
  sd_other_keys : bool
}.

Record slot_item := { item_data : option slot_data }.

(** [not slot_data]: the dictionary is empty. *)
Definition dict_is_empty (sd : slot_data) : bool :=
  match sd_identifier sd, sd_facilityUse sd, sd_startDate sd, sd_endDate sd,
        sd_remainingUses sd, sd_offers sd, sd_locations sd with
  | None, None, None, None, None, None, None => negb (sd_other_keys sd)
  | _, _, _, _, _, _, _ => false
  end.

(** [slot_item.get('data', {})] followed by [if not slot_data: continue]. *)
Definition get_data (slot_item : slot_item) : option slot_data :=
  match item_data slot_item with
  | Some sd => if dict_is_empty sd then None else Some sd
  | None => None
  end.

(** ** The resolver's output *)

Record period := {
  p_start : option string;
  p_end : option string;
  p_remaining : Z
}.

Record court := {
  id : string;
  available : bool;
  remaining_uses : Z;
  slots : list period
}.

Definition squash_facility_ids : list string := ["041A000005"].

Definition remaining_of (sd : slot_data) : Z := default 0 (sd_remainingUses sd).
Definition locations_of (sd : slot_data) : list location := default [] (sd_locations sd).
Definition offers_of (sd : slot_data) : list offer := default [] (sd_offers sd).
Definition identifier_or_unknown (sd : slot_data) : string :=
  default "Unknown" (sd_identifier sd).

Definition period_of (sd : slot_data) : period :=
  {| p_start := sd_startDate sd; p_end := sd_endDate sd;
     p_remaining := remaining_of sd |}.

Definition new_court (court_id : string) : court :=
  {| id := court_id; available := false; remaining_uses := 0; slots := [] |}.

Definition set_remaining_uses (r : Z) (c : court) : court :=
  {| id := id c; available := available c;
     remaining_uses := Z.max (remaining_uses c) r; slots := slots c |}.

Definition set_available (c : court) : court :=
  {| id := id c; available := true;
     remaining_uses := remaining_uses c; slots := slots c |}.

Definition append_slot (p : period) (c : court) : court :=
  {| id := id c; available := available c;
     remaining_uses := remaining_uses c; slots := slots c ++ [p] |}.

(** The block that the source repeats three times (lines 204-224, 238-258
    and 336-356): create the entry when the name is new, raise its
    [remaining_uses], set [available], append the period. *)
Definition record_period (court_name court_id : string) (sd : slot_data)
    (court_info : gmap string court) : gmap string court :=
  let remaining_uses := remaining_of sd in
  let court_info :=
    match court_info !! court_name with
    | Some _ => court_info
    | None => <[court_name := new_court court_id]> court_info
    end in
  let court_info := alter (set_remaining_uses remaining_uses) court_name court_info in
  let court_info :=
    if 0 <? remaining_uses then alter set_available court_name court_info
    else court_info in
  alter (append_slot (period_of sd)) court_name court_info.

Definition _process_missing_slot (sd : slot_data)
    (court_info : gmap string court) : gmap string court :=
  let remaining_uses := remaining_of sd in
  let court_info : gmap string court := ∅ in
  let court_name := "Available Courts" in
  let court_id := "partial_booking" in
  <[court_name :=
      {| id := court_id;
         available := 0 <? remaining_uses;
         remaining_uses := remaining_uses;
         slots := [period_of sd] |}]> court_info.

(** [is_partially_booked] of [_process_single_slot]. *)
Definition is_partially_booked (sd : slot_data) : bool :=
  (remaining_of sd =? 0) &&
  match offers_of sd with
  | o :: _ => Qpositive (default 0%Q (price o))
  | [] => false
  end.

(** One iteration of the loop over [locations] in [_process_single_slot]. *)
Definition single_slot_location (sd : slot_data) (court_info : gmap string court)
    (loc : location) : gmap string court :=
  let location_id := default "" (loc_identifier loc) in
  let court_name :=
    match default (NameStr "") (loc_name loc) with
    | NameStr s => if Py.truthy s then s else "Squash Court (" +:+ location_id +:+ ")"
    | NameOther => "Squash Court (" +:+ location_id +:+ ")"
    end in
  let court_id := Py.str_or location_id (identifier_or_unknown sd) in
  record_period court_name court_id sd court_info.

Definition missing_slot_data (sd : slot_data) : slot_data :=
  {| sd_identifier := None;
     sd_facilityUse := None;
     sd_startDate := sd_startDate sd;
     sd_endDate := sd_endDate sd;
     sd_remainingUses := Some 1;
     sd_offers := Some [ {| price := Some 0%Q |} ];
     sd_locations := Some (locations_of sd);
     sd_other_keys := false |}.

(** Lines 199-258 of [_process_single_slot]: the item is recorded under a
    name made from its identifier, or once under each of its locations. *)
Definition record_single_slot (sd : slot_data)
    (court_info : gmap string court) : gmap string court :=
  let locations := locations_of sd in
  match locations with
  | [] =>
      let court_name := "Squash Court (" +:+ identifier_or_unknown sd +:+ ")" in
      let court_id := identifier_or_unknown sd in
      record_period court_name court_id sd court_info
  | _ => fold_left (single_slot_location sd) locations court_info
  end.

Definition _process_single_slot (sd : slot_data)
    (court_info : gmap string court) : gmap string court :=
  let locations := locations_of sd in
  let court_info := record_single_slot sd court_info in
  if is_partially_booked sd && (length locations =? 2)%nat
  then _process_missing_slot (missing_slot_data sd) court_info
  else court_info.

(** [slot_group.sort(key=lambda x: x.get('identifier', ''))]: Python's sort
    is stable, so it is the stable insertion sort on the key. *)
Definition sort_key (sd : slot_data) : string := default "" (sd_identifier sd).

Fixpoint insert_sorted (x : slot_data) (l : list slot_data) : list slot_data :=
  match l with
  | [] => [x]
  | y :: l' =>
      if String.leb (sort_key x) (sort_key y) then x :: l
      else y :: insert_sorted x l'
  end.

Definition sort_by_identifier (l : list slot_data) : list slot_data :=
  foldr insert_sorted [] l.

(** The first offer's price, [0] without offers. *)
Definition first_price (sd : slot_data) : Q :=
  match offers_of sd with
  | o :: _ => default 0%Q (price o)
  | [] => 0%Q
  end.

(** "Available court (remaining: 1, price: 10.25) should be Court 2". *)
Definition target_court (sd : slot_data) : string * string :=
  if (0 <? remaining_of sd) && Qpositive (first_price sd)
  then ("Squash Court 2", "041ZSQU002")
  else ("Squash Court 1", "041ZSQU001").

(** The loop "Find the matching location": the first location whose name
    equals the target name. *)
Fixpoint find_location (target_court_name : string) (locations : list location)
    : option (string * string) :=
  match locations with
  | [] => None
  | loc :: rest =>
      match default (NameStr "") (loc_name loc) with
      | NameStr s =>
          if String.eqb s target_court_name
          then Some (s, default "" (loc_identifier loc))
          else find_location target_court_name rest
      | NameOther => find_location target_court_name rest
      end
  end.

(** The name and id one item of a multi-item group is recorded under. *)
Definition inferred_court (sd : slot_data) : string * string :=
  let '(target_court_name, target_court_id) := target_court sd in
  match find_location target_court_name (locations_of sd) with
  | Some (court_name, court_id) =>
      if Py.truthy court_name then (court_name, court_id)
      else (target_court_name, target_court_id)
  | None => (target_court_name, target_court_id)
  end.

Definition multiple_slot_step (court_info : gmap string court) (sd : slot_data)
    : gmap string court :=
  let '(court_name, court_id) := inferred_court sd in
  record_period court_name court_id sd court_info.

Definition _process_multiple_court_slots (slot_group : list slot_data)
    (court_info : gmap string court) : gmap string court :=
  fold_left multiple_slot_step (sort_by_identifier slot_group) court_info.

(** [facility_use.split('/')[-1] if '/' in facility_use else facility_use] *)
Definition facility_id_of (facility_use : string) : string :=
  if Py.str_in "/" facility_use
  then Py.last_segment (Py.split "/" facility_use)
  else facility_use.

(** The items [get_squash_court_availability] keeps. *)
Definition admitted (slot_item : slot_item) : option slot_data :=
  match get_data slot_item with
  | Some sd =>
      let facility_use := default "" (sd_facilityUse sd) in
      if Py.list_in (facility_id_of facility_use) squash_facility_ids
      then Some sd else None
  | None => None
  end.

(** [time_slots[start_time].append(slot_data)], creating the list when the
    key is new; [time_slots] keeps its keys in insertion order. *)
Fixpoint group_append (start_time : string) (sd : slot_data)
    (time_slots : list (string * list slot_data)) : list (string * list slot_data) :=
  match time_slots with
  | [] => [(start_time, [sd])]
  | (k, g) :: rest =>
      if String.eqb k start_time then (k, g ++ [sd]) :: rest
      else (k, g) :: group_append start_time sd rest
  end.

Definition start_key (sd : slot_data) : string := default "" (sd_startDate sd).

Definition group_step (time_slots : list (string * list slot_data))
    (slot_item : slot_item) : list (string * list slot_data) :=
  match admitted slot_item with
  | Some sd => group_append (start_key sd) sd time_slots
  | None => time_slots
  end.

Definition group_by_start (slots : list slot_item) : list (string * list slot_data) :=
  fold_left group_step slots [].

Definition process_group (court_info : gmap string court)
    (entry : string * list slot_data) : gmap string court :=
  match entry.2 with
  | [sd] => _process_single_slot sd court_info
  | slot_group => _process_multiple_court_slots slot_group court_info
  end.

Definition get_squash_court_availability (slots : list slot_item)
    : gmap string court :=
  fold_left process_group (group_by_start slots) ∅.

(** ** Exceptions and outcomes *)

(** The exception classes the program can meet.  [SystemExit] is what
    [sys.exit] raises; it derives from [BaseException], not from
    [Exception]. *)
Inductive exn :=
| RequestException (msg : string)
| ValueError (msg : string)
| TypeError (msg : string)
| OverflowError (msg : string)
| OtherException (msg : string)
| SystemExit (code : Z).

(** [isinstance(e, Exception)]. *)
Definition is_Exception (e : exn) : bool :=
  match e with
  | SystemExit _ => false
  | _ => true
  end.

(** [isinstance(e, requests.exceptions.RequestException)]. *)
Definition is_RequestException (e : exn) : bool :=
  match e with
  | RequestException _ => true
  | _ => false
  end.

(** [str(e)]. *)
Definition str_exn (e : exn) : string :=
  match e with
  | RequestException m | ValueError m | TypeError m
  | OverflowError m | OtherException m => m
  | SystemExit c => DecimalString.NilZero.string_of_int (Z.to_int c)
  end.

(** A computation returns, raises, or is cut off by the fuel that bounds
    the model of [while True]. *)
Inductive outcome (A : Type) :=
| Ret (a : A)
| Raise (e : exn)
| OutOfFuel.
Arguments Ret {A} a.
Arguments Raise {A} e.
Arguments OutOfFuel {A}.

#[export] Instance outcome_ret : MRet outcome := @Ret.
#[export] Instance outcome_bind : MBind outcome := λ A B f m,
  match m with
  | Ret a => f a
  | Raise e => Raise e
  | OutOfFuel => OutOfFuel
  end.

(** A [for] loop whose body may raise. *)
Fixpoint foldM {A S : Type} (f : S → A → outcome S) (l : list A) (s : S) : outcome S :=
  match l with
  | [] => Ret s
  | x :: l' => s' ← f s x; foldM f l' s'
  end.

(** ** Dates and times (a model of Python's [datetime]) *)

Module Datetime.

(** [str(n)] for an integer. *)
Definition str (n : Z) : string :=
  DecimalString.NilZero.string_of_int (Z.to_int n).

(** ["%02d" % n] and ["%04d" % n] for a non-negative [n]. *)
Definition pad2 (n : Z) : string := if n <? 10 then "0" +:+ str n else str n.
Definition pad4 (n : Z) : string :=
  if n <? 10 then "000" +:+ str n
  else if n <? 100 then "00" +:+ str n
  else if n <? 1000 then "0" +:+ str n
  else str n.

Definition us_per_minute : Z := 60000000.
Definition us_per_day : Z := 86400000000.

(** A [datetime]: the proleptic Gregorian ordinal of its calendar date
    ([toordinal()]), the microseconds since its midnight, and the UTC
    offset of its [tzinfo] in microseconds ([None] when naive). *)
Record datetime := {
  ordinal : Z;
  micros : Z;
  tzinfo : option Z
}.

(** The point on the time line that comparisons look at. *)
Definition instant (d : datetime) : Z :=
  ordinal d * us_per_day + micros d - default 0 (tzinfo d).

Definition aware (d : datetime) : bool := bool_decide (is_Some (tzinfo d)).

(** [a < b]: comparing a naive with an aware datetime raises. *)
Definition lt (a b : datetime) : outcome bool :=
  if Bool.eqb (aware a) (aware b) then Ret (instant a <? instant b)
  else Raise (TypeError "can't compare offset-naive and offset-aware datetimes").

(** [a > b]. *)
Definition gt (a b : datetime) : outcome bool := lt b a.

(** [d.replace(tzinfo=tz)]. *)
Definition replace_tzinfo (tz : option Z) (d : datetime) : datetime :=
  {| ordinal := ordinal d; micros := micros d; tzinfo := tz |}.

(** [d + timedelta(minutes=n)], without the range check. *)
Definition add_minutes (d : datetime) (n : Z) : datetime :=
  let total := micros d + n * us_per_minute in
  {| ordinal := ordinal d + total `div` us_per_day;
     micros := total `mod` us_per_day;
     tzinfo := tzinfo d |}.

(** The same with the range check: years 1 to 9999. *)
Definition max_ordinal : Z := 3652059.
Definition add_minutes_checked (d : datetime) (n : Z) : outcome datetime :=
  let r := add_minutes d n in
  if (1 <=? ordinal r) && (ordinal r <=? max_ordinal) then Ret r
  else Raise (OverflowError "date value out of range").

Definition is_leap (y : Z) : bool :=
  (y `mod` 4 =? 0) && (negb (y `mod` 100 =? 0) || (y `mod` 400 =? 0)).

Definition days_in_month (y m : Z) : Z :=
  if m =? 2 then (if is_leap y then 29 else 28)
  else if (m =? 4) || (m =? 6) || (m =? 9) || (m =? 11) then 30
  else 31.

(** [date(y, m, d).toordinal()]. *)
Definition ordinal_of_ymd (y m d : Z) : Z :=
  let y' := if m <=? 2 then y - 1 else y in
  let era := y' `div` 400 in
  let yoe := y' - era * 400 in
  let doy := (153 * (if 2 <? m then m - 3 else m + 9) + 2) `div` 5 + d - 1 in
  let doe := yoe * 365 + yoe `div` 4 - yoe `div` 100 + doy in
  era * 146097 + doe - 305.

(** [date.fromordinal(n)] as year, month, day. *)
Definition ymd_of_ordinal (n : Z) : Z * Z * Z :=
  let z := n + 305 in
  let era := z `div` 146097 in
  let doe := z - era * 146097 in
  let yoe := (doe - doe `div` 1460 + doe `div` 36524 - doe `div` 146096) `div` 365 in
  let doy := doe - (365 * yoe + yoe `div` 4 - yoe `div` 100) in
  let mp := (5 * doy + 2) `div` 153 in
  let d := doy - (153 * mp + 2) `div` 5 + 1 in
  let m := if mp <? 10 then mp + 3 else mp - 9 in
  let y := yoe + era * 400 in
  (if m <=? 2 then y + 1 else y, m, d).

Definition digit (c : ascii) : option Z :=
  let n := Z.of_N (N_of_ascii c) in
  if (48 <=? n) && (n <=? 57) then Some (n - 48) else None.

(** One or two leading decimal digits, two when there are two. *)
Definition number12 (s : string) : option (Z * string) :=
  match s with
  | String a rest =>
      match digit a with
      | Some x =>
          match rest with
          | String b rest' =>
              match digit b with
              | Some y => Some (10 * x + y, rest')
              | None => Some (x, rest)
              end
          | EmptyString => Some (x, rest)
          end
      | None => None
      end
  | EmptyString => None
  end.

(** Exactly two, exactly four leading decimal digits. *)
Definition number2 (s : string) : option (Z * string) :=
  match s with
  | String a (String b rest) =>
      x ← digit a; y ← digit b; Some (10 * x + y, rest)
  | _ => None
  end.

Definition number4 (s : string) : option (Z * string) :=
  '(hi, rest) ← number2 s; '(lo, rest') ← number2 rest; Some (100 * hi + lo, rest').

(** A given character next. *)
Definition expect (c : ascii) (s : string) : option string :=
  match s with
  | String a rest => if Ascii.eqb a c then Some rest else None
  | EmptyString => None
  end.

(** [%H:%M] up to the end of the string: minutes since midnight.
    [strptime] reads [%H] as [2[0-3]|[0-1]\d|\d] and [%M] as
    [[0-5]\d|\d]; both are followed by a non-digit or the end, so a
    field is the whole run of one or two digits. *)
Definition strptime_HM (s : string) : option Z :=
  '(h, s1) ← number12 s;
  s2 ← expect ":" s1;
  '(m, s3) ← number12 s2;
  if (h <=? 23) && (m <=? 59) && String.eqb s3 "" then Some (h * 60 + m) else None.

(** [%Y-%m-%d] up to the end of the string: [%Y] is four digits, [%m]
    is [1[0-2]|0[1-9]|[1-9]], [%d] is [3[01]|[12]\d|0[1-9]|[1-9]| [1-9]];
    the date must exist (years 1 to 9999). *)
Definition day_field (s : string) : option (Z * string) :=
  match s with
  | String " " rest =>
      match rest with
      | String b rest' => y ← digit b; Some (y, rest')
      | EmptyString => None
      end
  | _ => number12 s
  end.

Definition strptime_Ymd (s : string) : option Z :=
  '(y, s1) ← number4 s;
  s2 ← expect "-" s1;
  '(m, s3) ← number12 s2;
  s4 ← expect "-" s3;
  '(d, s5) ← day_field s4;
  if (1 <=? y) && (1 <=? m) && (m <=? 12) && (1 <=? d) && (d <=? days_in_month y m)
     && String.eqb s5 ""
  then Some (ordinal_of_ymd y m d) else None.

(** White space as the [\s] of [strptime]'s pattern sees it (ASCII). *)
Definition is_space (c : ascii) : bool :=
  let n := Z.of_N (N_of_ascii c) in
  ((9 <=? n) && (n <=? 13)) || ((28 <=? n) && (n <=? 32)).

(** [s.rstrip()] for that white space. *)
Fixpoint rstrip (s : string) : string :=
  match s with
  | EmptyString => EmptyString
  | String c s' =>
      match rstrip s' with
      | EmptyString => if is_space c then EmptyString else String c EmptyString
      | r => String c r
      end
  end.

(** [datetime.strptime(f"{d} {t}", "%Y-%m-%d %H:%M")] for a time [t]
    that is itself of the form [%H:%M], which is how the program calls
    it: the blank of the format stands for [\s+], so white space at the
    end of [d] is accepted. *)
Definition strptime_date_time (d t : string) : option datetime :=
  o ← strptime_Ymd (rstrip d);
  hm ← strptime_HM t;
  Some {| ordinal := o; micros := hm * us_per_minute; tzinfo := None |}.

(** [datetime.strptime(f"{d}T{t}:00", "%Y-%m-%dT%H:%M:%S")] for a [t] of
    the form [HH:MM]. *)
Definition strptime_date_T_time (d t : string) : option datetime :=
  o ← strptime_Ymd d;
  hm ← strptime_HM t;
  Some {| ordinal := o; micros := hm * us_per_minute; tzinfo := None |}.

(** [datetime.strptime(t, "%H:%M")]: the date is 1900-01-01. *)
Definition strptime_time (t : string) : option datetime :=
  hm ← strptime_HM t;
  Some {| ordinal := 693596; micros := hm * us_per_minute; tzinfo := None |}.

(** [d.strftime("%H:%M")]. *)
Definition strftime_HM (d : datetime) : string :=
  let minutes := micros d `div` us_per_minute in
  pad2 (minutes `div` 60) +:+ ":" +:+ pad2 (minutes `mod` 60).

(** [d.strftime("%Y-%m-%dT%H:%M:%S.000Z")].  The year is written with
    four digits; below the year 1000 the C library of some platforms
    writes it without the leading zeros. *)
Definition strftime_iso_ms (d : datetime) : string :=
  let '(y, m, dd) := ymd_of_ordinal (ordinal d) in
  let seconds := micros d `div` 1000000 in
  pad4 y +:+ "-" +:+ pad2 m +:+ "-" +:+ pad2 dd +:+ "T" +:+
  pad2 (seconds `div` 3600) +:+ ":" +:+ pad2 ((seconds `div` 60) `mod` 60) +:+ ":" +:+
  pad2 (seconds `mod` 60) +:+ ".000Z".

(** A reader for the timestamps [YYYY-MM-DDTHH:MM:SS], optionally
    followed by [+HH:MM] or [-HH:MM]: the part of [fromisoformat] that
    every Python version shares. *)
Definition offset_field (s : string) : option (option Z) :=
  match s with
  | EmptyString => Some None
  | String sign rest =>
      '(h, s1) ← number2 rest;
      s2 ← expect ":" s1;
      '(m, s3) ← number2 s2;
      if String.eqb s3 "" && (h <=? 23) && (m <=? 59) then
        if Ascii.eqb sign "+" then Some (Some ((h * 60 + m) * us_per_minute))
        else if Ascii.eqb sign "-" then Some (Some (- (h * 60 + m) * us_per_minute))
        else None
      else None
  end.

Definition iso_basic (s : string) : option datetime :=
  '(y, s1) ← number4 s;
  s2 ← expect "-" s1;
  '(m, s3) ← number2 s2;
  s4 ← expect "-" s3;
  '(d, s5) ← number2 s4;
  s6 ← expect "T" s5;
  '(hh, s7) ← number2 s6;
  s8 ← expect ":" s7;
  '(mm, s9) ← number2 s8;
  s10 ← expect ":" s9;
  '(ss, s11) ← number2 s10;
  tz ← offset_field s11;
  if (1 <=? y) && (1 <=? m) && (m <=? 12) && (1 <=? d) && (d <=? days_in_month y m)
     && (hh <=? 23) && (mm <=? 59) && (ss <=? 59)
  then Some {| ordinal := ordinal_of_ymd y m d;
               micros := ((hh * 60 + mm) * 60 + ss) * 1000000;
               tzinfo := tz |}
  else None.

End Datetime.
Import Datetime.

(** ** The feed client ([PlacesLeisureAPI]) *)

Definition BASE_URL : string :=
  "https://opendata.leisurecloud.live/api/feeds/PlacesLeisure-live-slots".

(** The JSON body of one page: ['items'] and ['next'] may be absent. *)
Record page := {
  pg_items : option (list slot_item);
  pg_next : option string
}.

(** What [session.get(url); raise_for_status(); json()] does: a body, or
    the exception the [requests] library raises. *)
Inductive response :=
| Body (p : page)
| Failed (e : exn).

(** The server: its answer to the [k]-th request of a run (counted from
    0), which asks for [url]. *)
Definition feed := nat → string → response.

(** [after_url or self.BASE_URL], also used for [next_url or self.BASE_URL]. *)
Definition url_or_base (u : option string) : string :=
  Py.str_or (default "" u) BASE_URL.

Definition fetch_slots (w : feed) (k : nat) (after_url : option string) : outcome page :=
  let url := url_or_base after_url in
  match w k url with
  | Body p => Ret p
  | Failed e =>
      if is_RequestException e
      then (* print(f"Error fetching slots: {e}"); sys.exit(1) *)
           Raise (SystemExit 1)
      else Raise e
  end.

Inductive stop_reason :=
| LastPage       (* empty items and next equal to the requested URL *)
| NoNext         (* no next URL *)
| PageCeiling.   (* page_count > 1000 *)

(** The state of [fetch_all_slots] when its loop ends: the list it
    returns, the pages fetched, which [break] ended it, and what it
    printed. *)
Record fetched := {
  all_slots : list slot_item;
  page_count : nat;
  stopped : stop_reason;
  printed : list string
}.

Definition ceiling_warning (page_count : nat) : string :=
  "Warning: Stopped after " +:+ str (Z.of_nat page_count) +:+
  " pages to prevent infinite loop".

(** [not data.get('items') or len(data.get('items', [])) == 0] *)
Definition no_items (data : page) : bool :=
  match pg_items data with
  | Some (_ :: _) => false
  | _ => true
  end.

(** The [while True] loop of [fetch_all_slots]; [fuel] bounds the number
    of iterations the model may run. *)
Fixpoint fetch_loop (fuel : nat) (w : feed) (all_slots : list slot_item)
    (next_url : option string) (page_count : nat) : outcome fetched :=
  match fuel with
  | O => OutOfFuel
  | S fuel' =>
      data ← fetch_slots w page_count next_url;
      let page_count := S page_count in
      let all_slots :=
        match pg_items data with
        | Some items => all_slots ++ items
        | None => all_slots
        end in
      let current_url := url_or_base next_url in
      let next_page_url := pg_next data in
      if no_items data && bool_decide (next_page_url = Some current_url) then
        Ret {| all_slots := all_slots; page_count := page_count;
               stopped := LastPage; printed := [] |}
      else
        let next_url := next_page_url in
        if negb (Py.truthy (default "" next_url)) then
          Ret {| all_slots := all_slots; page_count := page_count;
                 stopped := NoNext; printed := [] |}
        else if (1000 <? page_count)%nat then
          Ret {| all_slots := all_slots; page_count := page_count;
                 stopped := PageCeiling;
                 printed := [ceiling_warning page_count] |}
        else fetch_loop fuel' w all_slots next_url page_count
  end.

Definition fetch_all_slots (fuel : nat) (w : feed) : outcome fetched :=
  fetch_loop fuel w [] None 0.

(** ** The window filter ([SquashAvailabilityChecker]) *)

(** [parse_datetime]: a [ValueError] is printed and turned into
    [sys.exit(1)]. *)
Definition parse_datetime (date_str time_str : string) : outcome datetime :=
  match strptime_date_time date_str time_str with
  | Some d => Ret d
  | None => Raise (SystemExit 1)
  end.

Definition time_overlaps (slot_start slot_end check_start check_end : datetime)
    : outcome bool :=
  Datetime.lt slot_start check_end ≫= λ starts_before_end : bool,
  if starts_before_end then Datetime.gt slot_end check_start else Ret false.

Section Filter.

(** [datetime.fromisoformat], whose accepted syntax depends on the
    Python version: [None] stands for its [ValueError]. *)
Variable fromisoformat : string → option datetime.

(** [datetime.fromisoformat(slot_data[key].replace('Z', '+00:00'))];
    [None] when the key is missing ([KeyError]) or the text does not
    parse ([ValueError]). *)
Definition parse_timestamp (field : option string) : option datetime :=
  s ← field; fromisoformat (Py.replace_char "Z" "+00:00" s).

(** [any(facility_id in facility_use for facility_id in squash_facility_ids)] *)
Definition is_squash (facility_use : string) : bool :=
  existsb (λ facility_id, Py.str_in facility_id facility_use) squash_facility_ids.

(** [if target.tzinfo is None: target = target.replace(tzinfo=slot.tzinfo)] *)
Definition adopt_tzinfo (target slot : datetime) : datetime :=
  match tzinfo target with
  | None => replace_tzinfo (tzinfo slot) target
  | Some _ => target
  end.

(** The loop state: [target_start], [target_end] (reassigned by the
    body) and [filtered_slots]. *)
Record filter_state := {
  target_start : datetime;
  target_end : datetime;
  filtered_slots : list slot_item
}.

Definition filter_step (st : filter_state) (slot_item : slot_item)
    : outcome filter_state :=
  match get_data slot_item with
  | None => Ret st
  | Some slot_data =>
      let facility_use := default "" (sd_facilityUse slot_data) in
      if negb (is_squash facility_use) then Ret st
      else
        match parse_timestamp (sd_startDate slot_data) with
        | None => Ret st
        | Some slot_start =>
            match parse_timestamp (sd_endDate slot_data) with
            | None => Ret st
            | Some slot_end =>
                let target_start := adopt_tzinfo (target_start st) slot_start in
                let target_end := adopt_tzinfo (target_end st) slot_end in
                (if ordinal slot_start =? ordinal target_start
                 then time_overlaps slot_start slot_end target_start target_end
                 else Ret false) ≫= λ keep : bool,
                Ret {| target_start := target_start;
                       target_end := target_end;
                       filtered_slots :=
                         if keep then filtered_slots st ++ [slot_item]
                         else filtered_slots st |}
            end
        end
  end.

Definition filter_squash_slots_by_time (slots : list slot_item)
    (target_date start_time end_time : string) : outcome (list slot_item) :=
  target_start ← parse_datetime target_date start_time;
  target_end ← parse_datetime target_date end_time;
  st ← foldM filter_step slots
         {| target_start := target_start; target_end := target_end;
            filtered_slots := [] |};
  Ret (filtered_slots st).

(** ** Orchestration *)

Record windows := {
  main_start : string;
  main_end : string;
  before_start : string;
  before_end : string
}.

(** Lines 363-367 of [check_squash_availability]: [strptime] raises
    [ValueError] on a start time that is not [%H:%M] (the message is
    the one for text that does not match; text that matches in part
    has messages of its own). *)
Definition window_bounds (start_time : string) : outcome windows :=
  match strptime_time start_time with
  | None =>
      Raise (ValueError ("time data '" +:+ start_time +:+
                         "' does not match format '%H:%M'"))
  | Some t =>
      Ret {| main_start := start_time;
             main_end := strftime_HM (add_minutes t 40);
             before_start := strftime_HM (add_minutes t (-40));
             before_end := start_time |}
  end.

Definition check_squash_availability (fuel : nat) (w : feed)
    (target_date start_time : string)
    : outcome (gmap string court * gmap string court * windows) :=
  b ← window_bounds start_time;
  all ← fetch_all_slots fuel w;
  main_slots ← filter_squash_slots_by_time (all_slots all) target_date
                 (main_start b) (main_end b);
  before_slots ← filter_squash_slots_by_time (all_slots all) target_date
                   (before_start b) (before_end b);
  let main_court_info := get_squash_court_availability main_slots in
  let before_court_info := get_squash_court_availability before_slots in
  Ret (main_court_info, before_court_info, b).

(** [sum(1 for court_data in court_info.values() if court_data['available'])] *)
Definition count_available (court_info : gmap string court) : nat :=
  length (filter (λ kv, available kv.2 = true) (map_to_list court_info)).

Definition GENERIC_URL : string :=
  "https://placesleisure.gladstonego.cloud/book/calendar/041A000005".

(** The dictionary [check_availability_programmatic] returns: the result
    of a run, or [error_result]. *)
Inductive report :=
| Result (success : bool) (message : string)
    (main_slot_available before_slot_available : nat)
    (booking_url : string)
    (main_court_info before_court_info : gmap string court)
    (time_slots : windows)
| ErrorResult (message : string) (booking_url : string) (error : string).

Definition success (r : report) : bool :=
  match r with
  | Result s _ _ _ _ _ _ _ => s
  | ErrorResult _ _ _ => false
  end.

Definition message (r : report) : string :=
  match r with
  | Result _ m _ _ _ _ _ _ => m
  | ErrorResult m _ _ => m
  end.

Definition booking_url (r : report) : string :=
  match r with
  | Result _ _ _ _ u _ _ _ => u
  | ErrorResult _ u _ => u
  end.

(** Lines 498-506. *)
Definition verdict (before_available : nat) : string * bool :=
  if (0 <? before_available)%nat then
    (if (before_available =? 1)%nat
     then "There is one slot free before your booking"
     else "There are " +:+ str (Z.of_nat before_available) +:+
          " slots free before your booking",
     true)
  else ("There is no slots free before your booking", false).

(** Lines 509-523. *)
Definition build_booking_url (target_date before_start : string) : outcome string :=
  match strptime_date_T_time target_date before_start with
  | None =>
      Raise (ValueError ("time data '" +:+ target_date +:+ "T" +:+ before_start +:+
                         ":00' does not match format '%Y-%m-%dT%H:%M:%S'"))
  | Some before_datetime =>
      let before_datetime_utc := replace_tzinfo (Some 0) before_datetime in
      previous_datetime ← add_minutes_checked before_datetime_utc (-40);
      let activity_date := strftime_iso_ms before_datetime_utc in
      let previous_activity_date := strftime_iso_ms previous_datetime in
      Ret (GENERIC_URL +:+ "?activityDate=" +:+ activity_date +:+
           "&previousActivityDate=" +:+ previous_activity_date)
  end.

(** The body of the [try]. *)
Definition build_report (fuel : nat) (w : feed) (target_date start_time : string)
    : outcome report :=
  '(main_court_info, before_court_info, b) ←
    check_squash_availability fuel w target_date start_time;
  let main_available := count_available main_court_info in
  let before_available := count_available before_court_info in
  let '(message, success) := verdict before_available in
  booking_url ← build_booking_url target_date (before_start b);
  Ret (Result success message main_available before_available booking_url
         main_court_info before_court_info b).

(** [try: ... except Exception as e: return error_result] *)
Definition check_availability_programmatic (fuel : nat) (w : feed)
    (target_date start_time : string) : outcome report :=
  match build_report fuel w target_date start_time with
  | Raise e =>
      if is_Exception e
      then Ret (ErrorResult ("Error checking availability: " +:+ str_exn e)
                  GENERIC_URL (str_exn e))
      else Raise e
  | r => r
  end.

End Filter.

(** ** The printed report ([print_results]) *)

(** [print_results] reads its two dictionaries through [items()] and
    [values()] only: here a dictionary is the list of its items, in
    insertion order. *)
Definition court_items := list (string * court).

(** ['=' * 60], ["-" * 40]. *)
Fixpoint times (c : ascii) (n : nat) : string :=
  match n with
  | O => EmptyString
  | S n' => String c (times c n')
  end.

Definition newline : string := String "010" EmptyString.

Definition available_line (kv : string * court) : string :=
  "• " +:+ kv.1 +:+ " - " +:+ str (remaining_uses kv.2) +:+ " slots available".

Definition unavailable_line (kv : string * court) : string :=
  "• " +:+ kv.1 +:+ " - Fully booked".

Definition partial_booking_note : list string :=
  [ newline +:+ "📋 NOTE: Specific court availability not available in API data";
    "🔗 Click here to see which court is available:";
    "   https://placesleisure.gladstonego.cloud/book/calendar/041A000005" ].

(** The block that the source has twice (lines 391-421 and 424-454):
    the lines printed for one window. *)
Definition window_lines (title : string) (court_info : court_items)
    (start_time end_time : string) : list string :=
  let available_courts :=
    available_line <$> filter (λ kv, available kv.2 = true) court_info in
  let unavailable_courts :=
    unavailable_line <$> filter (λ kv, available kv.2 ≠ true) court_info in
  let partial_booking := Py.list_in "partial_booking" ((λ kv, id kv.2) <$> court_info) in
  [ newline +:+ title +:+ " (" +:+ start_time +:+ "-" +:+ end_time +:+ "):";
    times "-" 40 ] ++
  match available_courts with
  | [] => []
  | _ =>
      ("✅ AVAILABLE SQUASH COURTS (" +:+ str (Z.of_nat (length available_courts)) +:+ "):")
      :: ((λ court, "  " +:+ court) <$> available_courts)
      ++ (if partial_booking then partial_booking_note else [])
  end ++
  match unavailable_courts with
  | [] => []
  | _ =>
      ("❌ UNAVAILABLE SQUASH COURTS (" +:+ str (Z.of_nat (length unavailable_courts)) +:+ "):")
      :: ((λ court, "  " +:+ court) <$> unavailable_courts)
  end.

(** The names of the available courts of a window, as a set. *)
Definition available_names (court_info : court_items) : gset string :=
  list_to_set ((filter (λ kv, available kv.2 = true) court_info).*1).

Definition common_available (main_court_info before_court_info : court_items)
    : gset string :=
  available_names main_court_info ∩ available_names before_court_info.

(** The order of [sorted] on [str]. *)
Definition str_le (a b : string) : Prop := String.leb a b = true.

#[export] Instance str_le_dec : RelDecision str_le.
Proof. intros a b. unfold str_le. apply _. Defined.

(** [sorted(s)] for a set of strings. *)
Definition sorted (s : gset string) : list string := merge_sort str_le (elements s).

(** Lines 456-479. *)
Definition both_slots_lines (main_court_info before_court_info : court_items)
    : list string :=
  let common_available := common_available main_court_info before_court_info in
  [ newline +:+ "SQUASH COURTS AVAILABLE FOR BOTH SLOTS:"; times "-" 40 ] ++
  if decide (common_available = ∅)
  then [ "  No squash courts available for both time slots." ]
  else "  🎯 Courts available for both time slots:"
       :: ((λ court, "    " +:+ court) <$> sorted common_available).

(** What [print_results] prints, one string for each [print]. *)
Definition print_results (main_court_info before_court_info : court_items)
    (main_start main_end before_start before_end : string) : list string :=
  [ newline +:+ times "=" 60; "SQUASH COURT AVAILABILITY REPORT"; times "=" 60 ] ++
  window_lines "Main Slot" main_court_info main_start main_end ++
  window_lines "Before Slot" before_court_info before_start before_end ++
  both_slots_lines main_court_info before_court_info ++
  [ newline +:+ times "=" 60 ].

(** * Vocabulary of the statements *)

(** ** Aggregation *)

#[export] Instance name_value_eq_dec : EqDecision name_value.
Proof. solve_decision. Defined.

(** An entry after one more period of [sd] is folded into it. *)
Definition recorded (sd : slot_data) (c : court) : court :=
  {| id := id c;
     available := available c || (0 <? remaining_of sd);
     remaining_uses := Z.max (remaining_uses c) (remaining_of sd);
     slots := slots c ++ [period_of sd] |}.

(** The entry that stands for "one court is free, which one is unknown". *)
Definition synthetic_court (sd : slot_data) : court :=
  {| id := "partial_booking"; available := true; remaining_uses := 1;
     slots := [ {| p_start := sd_startDate sd; p_end := sd_endDate sd;
                   p_remaining := 1 |} ] |}.

(** [c'] is [c] with, perhaps, more periods. *)
Definition keeps (c c' : court) : Prop := id c' = id c ∧ slots c `prefix_of` slots c'.

(** No entry is lost, and none loses a period. *)
Definition grows (ci ci' : gmap string court) : Prop :=
  ∀ name c, ci !! name = Some c → ∃ c', ci' !! name = Some c' ∧ keeps c c'.

(** The partial-booking pattern: nothing left to book, a first offer
    with a price above zero, exactly two locations. *)
Definition partial_pattern (sd : slot_data) : Prop :=
  remaining_of sd = 0 ∧
  (∃ o rest, offers_of sd = o :: rest ∧ (0 < default 0%Q (price o))%Q) ∧
  length (locations_of sd) = 2%nat.

(** The order [slot_group.sort] sorts by. *)
Definition key_le (x y : slot_data) : Prop :=
  String.leb (sort_key x) (sort_key y) = true.

(** The first location whose ['name'] is exactly [name]. *)
Definition named_location (name : string) (locations : list location) : option location :=
  List.find (λ loc, bool_decide (loc_name loc = Some (NameStr name))) locations.

(** Its identifier, or the fixed constant when there is none. *)
Definition location_id_or (name fixed : string) (sd : slot_data) : string :=
  match named_location name (locations_of sd) with
  | Some loc => default "" (loc_identifier loc)
  | None => fixed
  end.

(** "The available one": [remainingUses > 0] and a first-offer
    [price > 0]. *)
Definition court2_signature (sd : slot_data) : Prop :=
  0 < remaining_of sd ∧ (0 < first_price sd)%Q.

(** Every period recorded in the map, entry by entry. *)
Definition all_periods (court_info : gmap string court) : list period :=
  concat (map (λ kv, slots kv.2) (map_to_list court_info)).

(** The items [get_squash_court_availability] keeps, in arrival order. *)
Definition targets (feed_items : list slot_item) : list slot_data :=
  omap admitted feed_items.

Definition same_start (key : string) (sd : slot_data) : bool :=
  String.eqb (start_key sd) key.

(** How many kept items share a start time. *)
Definition group_size (kept : list slot_data) (key : string) : nat :=
  length (List.filter (same_start key) kept).

(** To how many entries an item that is alone at its start time is
    appended: one per location, one when it has none. *)
Definition single_fanout (sd : slot_data) : nat :=
  match locations_of sd with
  | [] => 1%nat
  | locations => length locations
  end.

(** To how many entries an item's period is appended. *)
Definition fanout (kept : list slot_data) (sd : slot_data) : nat :=
  if (group_size kept (start_key sd) =? 1)%nat then single_fanout sd else 1%nat.

Definition contributions (kept : list slot_data) (sd : slot_data) : list period :=
  replicate (fanout kept sd) (period_of sd).

(** What one start-time group contributes. *)
Definition group_contributions (group : list slot_data) : list period :=
  match group with
  | [sd] => replicate (single_fanout sd) (period_of sd)
  | _ => map period_of group
  end.

(** No item that is alone at its start time shows the partial-booking
    pattern. *)
Definition no_partial_booking (kept : list slot_data) : Prop :=
  ∀ sd, sd ∈ kept → group_size kept (start_key sd) = 1%nat → ¬ partial_pattern sd.

(** The flag says whether some recorded period has uses left. *)
Definition flag_ok (c : court) : Prop :=
  available c = true ↔ ∃ p, p ∈ slots c ∧ 0 < p_remaining p.

(** The grouping loop, on the kept items. *)
Definition group_targets (kept : list slot_data) : list (string * list slot_data) :=
  fold_left (λ ts sd, group_append (start_key sd) sd ts) kept [].

(** The group stored under a key, [[]] when the key is absent. *)
Fixpoint group_of (key : string) (ts : list (string * list slot_data)) : list slot_data :=
  match ts with
  | [] => []
  | (k, g) :: rest => if String.eqb k key then g else group_of key rest
  end.

(** ** Pagination *)

(** The feed serves, from its [k]-th request on and starting at [url],
    the non-terminal pages whose items are [pages], each with a [next]
    URL that leads to the following page, and then a terminal page: no
    items, and [next] equal to the URL just requested. *)
Inductive serves (w : feed) : nat → string → list (list slot_item) → Prop :=
| serves_last (k : nat) (url : string) :
    w k url = Body {| pg_items := Some []; pg_next := Some url |} →
    serves w k url []
| serves_next (k : nat) (url : string) (items : list slot_item) (next : string)
    (rest : list (list slot_item)) :
    w k url = Body {| pg_items := Some items; pg_next := Some next |} →
    next ≠ "" →
    ¬ (items = [] ∧ next = url) →
    serves w (S k) next rest →
    serves w k url (items :: rest).

(** What the loop has accumulated after [n] pages, from the [k]-th
    request on. *)
Fixpoint accumulated (w : feed) (k : nat) (next_url : option string) (n : nat)
    : list slot_item :=
  match n with
  | O => []
  | S n' =>
      match w k (url_or_base next_url) with
      | Body p => default [] (pg_items p) ++ accumulated w (S k) (pg_next p) n'
      | Failed _ => []
      end
  end.

(** Every request is answered with a body. *)
Definition answers (w : feed) : Prop := ∀ k url, ∃ p, w k url = Body p.

(** No page is a last page: each has a non-empty [next] other than the
    URL just requested. *)
Definition never_ends (w : feed) : Prop :=
  ∀ k url, ∃ p next, w k url = Body p ∧ pg_next p = Some next ∧ next ≠ "" ∧ next ≠ url.

(** ** Windows *)

(** The clock time [m] minutes after midnight, modulo a day, as [%H:%M]. *)
Definition clock (m : Z) : string :=
  pad2 ((m `mod` 1440) `div` 60) +:+ ":" +:+ pad2 ((m `mod` 1440) `mod` 60).

(** The four bounds for a start time that reads as [t] minutes. *)
Definition window_pair (start_time : string) (t : Z) : windows :=
  {| main_start := start_time; main_end := clock (t + 40);
     before_start := clock (t - 40); before_end := start_time |}.

(** A naive datetime on day [d], [m] minutes after midnight. *)
Definition at_minute (d m : Z) : datetime :=
  {| ordinal := d; micros := m * us_per_minute; tzinfo := None |}.

(** The two timestamps of an item that the filter gets to compare: the
    item has data, is of the squash facility, and both texts parse. *)
Definition squash_timestamps (fromisoformat : string → option datetime)
    (slot_item : slot_item) : option (datetime * datetime) :=
  sd ← get_data slot_item;
  if is_squash (default "" (sd_facilityUse sd)) then
    s ← parse_timestamp fromisoformat (sd_startDate sd);
    e ← parse_timestamp fromisoformat (sd_endDate sd);
    Some (s, e)
  else None.

(** Each item carries one UTC offset on both of its timestamps, and the
    items are all offset-aware ([aw = true]) or all naive. *)
Definition well_zoned (fromisoformat : string → option datetime) (aw : bool)
    (feed_items : list slot_item) : Prop :=
  ∀ slot_item s e,
    slot_item ∈ feed_items → squash_timestamps fromisoformat slot_item = Some (s, e) →
    tzinfo s = tzinfo e ∧ aware s = aw.

(** No item lasts longer than 23 hours 20 minutes. *)
Definition short_lived (fromisoformat : string → option datetime)
    (feed_items : list slot_item) : Prop :=
  ∀ slot_item s e,
    slot_item ∈ feed_items → squash_timestamps fromisoformat slot_item = Some (s, e) →
    instant e - instant s ≤ 1400 * us_per_minute.

(** The same two conditions as tests on one item. *)
Definition zoned_test (fromisoformat : string → option datetime) (aw : bool)
    (slot_item : slot_item) : bool :=
  match squash_timestamps fromisoformat slot_item with
  | Some (s, e) => bool_decide (tzinfo s = tzinfo e) && Bool.eqb (aware s) aw
  | None => true
  end.

Definition short_test (fromisoformat : string → option datetime)
    (slot_item : slot_item) : bool :=
  match squash_timestamps fromisoformat slot_item with
  | Some (s, e) => instant e - instant s <=? 1400 * us_per_minute
  | None => true
  end.

(** The bounds of the filter's loop state share their [tzinfo], and are
    aware only in a feed of aware items. *)
Definition zone_ok (aw : bool) (st : filter_state) : Prop :=
  tzinfo (target_start st) = tzinfo (target_end st) ∧
  (aware (target_start st) = true → aw = true).

(** The loop leaves the bounds' date and time alone. *)
Definition same_bounds (st st' : filter_state) : Prop :=
  ordinal (target_start st') = ordinal (target_start st) ∧
  micros (target_start st') = micros (target_start st) ∧
  ordinal (target_end st') = ordinal (target_end st) ∧
  micros (target_end st') = micros (target_end st).

(** The window's start is 23 hours 20 minutes after its end. *)
Definition wrapped (st : filter_state) : Prop :=
  ordinal (target_start st) = ordinal (target_end st) ∧
  micros (target_start st) - micros (target_end st) = 1400 * us_per_minute.

(** The text ends in a decimal digit. *)
Fixpoint ends_in_digit (s : string) : Prop :=
  match s with
  | EmptyString => False
  | String c EmptyString => is_Some (digit c)
  | String _ s' => ends_in_digit s'
  end.

(** What a field reader leaves decides how the text ends. *)
Definition leaves (s rest : string) : Prop :=
  (rest = "" → ends_in_digit s) ∧ (ends_in_digit rest → ends_in_digit s).

(** ** Entries and their periods *)

(** The largest [remaining] among an entry's periods, [0] at least. *)
Definition most_remaining (c : court) : Z := foldr Z.max 0 (p_remaining <$> slots c).

(** An entry's summary fields agree with its list of periods. *)
Definition summary_ok (c : court) : Prop :=
  remaining_uses c = most_remaining c ∧ (available c = true ↔ 0 < remaining_uses c).

(** The name a single item is recorded under for one of its locations. *)
Definition location_court_name (loc : location) : string :=
  match default (NameStr "") (loc_name loc) with
  | NameStr s => if Py.truthy s then s else "Squash Court (" +:+ default "" (loc_identifier loc) +:+ ")"
  | NameOther => "Squash Court (" +:+ default "" (loc_identifier loc) +:+ ")"
  end.

(** The keys of [time_slots], in the order of their first appearance. *)
Fixpoint first_appearances (keys : list string) (seen : list string) : list string :=
  match keys with
  | [] => []
  | k :: keys' =>
      if Py.list_in k seen then first_appearances keys' seen
      else k :: first_appearances keys' (k :: seen)
  end.

(** The entry under [name] holds a period of [sd], and is available when
    [sd] has uses left. *)
Definition holds_period (sd : slot_data) (name : string) (ci : gmap string court) : Prop :=
  ∃ c, ci !! name = Some c ∧ period_of sd ∈ slots c ∧
       (0 < remaining_of sd → available c = true).

(** ** Pages that lead to a request *)

(** The feed serves, from its [k]-th request on and starting at [url],
    non-terminal pages whose items are [pages], each with a [next] URL
    that leads to the following page; the request after them is the
    [k']-th, for [url']. *)
Inductive leads (w : feed) : nat → string → list (list slot_item) → nat → string → Prop :=
| leads_here (k : nat) (url : string) : leads w k url [] k url
| leads_next (k : nat) (url : string) (items : option (list slot_item)) (next : string)
    (rest : list (list slot_item)) (k' : nat) (url' : string) :
    w k url = Body {| pg_items := items; pg_next := Some next |} →
    next ≠ "" →
    ¬ (default [] items = [] ∧ next = url) →
    leads w (S k) next rest k' url' →
    leads w k url (default [] items :: rest) k' url'.

(** ** The filter on a feed with one UTC offset *)

(** Every timestamp the filter compares has the [tzinfo] [z]. *)
Definition one_offset (fromisoformat : string → option datetime) (z : option Z)
    (feed_items : list slot_item) : Prop :=
  ∀ slot_item s e,
    slot_item ∈ feed_items → squash_timestamps fromisoformat slot_item = Some (s, e) →
    tzinfo s = z ∧ tzinfo e = z.

(** The instant of minute [m] of day [d] at the offset [z]. *)
Definition bound (d m : Z) (z : option Z) : Z :=
  d * us_per_day + m * us_per_minute - default 0 z.

(** The item starts on day [d] and its period overlaps the minutes [a]
    to [b] of that day, read at the offset [z]. *)
Definition in_window (fromisoformat : string → option datetime) (z : option Z)
    (d a b : Z) (slot_item : slot_item) : bool :=
  match squash_timestamps fromisoformat slot_item with
  | Some (s, e) =>
      (ordinal s =? d) && (instant s <? bound d b z) && (bound d a z <? instant e)
  | None => false
  end.

(** The same test on one item, for [one_offset]. *)
Definition offset_test (fromisoformat : string → option datetime) (z : option Z)
    (slot_item : slot_item) : bool :=
  match squash_timestamps fromisoformat slot_item with
  | Some (s, e) => bool_decide (tzinfo s = z) && bool_decide (tzinfo e = z)
  | None => true
  end.

Definition naive_aware_message : string :=
  "can't compare offset-naive and offset-aware datetimes".
(** The bounds of the loop state are minute [a] and minute [b] of day
    [d], naive or at the offset [z]. *)
Definition bounds_at (z : option Z) (d a b : Z) (st : filter_state) : Prop :=
  ordinal (target_start st) = d ∧ micros (target_start st) = a * us_per_minute ∧
  ordinal (target_end st) = d ∧ micros (target_end st) = b * us_per_minute ∧
  (tzinfo (target_start st) = None ∨ tzinfo (target_start st) = z) ∧
  (tzinfo (target_end st) = None ∨ tzinfo (target_end st) = z).

(** ** The report on a feed with one UTC offset *)

(** The map of a window: the items in the window, aggregated. *)
Definition window_info (fromisoformat : string → option datetime) (z : option Z)
    (d a b : Z) (feed_items : list slot_item) : gmap string court :=
  get_squash_court_availability (List.filter (in_window fromisoformat z d a b) feed_items).

(** ** The booking link *)




(** * Example feeds *)

Definition squash_use : string :=
  "https://opendata.leisurecloud.live/api/facility-uses/041A000005".

Definition example_data (ident facility_use starts ends : string) (remaining : Z)
    (first_price : Q) (locations : list location) : slot_data :=
  {| sd_identifier := Some ident;
     sd_facilityUse := Some facility_use;
     sd_startDate := Some starts;
     sd_endDate := Some ends;
     sd_remainingUses := Some remaining;
     sd_offers := Some [ {| price := Some first_price |} ];
     sd_locations := Some locations;
     sd_other_keys := true |}.

Definition example_slot (ident facility_use starts ends : string) (remaining : Z)
    (first_price : Q) (locations : list location) : slot_item :=
  {| item_data :=
       Some (example_data ident facility_use starts ends remaining first_price locations) |}.

Definition court_location (name ident : string) : location :=
  {| loc_name := Some (NameStr name); loc_identifier := Some ident |}.

Definition both_courts : list location :=
  [court_location "Squash Court 1" "041ZSQU001";
   court_location "Squash Court 2" "041ZSQU002"].

(** 09:20 to 10:00, split by court: one free, one booked. *)
Definition free_court_0920 : slot_item :=
  example_slot "slot-0920-a" squash_use
    "2026-02-03T09:20:00Z" "2026-02-03T10:00:00Z" 1 (41 # 4) [].

Definition booked_court_0920 : slot_item :=
  example_slot "slot-0920-b" squash_use
    "2026-02-03T09:20:00Z" "2026-02-03T10:00:00Z" 0 0 [].

(** 10:00 to 10:40: only the booked half of the period is in the feed. *)
Definition half_booked_data : slot_data :=
  example_data "slot-1000" squash_use
    "2026-02-03T10:00:00Z" "2026-02-03T10:40:00Z" 0 (41 # 4) both_courts.

Definition half_booked_1000 : slot_item := {| item_data := Some half_booked_data |}.

(** 11:00 to 11:40: one record for both courts, still bookable. *)
Definition shared_1100 : slot_item :=
  example_slot "slot-1100" squash_use
    "2026-02-03T11:00:00Z" "2026-02-03T11:40:00Z" 1 (41 # 4) both_courts.

(** An item of the squash facility whose [facilityUse] carries the
    facility id in a segment that is not the last one. *)
Definition misfiled_item : slot_item :=
  example_slot "slot-1000-x" "https://example.org/facility-uses/041A000005/slots"
    "2026-02-03T10:00:00Z" "2026-02-03T10:40:00Z" 1 (41 # 4) [].

(** Thirty minutes long, with a start at +14:00 and an end at -12:00. *)
Definition mixed_offset_item : slot_item :=
  example_slot "slot-odd" squash_use
    "2026-02-03T23:50:00+14:00" "2026-02-02T22:20:00-12:00" 1 (41 # 4) [].

(** A feed of one page of items, then the terminal page. *)
Definition one_page_feed (items : list slot_item) : feed := λ k url,
  match k with
  | O => Body {| pg_items := Some items;
                 pg_next := Some (BASE_URL +:+ "?afterTimestamp=1") |}
  | _ => Body {| pg_items := Some []; pg_next := Some url |}
  end.

(** A window without a partial booking. *)
Definition plain_items : list slot_item :=
  [free_court_0920; booked_court_0920; shared_1100].

Definition morning_items : list slot_item :=
  [free_court_0920; booked_court_0920; half_booked_1000].

Definition morning_feed : feed := one_page_feed morning_items.

Definition mixed_offset_feed : feed := one_page_feed [mixed_offset_item].

Definition numbered_item (k : nat) : slot_item :=
  example_slot (str (Z.of_nat k)) squash_use "" "" 0 0 [].

(** Two pages of one item each, then the terminal page. *)
Definition two_page_feed : feed := λ k url,
  match k with
  | 0%nat => Body {| pg_items := Some [numbered_item 0];
                     pg_next := Some (BASE_URL +:+ "?afterTimestamp=1") |}
  | 1%nat => Body {| pg_items := Some [numbered_item 1];
                     pg_next := Some (BASE_URL +:+ "?afterTimestamp=2") |}
  | _ => Body {| pg_items := Some []; pg_next := Some url |}
  end.

(** 1002 non-terminal pages of one item each, then the terminal page. *)
Definition long_feed : feed := λ k url,
  if (k <? 1002)%nat
  then Body {| pg_items := Some [numbered_item k];
               pg_next := Some (BASE_URL +:+ "?afterTimestamp=n") |}
  else Body {| pg_items := Some []; pg_next := Some url |}.

Definition long_pages : list (list slot_item) :=
  map (λ k, [numbered_item k]) (seq 0 1002).

(** A feed that always has one more page. *)
Definition endless_feed : feed := λ k url,
  Body {| pg_items := Some [numbered_item k]; pg_next := Some (url +:+ "+") |}.

(** A feed that cannot be reached. *)
Definition unreachable_feed : feed := λ k url,
  Failed (RequestException "connection refused").

(** A feed whose body is not JSON, with a [requests] that raises a plain
    [ValueError] for it. *)
Definition garbled_feed : feed := λ k url,
  Failed (ValueError "Expecting value: line 1 column 1 (char 0)").

Definition nine_twenty : datetime :=
  {| ordinal := 739650; micros := 560 * us_per_minute; tzinfo := Some 0 |}.
Definition ten_o_clock : datetime :=
  {| ordinal := 739650; micros := 600 * us_per_minute; tzinfo := Some 0 |}.
Definition ten_forty : datetime :=
  {| ordinal := 739650; micros := 640 * us_per_minute; tzinfo := Some 0 |}.

(** A naive timestamp, for a feed that mixes naive and aware items. *)
Definition naive_item : slot_item :=
  example_slot "slot-naive" squash_use
    "2026-02-03T09:20:00" "2026-02-03T10:00:00" 1 (41 # 4) [].

(** An item without ['data']. *)
Definition bare_item : slot_item := {| item_data := None |}.

(** A page of one item that names a second page, which cannot be
    fetched. *)
Definition dropped_feed : feed := λ k url,
  match k with
  | O => Body {| pg_items := Some [numbered_item 0];
                 pg_next := Some (BASE_URL +:+ "?afterTimestamp=1") |}
  | _ => Failed (RequestException "connection reset")
  end.

(** Two pages of one item each, the second without ['next']. *)
Definition unlinked_feed : feed := λ k url,
  match k with
  | O => Body {| pg_items := Some [numbered_item 0];
                 pg_next := Some (BASE_URL +:+ "?afterTimestamp=1") |}
  | _ => Body {| pg_items := Some [numbered_item 1]; pg_next := None |}
  end.

(** * Properties *)

(** ** Recording a period *)

Lemma Qpositive_spec (p : Q) : Qpositive p = true ↔ (0 < p)%Q.
Proof.
  unfold Qpositive, Qlt. simpl. rewrite Z.ltb_lt. lia.
Qed.

Lemma record_period_spec (name cid : string) (sd : slot_data) (ci : gmap string court) :
  record_period name cid sd ci =
  <[name := recorded sd (default (new_court cid) (ci !! name))]> ci.
Proof.
  unfold record_period.
  apply map_eq. intros k.
  destruct (decide (k = name)) as [->|Hne].
  - rewrite lookup_insert_eq.
    destruct (ci !! name) as [c|] eqn:Hc; destruct (0 <? remaining_of sd) eqn:Hr;
      rewrite ?lookup_alter_eq, ?lookup_insert_eq, ?Hc; simpl;
      unfold recorded; rewrite Hr; simpl; f_equal;
      destruct c; simpl; f_equal; rewrite ?orb_true_r, ?orb_false_r; reflexivity.
  - rewrite lookup_insert_ne by done.
    destruct (ci !! name) as [c|] eqn:Hc; destruct (0 <? remaining_of sd) eqn:Hr;
      rewrite ?lookup_alter_ne, ?lookup_insert_ne by done; reflexivity.
Qed.

Lemma keeps_refl (c : court) : keeps c c.
Proof. split; reflexivity. Qed.

Lemma keeps_trans (a b c : court) : keeps a b → keeps b c → keeps a c.
Proof. intros [H1 H2] [H3 H4]. split; [congruence | etrans; eauto]. Qed.

Lemma keeps_recorded (sd : slot_data) (c : court) : keeps c (recorded sd c).
Proof. split; [reflexivity | by apply prefix_app_r]. Qed.

Lemma grows_refl (ci : gmap string court) : grows ci ci.
Proof. intros name c H. exists c. split; [done | apply keeps_refl]. Qed.

Lemma grows_trans (a b c : gmap string court) : grows a b → grows b c → grows a c.
Proof.
  intros Hab Hbc name x Hx.
  destruct (Hab _ _ Hx) as (y & Hy & Hxy).
  destruct (Hbc _ _ Hy) as (z & Hz & Hyz).
  exists z. split; [done | by eapply keeps_trans].
Qed.

Lemma record_period_grows (name cid : string) (sd : slot_data) (ci : gmap string court) :
  grows ci (record_period name cid sd ci).
Proof.
  rewrite record_period_spec. intros k c Hk.
  destruct (decide (k = name)) as [->|Hne].
  - rewrite lookup_insert_eq, Hk. simpl. eexists. split; [done | apply keeps_recorded].
  - rewrite lookup_insert_ne by done. exists c. split; [done | apply keeps_refl].
Qed.

Lemma fold_left_grows {A} (f : gmap string court → A → gmap string court) (l : list A) :
  (∀ ci x, grows ci (f ci x)) → ∀ ci, grows ci (fold_left f l ci).
Proof.
  intros Hf. induction l as [|x l IH]; intros ci; simpl; [apply grows_refl|].
  eapply grows_trans; [apply Hf | apply IH].
Qed.

Lemma record_single_slot_grows (sd : slot_data) (ci : gmap string court) :
  grows ci (record_single_slot sd ci).
Proof.
  unfold record_single_slot. destruct (locations_of sd) as [|loc locs].
  - apply record_period_grows.
  - apply fold_left_grows. intros ci' x. apply record_period_grows.
Qed.

Lemma partial_pattern_test (sd : slot_data) :
  is_partially_booked sd && (length (locations_of sd) =? 2)%nat = true ↔ partial_pattern sd.
Proof.
  unfold is_partially_booked, partial_pattern.
  rewrite !andb_true_iff, Z.eqb_eq, Nat.eqb_eq.
  destruct (offers_of sd) as [|o rest].
  - split; [intros [[_ ?] _]; done | intros (_ & (o & rest & ? & _) & _); done].
  - rewrite Qpositive_spec. split.
    + intros [[? ?] ?]. eauto 10.
    + intros (? & (o' & rest' & [= <- <-] & ?) & ?). done.
Qed.

Lemma process_single_slot_cases (sd : slot_data) (court_info : gmap string court) :
  (partial_pattern sd →
     _process_single_slot sd court_info = {[ "Available Courts" := synthetic_court sd ]}) ∧
  (¬ partial_pattern sd →
     _process_single_slot sd court_info = record_single_slot sd court_info).
Proof.
  unfold _process_single_slot.
  destruct (is_partially_booked sd && (length (locations_of sd) =? 2)%nat) eqn:Htest.
  - apply partial_pattern_test in Htest. split; [intros _ | done].
    unfold _process_missing_slot, synthetic_court. reflexivity.
  - split; [|done]. intros Hp. apply partial_pattern_test in Hp. congruence.
Qed.

(** C2.  A single-item group whose item has no uses left, a first offer
    with a price above zero and exactly two locations replaces the whole
    map built so far by the one entry "Available Courts" (id
    "partial_booking", available, remaining uses 1, one period with the
    item's start and end); an item without that pattern is only
    recorded, and every entry built so far is kept with its periods. *)
Theorem partial_booking_reconstruction (sd : slot_data) (court_info : gmap string court) :
  (partial_pattern sd →
     _process_single_slot sd court_info = {[ "Available Courts" := synthetic_court sd ]}) ∧
  (¬ partial_pattern sd →
     _process_single_slot sd court_info = record_single_slot sd court_info ∧
     grows court_info (_process_single_slot sd court_info)).
Proof.
  destruct (process_single_slot_cases sd court_info) as [Hyes Hno].
  split; [done|]. intros Hp. split; [by apply Hno|].
  rewrite (Hno Hp). apply record_single_slot_grows.
Qed.

(** C2, witness: the half-booked period replaces a map that already has
    an entry. *)
Lemma half_booked_replaces_the_map :
  _process_single_slot half_booked_data {["Squash Court 2" := new_court "041ZSQU002"]} =
  {["Available Courts" := synthetic_court half_booked_data]}.
Proof.
  apply (proj1 (partial_booking_reconstruction half_booked_data
                  {["Squash Court 2" := new_court "041ZSQU002"]})).
  split; [reflexivity|]. split; [|reflexivity].
  eexists _, _. split; reflexivity.
Defined.

(** ** The multi-item policy *)

Lemma insert_sorted_perm (x : slot_data) (l : list slot_data) :
  insert_sorted x l ≡ₚ x :: l.
Proof.
  induction l as [|y l IH]; simpl; [done|].
  destruct (String.leb (sort_key x) (sort_key y)); [done|].
  rewrite IH. apply Permutation_swap.
Qed.

Lemma sort_by_identifier_perm (l : list slot_data) : sort_by_identifier l ≡ₚ l.
Proof.
  induction l as [|x l IH]; simpl; [done|].
  unfold sort_by_identifier in *. simpl. rewrite insert_sorted_perm. by f_equiv.
Qed.

Lemma insert_sorted_sorted (x : slot_data) (l : list slot_data) :
  Sorted key_le l → Sorted key_le (insert_sorted x l).
Proof.
  induction 1 as [|y l Hl IH Hhd]; simpl.
  - repeat constructor.
  - destruct (String.leb (sort_key x) (sort_key y)) eqn:Hxy.
    + constructor; [by constructor | by constructor].
    + constructor; [done|].
      assert (key_le y x) as Hyx.
      { unfold key_le. destruct (String.leb_total (sort_key x) (sort_key y)); congruence. }
      destruct Hhd as [|z l Hyz]; simpl; [by constructor|].
      destruct (String.leb (sort_key x) (sort_key z)); by constructor.
Qed.

Lemma sort_by_identifier_sorted (l : list slot_data) : Sorted key_le (sort_by_identifier l).
Proof.
  induction l as [|x l IH]; [constructor|]. by apply insert_sorted_sorted.
Qed.

Lemma find_location_spec (name : string) (locations : list location) :
  name ≠ "" →
  find_location name locations =
  (λ loc, (name, default "" (loc_identifier loc))) <$> named_location name locations.
Proof.
  intros Hne. unfold named_location.
  induction locations as [|loc locs IH]; simpl; [done|].
  rewrite IH. clear IH.
  destruct (loc_name loc) as [[s|]|] eqn:Hn; simpl.
  - destruct (String.eqb_spec s name) as [->|Hs]; try case_bool_decide; first [done | congruence].
  - try case_bool_decide; first [done | congruence].
  - destruct name; done.
Qed.

Lemma target_court_spec (sd : slot_data) :
  (court2_signature sd → target_court sd = ("Squash Court 2", "041ZSQU002")) ∧
  (¬ court2_signature sd → target_court sd = ("Squash Court 1", "041ZSQU001")).
Proof.
  unfold target_court, court2_signature.
  rewrite <- Qpositive_spec, <- Z.ltb_lt.
  destruct (0 <? remaining_of sd), (Qpositive (first_price sd)); simpl;
    (split; intros H; [by destruct H | try done; exfalso; by apply H]).
Qed.

Lemma inferred_court_spec (sd : slot_data) :
  (court2_signature sd →
     inferred_court sd = ("Squash Court 2", location_id_or "Squash Court 2" "041ZSQU002" sd)) ∧
  (¬ court2_signature sd →
     inferred_court sd = ("Squash Court 1", location_id_or "Squash Court 1" "041ZSQU001" sd)).
Proof.
  destruct (target_court_spec sd) as [H2 H1].
  unfold inferred_court, location_id_or.
  split; intros H; [rewrite (H2 H) | rewrite (H1 H)];
    rewrite find_location_spec by done;
    match goal with |- context [named_location ?n ?l] => destruct (named_location n l) end;
    reflexivity.
Qed.

Lemma multiple_slot_step_spec (ci : gmap string court) (sd : slot_data) :
  multiple_slot_step ci sd =
  <[(inferred_court sd).1 :=
      recorded sd (default (new_court (inferred_court sd).2) (ci !! (inferred_court sd).1))]> ci.
Proof.
  unfold multiple_slot_step. destruct (inferred_court sd) as [name cid].
  apply record_period_spec.
Qed.

Lemma process_multiple_spec (group : list slot_data) (ci : gmap string court) :
  ∃ sorted, sorted ≡ₚ group ∧ Sorted key_le sorted ∧
    _process_multiple_court_slots group ci =
    fold_left (λ ci sd,
       <[(inferred_court sd).1 :=
           recorded sd (default (new_court (inferred_court sd).2)
                          (ci !! (inferred_court sd).1))]> ci) sorted ci.
Proof.
  exists (sort_by_identifier group).
  split; [apply sort_by_identifier_perm|].
  split; [apply sort_by_identifier_sorted|].
  unfold _process_multiple_court_slots.
  generalize (sort_by_identifier group) as l. intros l. revert ci.
  induction l as [|sd l IH]; intros ci; simpl; [done|].
  rewrite multiple_slot_step_spec. apply IH.
Qed.

Lemma two_item_fold (a b : slot_data) (l : list slot_data) :
  l = [a; b] ∨ l = [b; a] → court2_signature a → remaining_of b = 0 →
  fold_left multiple_slot_step l ∅ =
  <["Squash Court 2" :=
      recorded a (new_court (location_id_or "Squash Court 2" "041ZSQU002" a))]>
    {["Squash Court 1" :=
        recorded b (new_court (location_id_or "Squash Court 1" "041ZSQU001" b))]}.
Proof.
  intros Hl Ha Hb.
  assert (¬ court2_signature b) as Hnb by (intros [? _]; lia).
  pose proof (proj1 (inferred_court_spec a) Ha) as Ea.
  pose proof (proj2 (inferred_court_spec b) Hnb) as Eb.
  destruct Hl as [-> | ->]; simpl; rewrite !multiple_slot_step_spec, Ea, Eb; simpl.
  - rewrite lookup_empty. simpl. rewrite lookup_insert_ne by done.
    rewrite lookup_empty. simpl. rewrite insert_empty. apply insert_insert_ne. done.
  - rewrite lookup_empty. simpl. rewrite lookup_insert_ne by done.
    rewrite lookup_empty. simpl. rewrite insert_empty. done.
Qed.

Lemma group_two (ia ib : slot_item) (a b : slot_data) :
  admitted ia = Some a → admitted ib = Some b → start_key a = start_key b →
  group_by_start [ia; ib] = [(start_key a, [a; b])].
Proof.
  intros Ha Hb Hk. unfold group_by_start. simpl. unfold group_step.
  rewrite Ha. simpl. rewrite Hb, <- Hk. simpl. rewrite String.eqb_refl. done.
Qed.

Lemma sort_two (a b : slot_data) :
  sort_by_identifier [a; b] = [a; b] ∨ sort_by_identifier [a; b] = [b; a].
Proof.
  unfold sort_by_identifier. simpl.
  destruct (String.leb (sort_key a) (sort_key b)); auto.
Qed.

Lemma permutation_two {A} (x y : A) (l : list A) : l ≡ₚ [x; y] → l = [x; y] ∨ l = [y; x].
Proof.
  intros H. symmetry in H. by apply Permutation_length_2_inv in H.
Qed.

(** C3.  An item of a multi-item group with uses left and a first-offer
    price above zero is recorded under "Squash Court 2", every other
    item under "Squash Court 1"; the id is that of the item's first
    location with exactly that name, or else the fixed constant
    ("041ZSQU002", "041ZSQU001").  The group is processed in the order
    of its identifiers.  Two kept items at one start time, one with uses
    left and a positive price and one with no uses left, give exactly
    the entries "Squash Court 2" (available) and "Squash Court 1" (not
    available). *)
Theorem multiple_court_slots_inference :
  (∀ sd : slot_data,
     (court2_signature sd →
        inferred_court sd =
        ("Squash Court 2", location_id_or "Squash Court 2" "041ZSQU002" sd)) ∧
     (¬ court2_signature sd →
        inferred_court sd =
        ("Squash Court 1", location_id_or "Squash Court 1" "041ZSQU001" sd))) ∧
  (∀ (group : list slot_data) (court_info : gmap string court),
     ∃ sorted, sorted ≡ₚ group ∧ Sorted key_le sorted ∧
       _process_multiple_court_slots group court_info =
       fold_left (λ ci sd,
          <[(inferred_court sd).1 :=
              recorded sd (default (new_court (inferred_court sd).2)
                             (ci !! (inferred_court sd).1))]> ci) sorted court_info) ∧
  (∀ (ia ib : slot_item) (a b : slot_data) (feed_items : list slot_item),
     admitted ia = Some a → admitted ib = Some b →
     start_key a = start_key b →
     court2_signature a → remaining_of b = 0 →
     feed_items ≡ₚ [ia; ib] →
     ∃ c1 c2,
       (get_squash_court_availability feed_items =
          <["Squash Court 2" := c2]> {["Squash Court 1" := c1]}) ∧
       available c2 = true ∧ available c1 = false ∧
       slots c2 = [period_of a] ∧ slots c1 = [period_of b]).
Proof.
  split; [apply inferred_court_spec|].
  split; [apply process_multiple_spec|].
  intros ia ib a b items Ha Hb Hk Hsig Hrem Hperm.
  exists (recorded b (new_court (location_id_or "Squash Court 1" "041ZSQU001" b))),
         (recorded a (new_court (location_id_or "Squash Court 2" "041ZSQU002" a))).
  assert ((0 <? remaining_of a) = true) as Hpos by (apply Z.ltb_lt, Hsig).
  split; [|simpl; rewrite Hpos, Hrem; done].
  unfold get_squash_court_availability.
  destruct (permutation_two _ _ _ Hperm) as [-> | ->].
  - rewrite (group_two ia ib a b) by done. simpl.
    unfold process_group, _process_multiple_court_slots. simpl snd.
    apply two_item_fold; [|done..]. apply sort_two.
  - rewrite (group_two ib ia b a) by done. simpl.
    unfold process_group, _process_multiple_court_slots. simpl snd.
    apply two_item_fold; [|done..]. destruct (sort_two b a); auto.
Qed.

(** C3, witness: the period from 09:20 that the feed has split by court. *)
Lemma split_period_is_told_apart :
  ∃ c1 c2,
    (get_squash_court_availability [booked_court_0920; free_court_0920] =
       <["Squash Court 2" := c2]> {["Squash Court 1" := c1]}) ∧
    available c2 = true ∧ available c1 = false ∧
    slots c2 = [period_of (example_data "slot-0920-a" squash_use
                             "2026-02-03T09:20:00Z" "2026-02-03T10:00:00Z" 1 (41 # 4) [])] ∧
    slots c1 = [period_of (example_data "slot-0920-b" squash_use
                             "2026-02-03T09:20:00Z" "2026-02-03T10:00:00Z" 0 0 [])].
Proof.
  apply (proj2 (proj2 multiple_court_slots_inference) free_court_0920 booked_court_0920).
  - reflexivity.
  - reflexivity.
  - reflexivity.
  - split; reflexivity.
  - reflexivity.
  - apply Permutation_swap.
Defined.

(** ** What each item contributes *)

Lemma all_periods_insert_fresh (name : string) (c : court) (ci : gmap string court) :
  ci !! name = None → all_periods (<[name := c]> ci) ≡ₚ slots c ++ all_periods ci.
Proof.
  intros H. unfold all_periods. rewrite (map_to_list_insert _ _ _ H). done.
Qed.

Lemma all_periods_record (name cid : string) (sd : slot_data) (ci : gmap string court) :
  all_periods (record_period name cid sd ci) ≡ₚ period_of sd :: all_periods ci.
Proof.
  rewrite record_period_spec.
  destruct (ci !! name) as [c|] eqn:Hc; simpl.
  - rewrite <- (insert_delete_eq ci name (recorded sd c)).
    rewrite all_periods_insert_fresh by apply lookup_delete_eq.
    rewrite <- (insert_delete_id ci name c Hc) at 2.
    rewrite all_periods_insert_fresh by apply lookup_delete_eq.
    simpl. rewrite <- app_assoc. rewrite (Permutation_app_comm (slots c)).
    simpl. rewrite Permutation_middle. by rewrite Permutation_app_comm.
  - by rewrite all_periods_insert_fresh.
Qed.

Lemma all_periods_locations (sd : slot_data) (locations : list location)
    (ci : gmap string court) :
  all_periods (fold_left (single_slot_location sd) locations ci) ≡ₚ
  replicate (length locations) (period_of sd) ++ all_periods ci.
Proof.
  revert ci. induction locations as [|loc locs IH]; intros ci; simpl; [done|].
  rewrite IH. unfold single_slot_location. rewrite all_periods_record.
  by rewrite Permutation_middle.
Qed.

Lemma all_periods_single (sd : slot_data) (ci : gmap string court) :
  ¬ partial_pattern sd →
  all_periods (_process_single_slot sd ci) ≡ₚ
  replicate (single_fanout sd) (period_of sd) ++ all_periods ci.
Proof.
  intros Hp. rewrite (proj2 (process_single_slot_cases sd ci) Hp).
  unfold record_single_slot, single_fanout.
  destruct (locations_of sd) as [|loc locs] eqn:E.
  - by rewrite all_periods_record.
  - by rewrite all_periods_locations.
Qed.

Lemma all_periods_steps (l : list slot_data) (ci : gmap string court) :
  all_periods (fold_left multiple_slot_step l ci) ≡ₚ map period_of l ++ all_periods ci.
Proof.
  revert ci. induction l as [|sd l IH]; intros ci; simpl; [done|].
  rewrite IH. unfold multiple_slot_step. destruct (inferred_court sd) as [name cid].
  rewrite all_periods_record. by rewrite Permutation_middle.
Qed.

Lemma all_periods_multiple (group : list slot_data) (ci : gmap string court) :
  all_periods (_process_multiple_court_slots group ci) ≡ₚ
  map period_of group ++ all_periods ci.
Proof.
  unfold _process_multiple_court_slots.
  by rewrite all_periods_steps, sort_by_identifier_perm.
Qed.

Lemma all_periods_groups (groups : list (string * list slot_data))
    (ci : gmap string court) :
  (∀ k sd, (k, [sd]) ∈ groups → ¬ partial_pattern sd) →
  all_periods (fold_left process_group groups ci) ≡ₚ
  concat (map (λ kg, group_contributions kg.2) groups) ++ all_periods ci.
Proof.
  revert ci. induction groups as [|[k g] groups IH]; intros ci Hnp; simpl; [done|].
  rewrite IH by (intros k' sd H; apply (Hnp k'); by right).
  assert (all_periods (process_group ci (k, g)) ≡ₚ group_contributions g ++ all_periods ci)
    as ->.
  { unfold process_group. simpl. destruct g as [|sd [|sd' g]].
    - by rewrite all_periods_multiple.
    - apply all_periods_single. apply (Hnp k). by left.
    - by rewrite all_periods_multiple. }
  rewrite !app_assoc. f_equiv. apply Permutation_app_comm.
Qed.

Lemma group_by_start_targets (slots : list slot_item) :
  group_by_start slots = group_targets (targets slots).
Proof.
  unfold group_by_start, group_targets, targets.
  generalize (@nil (string * list slot_data)) as ts.
  induction slots as [|i slots IH]; intros ts; simpl; [done|].
  rewrite IH. unfold group_step. by destruct (admitted i).
Qed.

Lemma group_targets_snoc (kept : list slot_data) (sd : slot_data) :
  group_targets (kept ++ [sd]) = group_append (start_key sd) sd (group_targets kept).
Proof. unfold group_targets. by rewrite fold_left_app. Qed.

Lemma group_of_append (key k : string) (sd : slot_data)
    (ts : list (string * list slot_data)) :
  group_of key (group_append k sd ts) =
  if String.eqb k key then group_of key ts ++ [sd] else group_of key ts.
Proof.
  induction ts as [|[k' g] ts IH]; simpl.
  - by destruct (String.eqb k key).
  - destruct (String.eqb_spec k' k) as [->|Hne]; simpl.
    + by destruct (String.eqb k key).
    + destruct (String.eqb_spec k' key) as [->|Hne']; simpl; [|done].
      by rewrite (proj2 (String.eqb_neq k key)) by done.
Qed.

Lemma group_of_targets (key : string) (kept : list slot_data) :
  group_of key (group_targets kept) = List.filter (same_start key) kept.
Proof.
  induction kept as [|sd kept IH] using rev_ind; [done|].
  rewrite group_targets_snoc, group_of_append, IH, List.filter_app.
  assert (List.filter (same_start key) [sd] =
          if String.eqb (start_key sd) key then [sd] else []) as -> by done.
  destruct (String.eqb (start_key sd) key); [done | by rewrite app_nil_r].
Qed.

Lemma group_append_key (k k' : string) (sd : slot_data)
    (ts : list (string * list slot_data)) :
  k' ∈ (group_append k sd ts).*1 → k' = k ∨ k' ∈ ts.*1.
Proof.
  induction ts as [|[k0 g] ts IH]; simpl.
  - intros [->|[]%elem_of_nil]%elem_of_cons. by left.
  - destruct (String.eqb k0 k); simpl; [by right|].
    intros [->|Hin]%elem_of_cons.
    + right. by left.
    + destruct (IH Hin) as [->|Hin']; [by left|]. right. by right.
Qed.

Lemma group_append_nodup (k : string) (sd : slot_data)
    (ts : list (string * list slot_data)) :
  NoDup ts.*1 → NoDup (group_append k sd ts).*1.
Proof.
  induction ts as [|[k0 g] ts IH]; simpl.
  - intros _. apply NoDup_singleton.
  - intros [Hk0 Hnd]%NoDup_cons.
    destruct (String.eqb_spec k0 k) as [->|Hne]; simpl.
    + by apply NoDup_cons.
    + apply NoDup_cons. split; [|by apply IH].
      intros [->|Hin]%group_append_key; done.
Qed.

Lemma group_targets_nodup (kept : list slot_data) : NoDup (group_targets kept).*1.
Proof.
  induction kept as [|sd kept IH] using rev_ind; [constructor|].
  rewrite group_targets_snoc. by apply group_append_nodup.
Qed.

Lemma group_of_elem (key : string) (g : list slot_data)
    (ts : list (string * list slot_data)) :
  NoDup ts.*1 → (key, g) ∈ ts → group_of key ts = g.
Proof.
  induction ts as [|[k0 g0] ts IH]; simpl; [by intros _ ?%elem_of_nil|].
  intros [Hk0 Hnd]%NoDup_cons [[= <- <-] | Hin]%elem_of_cons.
  - by rewrite String.eqb_refl.
  - destruct (String.eqb_spec k0 key) as [->|Hne]; [|by apply IH].
    exfalso. apply Hk0. apply list_elem_of_fmap. by exists (key, g).
Qed.

Lemma group_targets_elem (key : string) (g : list slot_data) (kept : list slot_data) :
  (key, g) ∈ group_targets kept → g = List.filter (same_start key) kept.
Proof.
  intros H. rewrite <- group_of_targets. symmetry.
  apply group_of_elem; [apply group_targets_nodup | done].
Qed.

Lemma group_append_concat (k : string) (sd : slot_data)
    (ts : list (string * list slot_data)) :
  concat (group_append k sd ts).*2 ≡ₚ sd :: concat ts.*2.
Proof.
  induction ts as [|[k0 g] ts IH]; simpl; [done|].
  destruct (String.eqb k0 k); simpl.
  - rewrite <- app_assoc. simpl. by rewrite <- Permutation_middle.
  - rewrite IH. by rewrite <- Permutation_middle.
Qed.

Lemma group_targets_concat (kept : list slot_data) :
  concat (group_targets kept).*2 ≡ₚ kept.
Proof.
  induction kept as [|sd kept IH] using rev_ind; [done|].
  rewrite group_targets_snoc, group_append_concat, IH.
  by rewrite <- Permutation_cons_append.
Qed.

Lemma group_contributions_kept (kept : list slot_data) (key : string)
    (g : list slot_data) :
  g = List.filter (same_start key) kept →
  group_contributions g = concat (map (contributions kept) g).
Proof.
  intros Hg.
  assert (∀ y, y ∈ g → group_size kept (start_key y) = length g) as Hsize.
  { intros sd Hsd. rewrite Hg in Hsd. apply list_elem_of_In, List.filter_In in Hsd as [_ Hk].
    unfold same_start in Hk. apply String.eqb_eq in Hk. unfold group_size. by rewrite Hk, <- Hg. }
  destruct g as [|sd [|sd' g']].
  - done.
  - simpl. rewrite app_nil_r. unfold contributions, fanout.
    rewrite (Hsize sd) by (by left). done.
  - clear Hg. unfold group_contributions.
    assert (∀ y, y ∈ sd :: sd' :: g' → contributions kept y = [period_of y]) as Hone.
    { intros x Hx. unfold contributions, fanout. rewrite (Hsize x Hx). done. }
    clear Hsize. induction (sd :: sd' :: g') as [|x l IH]; simpl; [done|].
    rewrite (Hone x) by (by left). simpl. f_equal. apply IH.
    intros y Hy. apply Hone. by right.
Qed.

Lemma groups_contributions_kept (kept : list slot_data) :
  concat (map (λ kg, group_contributions kg.2) (group_targets kept)) ≡ₚ
  concat (map (contributions kept) kept).
Proof.
  assert (∀ ts : list (string * list slot_data),
            (∀ k g, (k, g) ∈ ts → g = List.filter (same_start k) kept) →
            concat (map (λ kg, group_contributions kg.2) ts) =
            concat (map (contributions kept) (concat ts.*2))) as H.
  { induction ts as [|[k g] ts IH]; intros Hts; simpl; [done|].
    rewrite map_app, concat_app. f_equal.
    - apply (group_contributions_kept kept k). apply Hts. by left.
    - apply IH. intros k' g' ?. apply Hts. by right. }
  rewrite H by (intros k g; apply group_targets_elem).
  by rewrite group_targets_concat.
Qed.

Lemma no_partial_in_groups (kept : list slot_data) (k : string) (sd : slot_data) :
  no_partial_booking kept → (k, [sd]) ∈ group_targets kept → ¬ partial_pattern sd.
Proof.
  intros Hnp Hin. pose proof (group_targets_elem _ _ _ Hin) as Hg.
  assert (sd ∈ List.filter (same_start k) kept) as Hsd by (rewrite <- Hg; by left).
  apply list_elem_of_In, List.filter_In in Hsd as [Hsd Hk].
  apply list_elem_of_In in Hsd.
  unfold same_start in Hk. apply String.eqb_eq in Hk.
  apply Hnp; [done|]. unfold group_size. by rewrite Hk, <- Hg.
Qed.

(** *** The availability flag *)

Lemma flag_ok_recorded (sd : slot_data) (c : court) : flag_ok c → flag_ok (recorded sd c).
Proof.
  unfold flag_ok. simpl. intros Hc. rewrite orb_true_iff, Hc, Z.ltb_lt. split.
  - intros [(p & Hp & Hpos) | Hpos].
    + exists p. split; [apply elem_of_app; by left | done].
    + exists (period_of sd). split; [apply elem_of_app; right; by left | done].
  - intros (p & [Hp | ->%list_elem_of_singleton]%elem_of_app & Hpos); [left | right]; eauto.
Qed.

Lemma flag_ok_new (cid : string) : flag_ok (new_court cid).
Proof. unfold flag_ok. simpl. split; [done | by intros (? & ?%elem_of_nil & _)]. Qed.

Lemma flags_record (name cid : string) (sd : slot_data) (ci : gmap string court) :
  map_Forall (λ _, flag_ok) ci → map_Forall (λ _, flag_ok) (record_period name cid sd ci).
Proof.
  intros H. rewrite record_period_spec. apply map_Forall_insert_2; [|done].
  apply flag_ok_recorded. destruct (ci !! name) as [c|] eqn:E; simpl.
  - by apply (H name).
  - apply flag_ok_new.
Qed.

Lemma flags_fold {A} (f : gmap string court → A → gmap string court) (l : list A) :
  (∀ ci x, map_Forall (λ _, flag_ok) ci → map_Forall (λ _, flag_ok) (f ci x)) →
  ∀ ci, map_Forall (λ _, flag_ok) ci → map_Forall (λ _, flag_ok) (fold_left f l ci).
Proof.
  intros Hf. induction l as [|x l IH]; intros ci Hci; simpl; [done|]. apply IH, Hf, Hci.
Qed.

Lemma flags_single (sd : slot_data) (ci : gmap string court) :
  map_Forall (λ _, flag_ok) ci → map_Forall (λ _, flag_ok) (_process_single_slot sd ci).
Proof.
  intros H. unfold _process_single_slot.
  destruct (_ && _).
  - unfold _process_missing_slot. apply map_Forall_insert_2; [|apply map_Forall_empty].
    unfold flag_ok. simpl. split; [|done]. intros _. eexists. split; [by left | done].
  - unfold record_single_slot. destruct (locations_of sd).
    + by apply flags_record.
    + apply flags_fold; [|done]. intros ? ? ?. by apply flags_record.
Qed.

Lemma flags_multiple (group : list slot_data) (ci : gmap string court) :
  map_Forall (λ _, flag_ok) ci →
  map_Forall (λ _, flag_ok) (_process_multiple_court_slots group ci).
Proof.
  apply flags_fold. intros ci' sd H. unfold multiple_slot_step.
  destruct (inferred_court sd). by apply flags_record.
Qed.

Lemma flags_availability (slots : list slot_item) :
  map_Forall (λ _, flag_ok) (get_squash_court_availability slots).
Proof.
  unfold get_squash_court_availability.
  apply flags_fold; [|apply map_Forall_empty].
  intros ci [k g] H. unfold process_group. simpl.
  destruct g as [|sd [|sd' g]]; first [by apply flags_multiple | by apply flags_single].
Qed.

(** C1, amended.  In the map [get_squash_court_availability] returns,
    an entry is available exactly when one of its recorded periods has
    uses left.  When no item that is alone at its start time shows the
    partial-booking pattern, the periods recorded in the map are, as a
    multiset, the kept items' periods: once per item, and once per
    location for an item that is alone at its start time and has
    locations. *)
Theorem contributions_and_flags (feed_items : list slot_item) :
  (∀ name c,
     get_squash_court_availability feed_items !! name = Some c →
     (available c = true ↔ ∃ p, p ∈ slots c ∧ 0 < p_remaining p)) ∧
  (no_partial_booking (targets feed_items) →
     all_periods (get_squash_court_availability feed_items) ≡ₚ
     concat (map (contributions (targets feed_items)) (targets feed_items))).
Proof.
  split.
  - intros name c H. by apply (flags_availability feed_items name c).
  - intros Hnp. unfold get_squash_court_availability.
    rewrite group_by_start_targets.
    rewrite all_periods_groups by (intros k sd; by apply no_partial_in_groups).
    unfold all_periods at 1. rewrite map_to_list_empty. simpl. rewrite app_nil_r.
    apply groups_contributions_kept.
Qed.

Lemma plain_items_no_partial_booking : no_partial_booking (targets plain_items).
Proof.
  intros sd Hin _ [Hrem [(o & rest & Ho & Hpos) _]].
  apply list_elem_of_In in Hin. simpl in Hin.
  destruct Hin as [<-|[<-|[<-|[]]]]; vm_compute in Hrem; try discriminate.
  injection Ho as <- _. vm_compute in Hpos. discriminate.
Qed.

(** C1, witness: three kept items, the third alone at its start time
    with two locations, leave four periods in the map. *)
Lemma plain_items_periods :
  all_periods (get_squash_court_availability plain_items) ≡ₚ
  concat (map (contributions (targets plain_items)) (targets plain_items)).
Proof.
  exact (proj2 (contributions_and_flags plain_items) plain_items_no_partial_booking).
Defined.

(** C1, counterexample: a lone item with two locations is recorded in
    two entries; and after a partial-booking group the only entry is
    available although the one item behind it has no uses left, while
    the item processed before it is in no entry. *)
Lemma one_item_two_entries :
  (∃ sd c1 c2,
     admitted shared_1100 = Some sd ∧
     get_squash_court_availability [shared_1100] =
       <["Squash Court 2" := c2]> {["Squash Court 1" := c1]} ∧
     slots c1 = [period_of sd] ∧ slots c2 = [period_of sd]) ∧
  (∃ sd sd',
     admitted free_court_0920 = Some sd ∧
     admitted half_booked_1000 = Some sd' ∧
     remaining_of sd = 1 ∧ remaining_of sd' = 0 ∧
     get_squash_court_availability [free_court_0920; half_booked_1000] =
       {["Available Courts" := synthetic_court sd']} ∧
     available (synthetic_court sd') = true ∧
     period_of sd ∉ slots (synthetic_court sd')).
Proof.
  split.
  - eexists _, _, _. split; [reflexivity|]. split; [vm_compute; reflexivity|].
    split; reflexivity.
  - eexists _, _. split; [reflexivity|]. split; [reflexivity|].
    split; [reflexivity|]. split; [reflexivity|].
    split; [vm_compute; reflexivity|]. split; [reflexivity|].
    intros H. apply list_elem_of_In in H. vm_compute in H. by destruct H as [H | []].
Qed.

(** ** Python strings and the two membership tests *)

Lemma append_nil (s : string) : "" +:+ s = s.
Proof. reflexivity. Qed.

Lemma append_cons (c : ascii) (s t : string) : String c s +:+ t = String c (s +:+ t).
Proof. reflexivity. Qed.

Ltac unfold_append := rewrite ?append_cons, ?append_nil in *.

Lemma prefix_iff (p s : string) : String.prefix p s = true ↔ ∃ post, s = p +:+ post.
Proof.
  revert s. induction p as [|c p IH]; intros s.
  - split; [intros _; by exists s | by destruct s].
  - destruct s as [|d s]; simpl.
    + split; [done | intros [post H]; done].
    + destruct (Ascii.ascii_dec c d) as [->|Hne].
      * rewrite IH. split; intros [post H]; exists post; unfold_append; congruence.
      * split; [done | intros [post H]; unfold_append; congruence].
Qed.

Lemma str_in_nil (needle : string) : Py.str_in needle "" = String.prefix needle "".
Proof. simpl. apply orb_false_r. Qed.

Lemma str_in_cons (needle : string) (c : ascii) (hay : string) :
  Py.str_in needle (String c hay) =
  String.prefix needle (String c hay) || Py.str_in needle hay.
Proof. reflexivity. Qed.

Lemma str_in_iff (needle hay : string) :
  Py.str_in needle hay = true ↔ ∃ pre post, hay = pre +:+ needle +:+ post.
Proof.
  induction hay as [|c hay IH].
  - rewrite str_in_nil, prefix_iff. split.
    + intros [post H]. by exists "", post.
    + intros (pre & post & H). destruct pre; [by exists post | done].
  - rewrite str_in_cons, orb_true_iff, prefix_iff, IH. split.
    + intros [[post H] | (pre & post & H)].
      * by exists "", post.
      * exists (String c pre), post. unfold_append. by rewrite H.
    + intros (pre & post & H). destruct pre as [|d pre]; unfold_append.
      * left. by exists post.
      * right. injection H as -> ->. by exists pre, post.
Qed.

Lemma str_in_char (sep c : ascii) (s : string) :
  Py.str_in (String sep "") (String c s) =
  Ascii.eqb c sep || Py.str_in (String sep "") s.
Proof.
  rewrite str_in_cons. f_equal. simpl.
  destruct (Ascii.ascii_dec sep c) as [->|Hne].
  - rewrite Ascii.eqb_refl. by destruct s.
  - symmetry. apply Ascii.eqb_neq. congruence.
Qed.

Lemma split_nonempty (sep : ascii) (s : string) : Py.split sep s ≠ [].
Proof.
  destruct s as [|c s]; simpl; [done|].
  destruct (Ascii.eqb c sep); [done|]. by destruct (Py.split sep s).
Qed.

Lemma split_no_sep (sep : ascii) (s : string) :
  Py.str_in (String sep "") s = false → Py.split sep s = [s].
Proof.
  induction s as [|c s IH]; [done|].
  rewrite str_in_char. intros [Hc Hs]%orb_false_iff.
  simpl. rewrite Hc, IH by done. done.
Qed.

Lemma split_with_sep (sep : ascii) (s : string) :
  Py.str_in (String sep "") s = true →
  ∃ h t, Py.split sep s = h :: t ∧ t ≠ [].
Proof.
  induction s as [|c s IH]; [done|].
  rewrite str_in_char. simpl. destruct (Ascii.eqb c sep); simpl.
  - intros _. exists "", (Py.split sep s). split; [done | apply split_nonempty].
  - intros (h & t & -> & Ht)%IH. by exists (String c h), t.
Qed.

Lemma last_segment_cons (x : string) (l : list string) :
  l ≠ [] → Py.last_segment (x :: l) = Py.last_segment l.
Proof. by destruct l. Qed.

Lemma last_segment_split_cons (sep c : ascii) (s : string) :
  Py.str_in (String sep "") s = true →
  Py.last_segment (Py.split sep (String c s)) = Py.last_segment (Py.split sep s).
Proof.
  intros (h & t & E & Ht)%split_with_sep. simpl. rewrite E.
  destruct (Ascii.eqb c sep).
  - by apply last_segment_cons.
  - rewrite !last_segment_cons; done.
Qed.

Lemma last_segment_split_app (sep : ascii) (pre x : string) :
  Py.last_segment (Py.split sep (pre +:+ String sep x)) = Py.last_segment (Py.split sep x).
Proof.
  induction pre as [|c pre IH]; unfold_append.
  - simpl. rewrite Ascii.eqb_refl. apply last_segment_cons, split_nonempty.
  - rewrite last_segment_split_cons; [done|].
    apply str_in_iff. by exists pre, x.
Qed.

(** A string with a separator ends in its last segment, after a separator. *)
Lemma split_last_decompose (sep : ascii) (s : string) :
  Py.str_in (String sep "") s = true →
  ∃ pre, s = pre +:+ String sep (Py.last_segment (Py.split sep s)).
Proof.
  induction s as [|c s IH]; [done|].
  destruct (Py.str_in (String sep "") s) eqn:Hs.
  - intros _. destruct (IH eq_refl) as (pre & Hpre).
    rewrite last_segment_split_cons by done.
    exists (String c pre). unfold_append. by rewrite <- Hpre.
  - rewrite str_in_char, Hs, orb_false_r. intros ->%Ascii.eqb_eq.
    exists "". simpl. rewrite Ascii.eqb_refl, split_no_sep by done. done.
Qed.

Lemma facility_id_of_iff (facility_use ident : string) :
  Py.str_in "/" ident = false →
  facility_id_of facility_use = ident ↔
  facility_use = ident ∨ ∃ pre, facility_use = pre +:+ "/" +:+ ident.
Proof.
  intros Hid. unfold facility_id_of.
  destruct (Py.str_in "/" facility_use) eqn:Hin.
  - split.
    + intros <-. right. destruct (split_last_decompose _ _ Hin) as (pre & H). eauto.
    + intros [-> | [pre ->]]; [congruence|].
      change ("/" +:+ ident) with (String "/" ident).
      rewrite last_segment_split_app, split_no_sep by done. done.
  - split; [auto|]. intros [-> | [pre ->]]; [done|].
    exfalso. apply not_true_iff_false in Hin. apply Hin, str_in_iff.
    by exists pre, ident.
Qed.

Lemma is_squash_iff (facility_use : string) :
  is_squash facility_use = true ↔
  ∃ pre post, facility_use = pre +:+ "041A000005" +:+ post.
Proof.
  unfold is_squash, squash_facility_ids. simpl. rewrite orb_false_r. apply str_in_iff.
Qed.

Lemma admitted_iff (slot_item : slot_item) (sd : slot_data) :
  admitted slot_item = Some sd ↔
  get_data slot_item = Some sd ∧
  (default "" (sd_facilityUse sd) = "041A000005" ∨
   ∃ pre, default "" (sd_facilityUse sd) = pre +:+ "/" +:+ "041A000005").
Proof.
  unfold admitted. rewrite <- facility_id_of_iff by done.
  destruct (get_data slot_item) as [sd'|]; [|by split; [|intros [? _]]].
  unfold Py.list_in, squash_facility_ids. simpl. rewrite orb_false_r.
  destruct (String.eqb_spec (facility_id_of (default "" (sd_facilityUse sd'))) "041A000005")
    as [Heq|Hne]; split.
  - by intros [= <-].
  - by intros [[= <-] _].
  - done.
  - intros [[= <-] Hid]. done.
Qed.

Lemma group_step_skip (ts : list (string * list slot_data)) (slot_item : slot_item) :
  admitted slot_item = None → group_step ts slot_item = ts.
Proof. unfold group_step. by intros ->. Qed.

Lemma availability_skips (before after : list slot_item) (slot_item : slot_item) :
  admitted slot_item = None →
  get_squash_court_availability (before ++ slot_item :: after) =
  get_squash_court_availability (before ++ after).
Proof.
  intros H. unfold get_squash_court_availability, group_by_start.
  rewrite !fold_left_app. simpl. by rewrite group_step_skip.
Qed.

(** C9.  The filter keeps an item when "041A000005" occurs anywhere in
    its [facilityUse]; the aggregation keeps it only when "041A000005"
    is the whole [facilityUse] or what follows its last "/".  An item
    with the id in an inner segment passes the filter, is not kept by
    the aggregation and adds nothing to the map; an item that is not
    kept never changes the map. *)
Theorem membership_tests_differ :
  (∀ facility_use : string,
     is_squash facility_use = true ↔
     ∃ pre post, facility_use = pre +:+ "041A000005" +:+ post) ∧
  (∀ (slot_item : slot_item) (sd : slot_data),
     admitted slot_item = Some sd ↔
     get_data slot_item = Some sd ∧
     (default "" (sd_facilityUse sd) = "041A000005" ∨
      ∃ pre, default "" (sd_facilityUse sd) = pre +:+ "/" +:+ "041A000005")) ∧
  (filter_squash_slots_by_time iso_basic [misfiled_item] "2026-02-03" "10:00" "10:40"
     = Ret [misfiled_item] ∧
   admitted misfiled_item = None ∧
   get_squash_court_availability [misfiled_item] = ∅) ∧
  (∀ (before after : list slot_item) (slot_item : slot_item),
     admitted slot_item = None →
     get_squash_court_availability (before ++ slot_item :: after) =
     get_squash_court_availability (before ++ after)).
Proof.
  split; [apply is_squash_iff|].
  split; [apply admitted_iff|].
  split; [|apply availability_skips].
  split; [vm_compute; reflexivity|]. split; vm_compute; reflexivity.
Qed.

(** ** Pagination *)

Lemma url_or_base_some (next : string) : next ≠ "" → url_or_base (Some next) = next.
Proof.
  intros H. unfold url_or_base, Py.str_or, Py.truthy. simpl.
  by destruct (String.eqb_spec next "").
Qed.

Lemma url_or_base_nonempty (u : option string) : url_or_base u ≠ "".
Proof.
  unfold url_or_base, Py.str_or, Py.truthy.
  destruct (String.eqb_spec (default "" u) ""); simpl; done.
Qed.

(** The two tests that end the loop on a page never compete: a page that
    passes the last-page test has a non-empty [next]. *)
Lemma last_page_has_next (data : page) (next_url : option string) :
  no_items data && bool_decide (pg_next data = Some (url_or_base next_url)) = true →
  Py.truthy (default "" (pg_next data)) = true.
Proof.
  intros [_ H%bool_decide_eq_true]%andb_true_iff. rewrite H. simpl.
  unfold Py.truthy. apply negb_true_iff, String.eqb_neq, url_or_base_nonempty.
Qed.

Lemma fetch_loop_serves (w : feed) (pages : list (list slot_item)) :
  ∀ (k : nat) (next_url : option string) (acc : list slot_item) (fuel : nat),
    serves w k (url_or_base next_url) pages →
    (k + length pages ≤ 1000)%nat →
    (length pages < fuel)%nat →
    fetch_loop fuel w acc next_url k =
    Ret {| all_slots := acc ++ concat pages;
           page_count := S (k + length pages);
           stopped := LastPage; printed := [] |}.
Proof.
  induction pages as [|items rest IH]; intros k next_url acc fuel Hs Hk Hfuel;
    (destruct fuel as [|fuel]; [simpl in Hfuel; lia|]);
    inversion Hs as [? ? Hw | ? ? ? next ? Hw Hnext Hmore Hrest]; subst; simpl;
    unfold fetch_slots; rewrite Hw; simpl.
  - rewrite bool_decide_eq_true_2 by done. simpl.
    rewrite !app_nil_r. do 3 f_equal. lia.
  - assert (no_items {| pg_items := Some items; pg_next := Some next |}
            && bool_decide (Some next = Some (url_or_base next_url)) = false) as ->.
    { apply andb_false_iff. destruct items; [right | by left].
      apply bool_decide_eq_false_2. intros [= E]. by apply Hmore. }
    unfold Py.truthy. rewrite (proj2 (String.eqb_neq next "")) by done. simpl.
    simpl in Hk, Hfuel.
    destruct (Nat.ltb_spec 1000 (S k)) as [?|_]; [lia|].
    rewrite (IH (S k) (Some next)); [| by rewrite url_or_base_some | lia | lia].
    rewrite <- app_assoc. do 2 f_equal. lia.
Qed.

Lemma fetch_loop_has_fuel (w : feed) (fuel : nat) :
  ∀ (k : nat) (next_url : option string) (acc : list slot_item),
    (1001 ≤ fuel + k)%nat → (k ≤ 1000)%nat →
    fetch_loop fuel w acc next_url k ≠ OutOfFuel.
Proof.
  induction fuel as [|fuel IH]; intros k next_url acc Hfuel Hk; [lia|].
  simpl. destruct (fetch_slots w k next_url) as [data| |]eqn:Hdata; simpl; [|done|].
  - destruct (no_items data && _); [done|].
    destruct (negb _); [done|].
    destruct (Nat.ltb_spec 1000 (S k)); [done|]. apply IH; lia.
  - unfold fetch_slots in Hdata. destruct (w k _) as [|e]; [done|].
    by destruct (is_RequestException e).
Qed.

Lemma fetch_loop_answers (w : feed) (fuel : nat) :
  answers w →
  ∀ (k : nat) (next_url : option string) (acc : list slot_item),
    (1001 ≤ fuel + k)%nat → (k ≤ 1000)%nat →
    ∃ r, fetch_loop fuel w acc next_url k = Ret r ∧
         (k < page_count r ≤ 1001)%nat ∧
         all_slots r = acc ++ accumulated w k next_url (page_count r - k) ∧
         (stopped r = PageCeiling →
            page_count r = 1001%nat ∧ printed r = [ceiling_warning 1001]) ∧
         (never_ends w → stopped r = PageCeiling).
Proof.
  intros Hw. induction fuel as [|fuel IH]; intros k next_url acc Hfuel Hk; [lia|].
  simpl. unfold fetch_slots.
  destruct (Hw k (url_or_base next_url)) as [data Hdata]. rewrite Hdata. simpl.
  assert (accumulated w k next_url 1 = default [] (pg_items data)) as Hone.
  { simpl. rewrite Hdata. apply app_nil_r. }
  assert (acc ++ default [] (pg_items data) =
          match pg_items data with Some items => acc ++ items | None => acc end) as Hacc.
  { destruct (pg_items data); simpl; [done | apply app_nil_r]. }
  destruct (no_items data && _) eqn:Hlast; [|destruct (negb _) eqn:Hnext];
    [| |destruct (Nat.ltb_spec 1000 (S k)) as [Hc|Hc]].
  - eexists. split; [done|]. simpl.
    replace (S k - k)%nat with 1%nat by lia. rewrite Hone, Hacc.
    repeat split; try done; try lia.
    intros Hne. destruct (Hne k (url_or_base next_url)) as (p & next & Hp & Hn & _ & Hfresh).
    rewrite Hdata in Hp. injection Hp as <-.
    apply andb_true_iff in Hlast as [_ Hl]. apply bool_decide_eq_true in Hl. congruence.
  - eexists. split; [done|]. simpl.
    replace (S k - k)%nat with 1%nat by lia. rewrite Hone, Hacc.
    repeat split; try done; try lia.
    intros Hne. destruct (Hne k (url_or_base next_url)) as (p & next & Hp & Hn & Hnonempty & _).
    rewrite Hdata in Hp. injection Hp as <-. rewrite Hn in Hnext. simpl in Hnext.
    apply negb_true_iff in Hnext. unfold Py.truthy in Hnext.
    apply negb_false_iff, String.eqb_eq in Hnext. done.
  - eexists. split; [done|]. simpl.
    replace (S k - k)%nat with 1%nat by lia. rewrite Hone, Hacc.
    assert (S k = 1001%nat) as -> by lia.
    repeat split; try done; try lia.
  - destruct (IH (S k) (pg_next data)
                (match pg_items data with Some items => acc ++ items | None => acc end))
      as (r & Hr & Hpc & Hall & Hceil & Hne); [lia | lia |].
    exists r. split; [done|]. split; [lia|]. split; [|done].
    rewrite Hall, <- Hacc, <- app_assoc. f_equal.
    replace (page_count r - k)%nat with (S (page_count r - S k)) by lia.
    simpl. by rewrite Hdata.
Qed.

(** C5, amended.  When the feed serves at most 1000 non-terminal pages,
    each with a [next] URL that leads to the following page, and then a
    terminal page (no items, [next] equal to the URL just requested),
    [fetch_all_slots] stops at the terminal page, by the last-page test,
    and returns the concatenation of the non-terminal pages' items in
    arrival order. *)
Theorem fetch_all_slots_follows_pages (w : feed) (pages : list (list slot_item))
    (fuel : nat) :
  serves w 0 BASE_URL pages →
  (length pages ≤ 1000)%nat →
  (length pages < fuel)%nat →
  fetch_all_slots fuel w =
  Ret {| all_slots := concat pages; page_count := S (length pages);
         stopped := LastPage; printed := [] |}.
Proof.
  intros Hs Hlen Hfuel. unfold fetch_all_slots.
  rewrite (fetch_loop_serves w pages 0 None [] fuel); [done | done | lia | done].
Qed.

Lemma two_page_feed_serves :
  serves two_page_feed 0 BASE_URL [[numbered_item 0]; [numbered_item 1]].
Proof.
  apply serves_next with (next := BASE_URL +:+ "?afterTimestamp=1");
    [reflexivity | by vm_compute | by intros [? _] |].
  apply serves_next with (next := BASE_URL +:+ "?afterTimestamp=2");
    [reflexivity | by vm_compute | by intros [? _] |].
  by apply serves_last.
Qed.

(** C5, witness: two pages and the terminal page. *)
Lemma two_page_feed_is_followed :
  fetch_all_slots 3 two_page_feed =
  Ret {| all_slots := [numbered_item 0; numbered_item 1]; page_count := 3;
         stopped := LastPage; printed := [] |}.
Proof.
  apply (fetch_all_slots_follows_pages two_page_feed
           [[numbered_item 0]; [numbered_item 1]] 3 two_page_feed_serves);
    simpl; lia.
Defined.

Lemma long_feed_serves (n k : nat) (url : string) :
  (k + n = 1002)%nat →
  serves long_feed k url (map (λ k, [numbered_item k]) (seq k n)).
Proof.
  revert k url. induction n as [|n IH]; intros k url Hk; simpl.
  - apply serves_last. unfold long_feed.
    destruct (Nat.ltb_spec k 1002); [lia | done].
  - apply serves_next with (next := BASE_URL +:+ "?afterTimestamp=n").
    + unfold long_feed. destruct (Nat.ltb_spec k 1002); [done | lia].
    + by vm_compute.
    + by intros [? _].
    + apply IH. lia.
Qed.

(** C5, counterexample: after 1002 non-terminal pages of one item each
    the loop has stopped at the page ceiling, with 1001 of the 1002
    items. *)
Lemma long_feed_is_cut_short :
  serves long_feed 0 BASE_URL long_pages ∧
  fetch_all_slots 2000 long_feed =
    Ret {| all_slots := concat (take 1001 long_pages); page_count := 1001;
           stopped := PageCeiling; printed := [ceiling_warning 1001] |} ∧
  concat (take 1001 long_pages) ≠ concat long_pages.
Proof.
  split; [by apply long_feed_serves|].
  split; [vm_compute; reflexivity|].
  intros H. apply (f_equal length) in H. vm_compute in H. discriminate.
Qed.

Lemma append_plus_fresh (url : string) : url +:+ "+" ≠ url.
Proof. induction url as [|c url IH]; unfold_append; [done | congruence]. Qed.

Lemma append_plus_nonempty (url : string) : url +:+ "+" ≠ "".
Proof. by destruct url. Qed.

Lemma endless_feed_never_ends : never_ends endless_feed.
Proof.
  intros k url. eexists _, _. split; [reflexivity|]. split; [reflexivity|].
  split; [apply append_plus_nonempty | apply append_plus_fresh].
Qed.

Lemma never_ends_answers (w : feed) : never_ends w → answers w.
Proof. intros H k url. destruct (H k url) as (p & _ & Hp & _). eauto. Qed.

(** C6.  With fuel for more than 1000 iterations the loop of
    [fetch_all_slots] never runs out of it.  On a feed that answers
    every request it returns after at most 1001 pages what it has
    accumulated; on a feed none of whose pages is a last page it returns
    the items of the first 1001 pages and prints the warning. *)
Theorem fetch_all_slots_terminates (w : feed) (fuel : nat) :
  (1000 < fuel)%nat →
  fetch_all_slots fuel w ≠ OutOfFuel ∧
  (answers w →
     ∃ r, fetch_all_slots fuel w = Ret r ∧
          (page_count r ≤ 1001)%nat ∧
          all_slots r = accumulated w 0 None (page_count r) ∧
          (stopped r = PageCeiling →
             page_count r = 1001%nat ∧ printed r = [ceiling_warning 1001])) ∧
  (never_ends w →
     fetch_all_slots fuel w =
     Ret {| all_slots := accumulated w 0 None 1001; page_count := 1001;
            stopped := PageCeiling; printed := [ceiling_warning 1001] |}).
Proof.
  intros Hfuel. unfold fetch_all_slots.
  split; [apply fetch_loop_has_fuel; lia|]. split.
  - intros Hw.
    destruct (fetch_loop_answers w fuel Hw 0 None []) as (r & Hr & Hpc & Hall & Hceil & _);
      [lia | lia |].
    exists r. rewrite Nat.sub_0_r in Hall.
    split; [done|]. split; [lia|]. by split.
  - intros Hne.
    destruct (fetch_loop_answers w fuel (never_ends_answers w Hne) 0 None [])
      as (r & Hr & Hpc & Hall & Hceil & Hstop); [lia | lia |].
    specialize (Hstop Hne). destruct (Hceil Hstop) as [Hcount Hprinted].
    rewrite Hr. rewrite Nat.sub_0_r in Hall. destruct r; simpl in *. by subst.
Qed.

(** C6, witness: the feed that always has one more page. *)
Lemma endless_feed_is_cut_short :
  (1000 < 1001)%nat ∧
  fetch_all_slots 1001 endless_feed =
  Ret {| all_slots := accumulated endless_feed 0 None 1001; page_count := 1001;
         stopped := PageCeiling; printed := [ceiling_warning 1001] |}.
Proof.
  assert (1000 < 1001)%nat as H by lia.
  split; [exact H|].
  exact (proj2 (proj2 (fetch_all_slots_terminates endless_feed 1001 H))
           endless_feed_never_ends).
Defined.

(** ** The overlap test *)

Lemma lt_comparable (a b : datetime) :
  aware a = aware b → Datetime.lt a b = Ret (instant a <? instant b).
Proof. unfold Datetime.lt. intros ->. by rewrite eqb_reflx. Qed.

Lemma time_overlaps_decided (a b c d : datetime) :
  aware a = aware d → aware b = aware c →
  time_overlaps a b c d =
  Ret (bool_decide (instant a < instant d ∧ instant b > instant c)).
Proof.
  intros Had Hbc.
  unfold time_overlaps, Datetime.gt. rewrite (lt_comparable a d Had). simpl.
  destruct (Z.ltb_spec (instant a) (instant d)) as [H1|H1].
  - rewrite (lt_comparable c b) by done.
    destruct (Z.ltb_spec (instant c) (instant b)) as [H2|H2].
    + rewrite bool_decide_eq_true_2; [done | lia].
    + rewrite bool_decide_eq_false_2; [done | lia].
  - rewrite bool_decide_eq_false_2; [done | lia].
Qed.

(** C7.  [time_overlaps] is the strict half-open overlap test: for
    endpoints that can be compared (all offset-aware or all naive) it
    returns true exactly when [a < d] and [b > c]; it returns false when
    the first interval ends no later than the second begins, and when an
    endpoint of one interval equals the opposite endpoint of the other. *)
Theorem time_overlaps_half_open (a b c d : datetime) :
  aware a = aware d → aware b = aware c →
  (time_overlaps a b c d = Ret true ↔ instant a < instant d ∧ instant b > instant c) ∧
  (time_overlaps a b c d = Ret false ↔ ¬ (instant a < instant d ∧ instant b > instant c)) ∧
  (instant b ≤ instant c → time_overlaps a b c d = Ret false) ∧
  (instant b = instant c ∨ instant a = instant d → time_overlaps a b c d = Ret false).
Proof.
  intros Had Hbc. rewrite (time_overlaps_decided a b c d Had Hbc).
  case_bool_decide as H.
  - split; [done|]. split; [split; [done | tauto]|]. split; intros; lia.
  - split; [split; [done | tauto]|]. done.
Qed.

(** C7, witness: the slot from 09:20 to 10:00 does not overlap the
    window from 10:00 to 10:40. *)
Lemma adjacent_slots_do_not_overlap :
  time_overlaps nine_twenty ten_o_clock ten_o_clock ten_forty = Ret false.
Proof.
  apply (time_overlaps_half_open nine_twenty ten_o_clock ten_o_clock ten_forty);
    [reflexivity | reflexivity | left; reflexivity].
Defined.

(** ** Clock arithmetic *)

Lemma strftime_HM_add (o t n : Z) (tz : option Z) :
  strftime_HM (add_minutes {| ordinal := o; micros := t * us_per_minute; tzinfo := tz |} n)
  = clock (t + n).
Proof.
  unfold strftime_HM, add_minutes, clock. simpl.
  replace (t * us_per_minute + n * us_per_minute) with ((t + n) * us_per_minute) by lia.
  change us_per_day with (1440 * us_per_minute).
  rewrite Z.mul_mod_distr_r by done.
  rewrite Z.div_mul by done. done.
Qed.

Lemma window_bounds_spec (start_time : string) (t : Z) :
  strptime_HM start_time = Some t →
  window_bounds start_time = Ret (window_pair start_time t).
Proof.
  intros H. unfold window_bounds, strptime_time. rewrite H. simpl.
  by rewrite !strftime_HM_add.
Qed.

Lemma clock_table :
  forallb (λ n, bool_decide (strptime_HM (clock (Z.of_nat n)) = Some (Z.of_nat n)))
    (seq 0 1440) = true.
Proof. vm_compute. reflexivity. Qed.

Lemma clock_parses (m : Z) : strptime_HM (clock m) = Some (m `mod` 1440).
Proof.
  assert (0 ≤ m `mod` 1440 < 1440) as Hr by (apply Z.mod_pos_bound; lia).
  assert (clock m = clock (m `mod` 1440)) as ->.
  { unfold clock. by rewrite Z.mod_mod. }
  pose proof clock_table as Ht. rewrite forallb_forall in Ht.
  specialize (Ht (Z.to_nat (m `mod` 1440))).
  rewrite Z2Nat.id in Ht by lia.
  apply bool_decide_eq_true in Ht; [done|].
  apply in_seq. lia.
Qed.

Lemma digit_range (c : ascii) (x : Z) : digit c = Some x → 0 ≤ x ≤ 9.
Proof.
  unfold digit. destruct (_ && _) eqn:H; [|done]. intros [= <-].
  apply andb_true_iff in H as [H1 H2]. lia.
Qed.

Lemma number12_range (s : string) (n : Z) (rest : string) :
  number12 s = Some (n, rest) → 0 ≤ n.
Proof.
  unfold number12.
  destruct s as [|a s']; [done|].
  destruct (digit a) as [x|] eqn:Ha; [|done]. apply digit_range in Ha.
  destruct s' as [|b s'']; [intros ?; simplify_eq; lia|].
  destruct (digit b) as [y|] eqn:Hb; [apply digit_range in Hb|];
    intros ?; simplify_eq; lia.
Qed.

Lemma strptime_HM_range (s : string) (t : Z) : strptime_HM s = Some t → 0 ≤ t < 1440.
Proof.
  unfold strptime_HM.
  destruct (number12 s) as [[h s1]|] eqn:Hh; simpl; [|done].
  destruct (expect ":" s1) as [s2|]; simpl; [|done].
  destruct (number12 s2) as [[m s3]|] eqn:Hm; simpl; [|done].
  apply number12_range in Hh, Hm.
  destruct (_ && _) eqn:Hc; [|done]. intros [= <-].
  apply andb_true_iff in Hc as [[H1 H2]%andb_true_iff _]. lia.
Qed.

(** ** Dates that parse *)

Lemma digit_not_space (c : ascii) : is_Some (digit c) → is_space c = false.
Proof.
  unfold digit, is_space. intros [x H].
  destruct ((48 <=? _) && _) eqn:E; [|done].
  apply andb_true_iff in E as [E1 E2].
  apply orb_false_iff. split; apply andb_false_iff; lia.
Qed.

Lemma rstrip_ends_in_digit (s : string) : ends_in_digit s → rstrip s = s.
Proof.
  induction s as [|c s IH]; [done|].
  destruct s as [|c' s'].
  - simpl. intros H. by rewrite digit_not_space.
  - intros H. change (ends_in_digit (String c' s')) in H.
    change (rstrip (String c (String c' s'))) with
      (match rstrip (String c' s') with
       | EmptyString => if is_space c then EmptyString else String c EmptyString
       | r => String c r
       end).
    by rewrite IH.
Qed.

Lemma ends_in_digit_cons (c : ascii) (s : string) :
  ends_in_digit s → ends_in_digit (String c s).
Proof. by destruct s. Qed.

Lemma number12_leaves (s : string) (n : Z) (rest : string) :
  number12 s = Some (n, rest) → leaves s rest.
Proof.
  unfold number12. destruct s as [|a s']; [done|].
  destruct (digit a) as [x|] eqn:Ha; [|done].
  destruct s' as [|b s''].
  - intros ?; simplify_eq. split; [intros _; simpl; eauto | done].
  - destruct (digit b) as [y|] eqn:Hb; intros ?; simplify_eq.
    + split.
      * intros ->. simpl. eauto.
      * intros H. by do 2 apply ends_in_digit_cons.
    + split; [done|]. intros H. by apply ends_in_digit_cons.
Qed.

Lemma number2_leaves (s : string) (n : Z) (rest : string) :
  number2 s = Some (n, rest) → leaves s rest.
Proof.
  unfold number2. destruct s as [|a [|b s'']]; try done.
  destruct (digit a) as [x|] eqn:Ha; [|done].
  destruct (digit b) as [y|] eqn:Hb; [|done]. simpl.
  intros ?; simplify_eq. split.
  - intros ->. simpl. eauto.
  - intros H. by do 2 apply ends_in_digit_cons.
Qed.

Lemma expect_leaves (c : ascii) (s rest : string) :
  expect c s = Some rest → rest ≠ "" → leaves s rest.
Proof.
  unfold expect. destruct s as [|a s']; [done|].
  destruct (Ascii.eqb a c); [|done]. intros [= ->] Hne.
  split; [done|]. apply ends_in_digit_cons.
Qed.

Lemma number12_some_nonempty (s : string) : is_Some (number12 s) → s ≠ "".
Proof. by destruct s; [intros [? ?]|]. Qed.

Lemma day_field_leaves (s : string) (n : Z) (rest : string) :
  day_field s = Some (n, rest) → leaves s rest ∧ s ≠ "".
Proof.
  unfold day_field. intros H.
  assert (s ≠ "") as Hne by (by destruct s).
  split; [|done].
  destruct s as [|a s']; [done|].
  destruct (Ascii.ascii_dec a " ") as [->|Ha].
  - destruct s' as [|b s'']; [done|].
    destruct (digit b) as [y|] eqn:Hb; simpl in H; [|done]. simplify_eq.
    split; [intros ->; simpl; eauto | intros ?; by do 2 apply ends_in_digit_cons].
  - apply (number12_leaves _ n). rewrite <- H.
    destruct a as [[] [] [] [] [] [] [] []]; done.
Qed.

Lemma strptime_Ymd_ends_in_digit (s : string) (o : Z) :
  strptime_Ymd s = Some o → ends_in_digit s.
Proof.
  unfold strptime_Ymd, number4.
  destruct (number2 s) as [[hi r0]|] eqn:H0; simpl; [|done].
  destruct (number2 r0) as [[lo s1]|] eqn:H1; simpl; [|done].
  destruct (expect "-" s1) as [s2|] eqn:H2; simpl; [|done].
  destruct (number12 s2) as [[m s3]|] eqn:H3; simpl; [|done].
  destruct (expect "-" s3) as [s4|] eqn:H4; simpl; [|done].
  destruct (day_field s4) as [[d s5]|] eqn:H5; simpl; [|done].
  destruct (_ && String.eqb s5 "") eqn:Hc; [|done]. intros _.
  apply andb_true_iff in Hc as [_ ->%String.eqb_eq].
  apply day_field_leaves in H5 as [[H5 _] Hs4]. specialize (H5 eq_refl).
  assert (s2 ≠ "") as Hs2 by (apply number12_some_nonempty; by rewrite H3).
  assert (r0 ≠ "") as Hr0 by (intros ->; done).
  assert (s1 ≠ "") as Hs1 by (intros ->; done).
  assert (s3 ≠ "") as Hs3 by (intros ->; done).
  apply (expect_leaves _ _ _ H4 Hs4) in H5.
  apply (number12_leaves _ _ _ H3) in H5.
  apply (expect_leaves _ _ _ H2 Hs2) in H5.
  apply (number2_leaves _ _ _ H1) in H5.
  by apply (number2_leaves _ _ _ H0) in H5.
Qed.

Lemma parse_datetime_clock (date : string) (d m : Z) :
  strptime_Ymd date = Some d →
  parse_datetime date (clock m) = Ret (at_minute d (m `mod` 1440)).
Proof.
  intros H. unfold parse_datetime, strptime_date_time.
  rewrite (rstrip_ends_in_digit date) by (by eapply strptime_Ymd_ends_in_digit).
  rewrite H, clock_parses. done.
Qed.

Lemma parse_datetime_start (date start_time : string) (d t : Z) :
  strptime_Ymd date = Some d → strptime_HM start_time = Some t →
  parse_datetime date start_time = Ret (at_minute d t).
Proof.
  intros H Ht. unfold parse_datetime, strptime_date_time.
  rewrite (rstrip_ends_in_digit date) by (by eapply strptime_Ymd_ends_in_digit).
  rewrite H, Ht. done.
Qed.

Lemma number2_range (s : string) (n : Z) (rest : string) :
  number2 s = Some (n, rest) → 0 ≤ n ≤ 99.
Proof.
  unfold number2. destruct s as [|a [|b s'']]; try done.
  destruct (digit a) as [x|] eqn:Ha; [|done].
  destruct (digit b) as [y|] eqn:Hb; [|done]. simpl.
  apply digit_range in Ha, Hb. intros ?; simplify_eq. lia.
Qed.

Lemma ordinal_of_ymd_range (y m d : Z) :
  1 ≤ y ≤ 9999 → 1 ≤ m ≤ 12 → 1 ≤ d ≤ days_in_month y m →
  1 ≤ ordinal_of_ymd y m d ≤ max_ordinal.
Proof.
  intros Hy Hm Hd. unfold ordinal_of_ymd, max_ordinal.
  assert (m = 1 ∨ m = 2 ∨ m = 3 ∨ m = 4 ∨ m = 5 ∨ m = 6 ∨ m = 7 ∨ m = 8 ∨
          m = 9 ∨ m = 10 ∨ m = 11 ∨ m = 12) as Hcases by lia.
  assert (days_in_month y m ≤ 31) as Hdim.
  { unfold days_in_month. repeat case_match; lia. }
  destruct Hcases as [->|[->|[->|[->|[->|[->|[->|[->|[->|[->|[->| ->]]]]]]]]]]];
    simpl; Z.div_mod_to_equations; lia.
Qed.

Lemma strptime_Ymd_range (s : string) (o : Z) :
  strptime_Ymd s = Some o → 1 ≤ o ≤ max_ordinal.
Proof.
  unfold strptime_Ymd, number4.
  destruct (number2 s) as [[hi r0]|] eqn:H0; simpl; [|done].
  destruct (number2 r0) as [[lo s1]|] eqn:H1; simpl; [|done].
  destruct (expect "-" s1) as [s2|]; simpl; [|done].
  destruct (number12 s2) as [[m s3]|]; simpl; [|done].
  destruct (expect "-" s3) as [s4|]; simpl; [|done].
  destruct (day_field s4) as [[d s5]|]; simpl; [|done].
  destruct (_ && String.eqb s5 "") eqn:Hc; [|done]. intros [= <-].
  apply number2_range in H0, H1.
  repeat (apply andb_true_iff in Hc as [Hc ?]).
  apply ordinal_of_ymd_range; lia.
Qed.

(** ** The filter's loop *)

Section FilterLoop.

Variable fromisoformat : string → option datetime.
Variable aw : bool.

Lemma filter_step_skip (st : filter_state) (slot_item : slot_item) :
  squash_timestamps fromisoformat slot_item = None →
  filter_step fromisoformat st slot_item = Ret st.
Proof.
  unfold squash_timestamps, filter_step.
  destruct (get_data slot_item) as [sd|]; simpl; [|done].
  destruct (is_squash _); simpl; [|done].
  destruct (parse_timestamp _ (sd_startDate sd)); simpl; [|done].
  by destruct (parse_timestamp _ (sd_endDate sd)).
Qed.

Lemma filter_step_compare (st : filter_state) (slot_item : slot_item) (s e : datetime) :
  squash_timestamps fromisoformat slot_item = Some (s, e) →
  filter_step fromisoformat st slot_item =
  let target_start := adopt_tzinfo (target_start st) s in
  let target_end := adopt_tzinfo (target_end st) e in
  (if ordinal s =? ordinal target_start
   then time_overlaps s e target_start target_end
   else Ret false) ≫= λ keep : bool,
  Ret {| target_start := target_start; target_end := target_end;
         filtered_slots :=
           if keep then filtered_slots st ++ [slot_item] else filtered_slots st |}.
Proof.
  unfold squash_timestamps, filter_step.
  destruct (get_data slot_item) as [sd|]; simpl; [|done].
  destruct (is_squash _); simpl; [|done].
  destruct (parse_timestamp _ (sd_startDate sd)); simpl; [|done].
  destruct (parse_timestamp _ (sd_endDate sd)); simpl; [|done].
  by intros [= -> ->].
Qed.

Lemma adopt_fields (target slot : datetime) :
  ordinal (adopt_tzinfo target slot) = ordinal target ∧
  micros (adopt_tzinfo target slot) = micros target.
Proof. unfold adopt_tzinfo. by destruct (tzinfo target). Qed.

Lemma adopt_tz (target slot : datetime) :
  tzinfo (adopt_tzinfo target slot) =
  match tzinfo target with None => tzinfo slot | Some z => Some z end.
Proof. unfold adopt_tzinfo. by destruct (tzinfo target) eqn:E. Qed.

Lemma aware_tz (a b : datetime) : tzinfo a = tzinfo b → aware a = aware b.
Proof. unfold aware. by intros ->. Qed.

Lemma filter_step_zoned (st : filter_state) (slot_item : slot_item) (s e : datetime) :
  squash_timestamps fromisoformat slot_item = Some (s, e) →
  tzinfo s = tzinfo e → aware s = aw → zone_ok aw st →
  ∃ st', filter_step fromisoformat st slot_item = Ret st' ∧
         zone_ok aw st' ∧ same_bounds st st' ∧
         (wrapped st → instant e - instant s ≤ 1400 * us_per_minute →
            filtered_slots st' = filtered_slots st).
Proof.
  intros Hts Hse Haw [Hz Hzaw].
  rewrite (filter_step_compare st slot_item s e Hts). cbv zeta.
  set (ts := adopt_tzinfo (target_start st) s).
  set (te := adopt_tzinfo (target_end st) e).
  assert (tzinfo ts = tzinfo te) as Htz.
  { unfold ts, te. rewrite !adopt_tz, Hz, Hse. done. }
  assert (aware s = aware te) as Hcmp.
  { rewrite <- (aware_tz ts te Htz). unfold ts. unfold aware at 2. rewrite adopt_tz.
    destruct (tzinfo (target_start st)) as [z|] eqn:E.
    - rewrite Haw, bool_decide_eq_true_2 by eauto.
      apply Hzaw. unfold aware. rewrite E. by apply bool_decide_eq_true_2.
    - done. }
  assert (aware e = aware ts) as Hcmp'.
  { rewrite (aware_tz ts te Htz), <- Hcmp. symmetry. by apply aware_tz. }
  assert (zone_ok aw {| target_start := ts; target_end := te; filtered_slots := [] |}
          ∧ ∀ l, same_bounds st {| target_start := ts; target_end := te; filtered_slots := l |})
    as [[_ Hzaw'] Hsame].
  { split; [split; [done|] | intros l; unfold same_bounds; simpl;
      unfold ts, te; pose proof (adopt_fields (target_start st) s);
      pose proof (adopt_fields (target_end st) e); tauto].
    simpl. rewrite <- Hcmp', (aware_tz e s) by done. congruence. }
  destruct (ordinal s =? ordinal ts) eqn:Hord; simpl.
  - rewrite (time_overlaps_decided s e ts te Hcmp Hcmp').
    case_bool_decide as Hov.
    + simpl. eexists. split; [done|].
      split; [by split|]. split; [apply Hsame|]. simpl.
      intros [Hwo Hwm] Hshort. exfalso.
      destruct (adopt_fields (target_start st) s) as [Ho1 Hm1].
      destruct (adopt_fields (target_end st) e) as [Ho2 Hm2].
      unfold instant in Hov, Hshort. fold ts in Ho1, Hm1. fold te in Ho2, Hm2.
      rewrite Htz, Ho1, Ho2, Hm1, Hm2, Hwo in Hov. lia.
    + simpl. eexists. split; [done|].
      split; [by split|]. split; [apply Hsame | done].
  - eexists. split; [done|]. split; [by split|]. split; [apply Hsame | done].
Qed.

Lemma same_bounds_wrapped (st st' : filter_state) :
  same_bounds st st' → wrapped st → wrapped st'.
Proof. unfold same_bounds, wrapped. intros (-> & -> & -> & ->). done. Qed.

Lemma filter_loop_zoned (slots : list slot_item) :
  well_zoned fromisoformat aw slots →
  ∀ st, zone_ok aw st →
    ∃ st', foldM (filter_step fromisoformat) slots st = Ret st' ∧
           (wrapped st → short_lived fromisoformat slots →
              filtered_slots st' = filtered_slots st).
Proof.
  induction slots as [|slot_item slots IH]; intros Hwz st Hz; simpl.
  - by exists st.
  - assert (well_zoned fromisoformat aw slots) as Hwz'.
    { intros i s e Hi. apply Hwz. by right. }
    destruct (squash_timestamps fromisoformat slot_item) as [[s e]|] eqn:Hts.
    + destruct (Hwz slot_item s e) as [Hse Haw]; [by left | done |].
      destruct (filter_step_zoned st slot_item s e Hts Hse Haw Hz)
        as (st1 & -> & Hz1 & Hsame & Hkeep). simpl.
      destruct (IH Hwz' st1 Hz1) as (st' & -> & Hrest).
      exists st'. split; [done|]. intros Hw Hshort.
      rewrite Hrest; [| by eapply same_bounds_wrapped | intros i ? ? Hi; apply Hshort; by right].
      apply Hkeep; [done|]. eapply Hshort; [by left | done].
    + rewrite (filter_step_skip st slot_item Hts). simpl.
      destruct (IH Hwz' st Hz) as (st' & -> & Hrest).
      exists st'. split; [done|]. intros Hw Hshort.
      apply Hrest; [done|]. intros i ? ? Hi. apply Hshort. by right.
Qed.

End FilterLoop.

Lemma well_zoned_tested (fromisoformat : string → option datetime) (aw : bool)
    (feed_items : list slot_item) :
  forallb (zoned_test fromisoformat aw) feed_items = true →
  well_zoned fromisoformat aw feed_items.
Proof.
  intros H i s e Hi Hts. rewrite forallb_forall in H.
  specialize (H i (proj1 (list_elem_of_In _ _) Hi)).
  unfold zoned_test in H. rewrite Hts in H.
  apply andb_true_iff in H as [H1 H2].
  split; [by apply bool_decide_eq_true in H1 | by apply eqb_prop].
Qed.

Lemma short_lived_tested (fromisoformat : string → option datetime)
    (feed_items : list slot_item) :
  forallb (short_test fromisoformat) feed_items = true →
  short_lived fromisoformat feed_items.
Proof.
  intros H i s e Hi Hts. rewrite forallb_forall in H.
  specialize (H i (proj1 (list_elem_of_In _ _) Hi)).
  unfold short_test in H. rewrite Hts in H. by apply Z.leb_le.
Qed.

(** ** The report *)

Lemma verdict_spec (n : nat) :
  (n = 0%nat → verdict n = ("There is no slots free before your booking", false)) ∧
  (n = 1%nat → verdict n = ("There is one slot free before your booking", true)) ∧
  ((2 ≤ n)%nat →
     verdict n = ("There are " +:+ str (Z.of_nat n) +:+ " slots free before your booking",
                  true)).
Proof.
  unfold verdict. split; [by intros ->|]. split; [by intros ->|].
  intros H. destruct (Nat.ltb_spec 0 n); [|lia].
  destruct (Nat.eqb_spec n 1); [lia | done].
Qed.

(** C8.  For a start time that reads as [t] minutes after midnight, the
    main window runs from the start time to the clock time 40 minutes
    later and the before window from the clock time 40 minutes earlier
    to the start time ("10:00" gives 10:00-10:40 and 09:20-10:00); on
    the target date these bounds are read as that day's clock times.
    Every result the programmatic interface returns carries these
    bounds, counts the available entries of the two maps aggregated over
    the two windows, and words its message by the before count: zero
    gives the negative message and no success, one the singular message,
    two or more the plural message with the count, both with success. *)
Theorem window_pair_and_message (fromisoformat : string → option datetime)
    (fuel : nat) (w : feed) (target_date start_time : string) (t : Z) :
  strptime_HM start_time = Some t →
  window_bounds start_time = Ret (window_pair start_time t) ∧
  window_bounds "10:00" =
    Ret {| main_start := "10:00"; main_end := "10:40";
           before_start := "09:20"; before_end := "10:00" |} ∧
  (∀ d, strptime_Ymd target_date = Some d →
     parse_datetime target_date start_time = Ret (at_minute d t) ∧
     parse_datetime target_date (clock (t + 40)) = Ret (at_minute d ((t + 40) `mod` 1440)) ∧
     parse_datetime target_date (clock (t - 40)) = Ret (at_minute d ((t - 40) `mod` 1440))) ∧
  ∀ r, check_availability_programmatic fromisoformat fuel w target_date start_time = Ret r →
    match r with
    | Result success message main_n before_n url main_info before_info time_slots =>
        time_slots = window_pair start_time t ∧
        (∃ f main_slots before_slots,
           fetch_all_slots fuel w = Ret f ∧
           filter_squash_slots_by_time fromisoformat (all_slots f) target_date
             start_time (clock (t + 40)) = Ret main_slots ∧
           filter_squash_slots_by_time fromisoformat (all_slots f) target_date
             (clock (t - 40)) start_time = Ret before_slots ∧
           main_info = get_squash_court_availability main_slots ∧
           before_info = get_squash_court_availability before_slots) ∧
        main_n = count_available main_info ∧
        before_n = count_available before_info ∧
        (before_n = 0%nat →
           success = false ∧ message = "There is no slots free before your booking") ∧
        (before_n = 1%nat →
           success = true ∧ message = "There is one slot free before your booking") ∧
        ((2 ≤ before_n)%nat →
           success = true ∧
           message = "There are " +:+ str (Z.of_nat before_n) +:+
                     " slots free before your booking")
    | ErrorResult _ _ _ => True
    end.
Proof.
  intros Ht. split; [by apply window_bounds_spec|].
  split; [reflexivity|].
  split.
  { intros d Hd. split; [by apply parse_datetime_start|].
    split; by apply parse_datetime_clock. }
  intros r. unfold check_availability_programmatic, build_report, check_squash_availability.
  rewrite (window_bounds_spec _ _ Ht). simpl.
  destruct (fetch_all_slots fuel w) as [f|e|] eqn:Hf; simpl;
    [| destruct (is_Exception e); intros; by simplify_eq | done].
  destruct (filter_squash_slots_by_time _ (all_slots f) _ start_time _)
    as [main_slots|e|] eqn:Hm; simpl;
    [| destruct (is_Exception e); intros; by simplify_eq | done].
  destruct (filter_squash_slots_by_time _ (all_slots f) _ (clock (t - 40)) _)
    as [before_slots|e|] eqn:Hb; simpl;
    [| destruct (is_Exception e); intros; by simplify_eq | done].
  destruct (verdict_spec (count_available (get_squash_court_availability before_slots)))
    as (H0 & H1 & H2).
  destruct (verdict _) as [message success].
  destruct (build_booking_url _ _) as [url|e|]; simpl;
    [| destruct (is_Exception e); intros; by simplify_eq | done].
  intros [= <-].
  split; [done|]. split; [by exists f, main_slots, before_slots|].
  split; [done|]. split; [done|].
  split; [intros Hn; by injection (H0 Hn) as -> ->|].
  split; [intros Hn; by injection (H1 Hn) as -> ->|].
  intros Hn. by injection (H2 Hn) as -> ->.
Qed.

(** C8, witness: 10:00 on the morning feed. *)
Lemma ten_o_clock_query :
  window_bounds "10:00" =
    Ret {| main_start := "10:00"; main_end := "10:40";
           before_start := "09:20"; before_end := "10:00" |} ∧
  ∃ url main_info before_info,
    check_availability_programmatic iso_basic 1001 morning_feed "2026-02-03" "10:00" =
    Ret (Result true "There is one slot free before your booking" 1 1 url
           main_info before_info
           {| main_start := "10:00"; main_end := "10:40";
              before_start := "09:20"; before_end := "10:00" |}).
Proof.
  assert (strptime_HM "10:00" = Some 600) as Ht by reflexivity.
  split.
  - exact (proj1 (window_pair_and_message iso_basic 1001 morning_feed
                    "2026-02-03" "10:00" 600 Ht)).
  - eexists _, _, _. vm_compute. reflexivity.
Defined.

(** ** A start time before 00:40 *)

Lemma filter_squash_slots_zoned (fromisoformat : string → option datetime) (aw : bool)
    (slots : list slot_item) (target_date start_time end_time : string) (ts te : datetime) :
  parse_datetime target_date start_time = Ret ts →
  parse_datetime target_date end_time = Ret te →
  tzinfo ts = None → tzinfo te = None →
  well_zoned fromisoformat aw slots →
  ∃ kept, filter_squash_slots_by_time fromisoformat slots target_date start_time end_time
          = Ret kept ∧
          (ordinal ts = ordinal te →
           micros ts - micros te = 1400 * us_per_minute →
           short_lived fromisoformat slots → kept = []).
Proof.
  intros Hs He Hts Hte Hwz. unfold filter_squash_slots_by_time. rewrite Hs, He. simpl.
  destruct (filter_loop_zoned fromisoformat aw slots Hwz
              {| target_start := ts; target_end := te; filtered_slots := [] |})
    as (st & -> & Hkept).
  { split; simpl; [congruence|]. unfold aware. rewrite Hts. done. }
  simpl. exists (filtered_slots st). split; [done|].
  intros Ho Hm Hshort. by apply Hkept.
Qed.

Lemma booking_url_late (target_date : string) (d m : Z) :
  strptime_Ymd target_date = Some d → 40 ≤ m < 1440 →
  ∃ url, build_booking_url target_date (clock m) = Ret url.
Proof.
  intros Hd Hm. unfold build_booking_url, strptime_date_T_time.
  rewrite Hd, clock_parses. simpl.
  rewrite Z.mod_small by lia.
  unfold add_minutes_checked, add_minutes. simpl.
  replace (m * us_per_minute + -40 * us_per_minute) with ((m - 40) * us_per_minute) by lia.
  rewrite (Z.div_small ((m - 40) * us_per_minute) us_per_day)
    by (unfold us_per_minute, us_per_day; lia).
  rewrite Z.add_0_r.
  apply strptime_Ymd_range in Hd.
  destruct (Z.leb_spec 1 d); [|lia]. destruct (Z.leb_spec d max_ordinal); [|lia].
  simpl. eauto.
Qed.

Lemma count_available_empty : count_available ∅ = 0%nat.
Proof. unfold count_available. by rewrite map_to_list_empty. Qed.

(** C10, amended.  For a start time before 00:40 the before window is
    read on the target date with its start (the start time plus 23 hours
    20 minutes on the clock) later in the day than its end.  When the
    feed is fetched, each of its squash items carries one UTC offset on
    both of its timestamps (all items offset-aware, or all naive) and
    none lasts longer than 23 hours 20 minutes, no item passes the
    before-window filter: the before map is empty, the report counts 0
    and gives the negative message. *)
Theorem before_window_wraps (fromisoformat : string → option datetime) (aw : bool)
    (fuel : nat) (w : feed) (target_date start_time : string) (t d : Z) (f : fetched) :
  strptime_HM start_time = Some t → t < 40 →
  strptime_Ymd target_date = Some d →
  fetch_all_slots fuel w = Ret f →
  well_zoned fromisoformat aw (all_slots f) →
  short_lived fromisoformat (all_slots f) →
  window_bounds start_time = Ret (window_pair start_time t) ∧
  before_start (window_pair start_time t) = clock (t + 1400) ∧
  parse_datetime target_date (clock (t - 40)) = Ret (at_minute d (t + 1400)) ∧
  parse_datetime target_date start_time = Ret (at_minute d t) ∧
  filter_squash_slots_by_time fromisoformat (all_slots f) target_date
    (clock (t - 40)) start_time = Ret [] ∧
  ∃ main_slots url,
    filter_squash_slots_by_time fromisoformat (all_slots f) target_date
      start_time (clock (t + 40)) = Ret main_slots ∧
    check_availability_programmatic fromisoformat fuel w target_date start_time =
    Ret (Result false "There is no slots free before your booking"
           (count_available (get_squash_court_availability main_slots)) 0 url
           (get_squash_court_availability main_slots) ∅
           (window_pair start_time t)).
Proof.
  intros Ht Hlt Hd Hf Hwz Hshort.
  pose proof (strptime_HM_range _ _ Ht) as Hr.
  assert ((t - 40) `mod` 1440 = t + 1400) as Hmod.
  { replace (t - 40) with (t + 1400 + (-1) * 1440) by lia.
    rewrite Z.mod_add by done. apply Z.mod_small. lia. }
  pose proof (parse_datetime_clock target_date d (t - 40) Hd) as Hbs. rewrite Hmod in Hbs.
  pose proof (parse_datetime_start target_date start_time d t Hd Ht) as Hbe.
  pose proof (parse_datetime_clock target_date d (t + 40) Hd) as Hme.
  destruct (filter_squash_slots_zoned fromisoformat aw (all_slots f) target_date
              (clock (t - 40)) start_time _ _ Hbs Hbe eq_refl eq_refl Hwz)
    as (before_slots & Hbefore & Hnone).
  assert (before_slots = []) as -> by (apply Hnone; [done | simpl; lia | done]).
  destruct (filter_squash_slots_zoned fromisoformat aw (all_slots f) target_date
              start_time (clock (t + 40)) _ _ Hbe Hme eq_refl eq_refl Hwz)
    as (main_slots & Hmain & _).
  destruct (booking_url_late target_date d (t + 1400) Hd) as [url Hurl]; [lia|].
  assert (clock (t + 1400) = clock (t - 40)) as Hclock.
  { unfold clock. rewrite Hmod. rewrite (Z.mod_small (t + 1400)) by lia. done. }
  rewrite Hclock in Hurl.
  split; [by apply window_bounds_spec|].
  split; [done|]. split; [done|]. split; [done|]. split; [done|].
  exists main_slots, url. split; [done|].
  unfold check_availability_programmatic, build_report, check_squash_availability.
  rewrite (window_bounds_spec _ _ Ht). simpl. rewrite Hf. simpl.
  rewrite Hmain. simpl. rewrite Hbefore. simpl.
  change (get_squash_court_availability []) with (∅ : gmap string court).
  rewrite count_available_empty. simpl. rewrite Hurl. done.
Qed.

(** C10, witness: 00:20 on the morning feed. *)
Lemma twenty_past_midnight_query :
  ∃ main_slots url,
    filter_squash_slots_by_time iso_basic morning_items "2026-02-03"
      "00:20" (clock (20 + 40)) = Ret main_slots ∧
    check_availability_programmatic iso_basic 1001 morning_feed "2026-02-03" "00:20" =
    Ret (Result false "There is no slots free before your booking"
           (count_available (get_squash_court_availability main_slots)) 0 url
           (get_squash_court_availability main_slots) ∅
           (window_pair "00:20" 20)).
Proof.
  assert (strptime_HM "00:20" = Some 20) as Ht by reflexivity.
  assert (20 < 40) as Hlt by lia.
  assert (strptime_Ymd "2026-02-03" = Some 739650) as Hd by (vm_compute; reflexivity).
  assert (fetch_all_slots 1001 morning_feed =
          Ret {| all_slots := morning_items; page_count := 2;
                 stopped := LastPage; printed := [] |}) as Hf
    by (vm_compute; reflexivity).
  assert (well_zoned iso_basic true morning_items) as Hz
    by (apply well_zoned_tested; vm_compute; reflexivity).
  assert (short_lived iso_basic morning_items) as Hs
    by (apply short_lived_tested; vm_compute; reflexivity).
  exact (proj2 (proj2 (proj2 (proj2
           (proj2 (before_window_wraps iso_basic true 1001 morning_feed "2026-02-03"
              "00:20" 20 739650 _ Ht Hlt Hd Hf Hz Hs)))))).
Defined.

(** C10, counterexample: an item of thirty minutes whose start carries
    +14:00 and whose end carries -12:00 passes the before-window filter
    of a 00:20 query, and the report counts one free court. *)
Lemma mixed_offsets_defeat_the_wrap :
  strptime_HM "00:20" = Some 20 ∧
  fetch_all_slots 1001 mixed_offset_feed =
    Ret {| all_slots := [mixed_offset_item]; page_count := 2;
           stopped := LastPage; printed := [] |} ∧
  (∃ s e, squash_timestamps iso_basic mixed_offset_item = Some (s, e) ∧
          instant e - instant s = 30 * us_per_minute) ∧
  filter_squash_slots_by_time iso_basic [mixed_offset_item] "2026-02-03"
    (clock (20 - 40)) "00:20" = Ret [mixed_offset_item] ∧
  ∃ url main_info before_info,
    check_availability_programmatic iso_basic 1001 mixed_offset_feed "2026-02-03" "00:20" =
    Ret (Result true "There is one slot free before your booking" 1 1 url
           main_info before_info (window_pair "00:20" 20)).
Proof.
  split; [reflexivity|]. split; [vm_compute; reflexivity|].
  split; [eexists _, _; split; vm_compute; reflexivity|].
  split; [vm_compute; reflexivity|].
  eexists _, _, _. vm_compute. reflexivity.
Qed.

(** ** Failures *)

Lemma exceptions_are_reported (fromisoformat : string → option datetime) (fuel : nat)
    (w : feed) (target_date start_time : string) (e : exn) :
  build_report fromisoformat fuel w target_date start_time = Raise e →
  (is_Exception e = true →
     check_availability_programmatic fromisoformat fuel w target_date start_time =
     Ret (ErrorResult ("Error checking availability: " +:+ str_exn e) GENERIC_URL
            (str_exn e))) ∧
  (is_Exception e = false →
     check_availability_programmatic fromisoformat fuel w target_date start_time = Raise e).
Proof.
  intros H. unfold check_availability_programmatic. rewrite H.
  by destruct (is_Exception e).
Qed.

Lemma garbled_feed_is_reported (fromisoformat : string → option datetime)
    (target_date : string) :
  check_availability_programmatic fromisoformat 1001 garbled_feed target_date "10:00"
  = Ret (ErrorResult
           "Error checking availability: Expecting value: line 1 column 1 (char 0)"
           GENERIC_URL "Expecting value: line 1 column 1 (char 0)").
Proof. reflexivity. Qed.

(** C4 (what the code does where the statement fails): when the first
    page request raises a [RequestException], [fetch_slots] turns it
    into [sys.exit(1)], and the programmatic interface returns no
    report: [SystemExit] is not an [Exception], and leaves it. *)
Theorem request_failure_exits (fromisoformat : string → option datetime) (fuel : nat)
    (w : feed) (target_date start_time : string) (t : Z) (msg : string) :
  strptime_HM start_time = Some t →
  w 0%nat BASE_URL = Failed (RequestException msg) →
  check_availability_programmatic fromisoformat (S fuel) w target_date start_time
  = Raise (SystemExit 1).
Proof.
  intros Ht Hw.
  unfold check_availability_programmatic, build_report, check_squash_availability.
  rewrite (window_bounds_spec _ _ Ht). simpl.
  unfold fetch_all_slots. simpl. unfold fetch_slots.
  change (url_or_base None) with BASE_URL. rewrite Hw. reflexivity.
Qed.

(** C4, witness: the feed that cannot be reached, asked at 10:00. *)
Lemma unreachable_feed_exits :
  check_availability_programmatic iso_basic 1001 unreachable_feed "2026-02-03" "10:00"
  = Raise (SystemExit 1).
Proof.
  apply (request_failure_exits iso_basic 1000 unreachable_feed "2026-02-03" "10:00"
           600 "connection refused"); reflexivity.
Defined.

Lemma time_overlaps_has_fuel (a b c d : datetime) : time_overlaps a b c d ≠ OutOfFuel.
Proof.
  unfold time_overlaps, Datetime.gt, Datetime.lt.
  destruct (Bool.eqb (aware a) (aware d)); simpl; [|done].
  destruct (instant a <? instant d); [|done].
  by destruct (Bool.eqb (aware c) (aware b)).
Qed.

Lemma filter_step_has_fuel (fromisoformat : string → option datetime)
    (st : filter_state) (slot_item : slot_item) :
  filter_step fromisoformat st slot_item ≠ OutOfFuel.
Proof.
  destruct (squash_timestamps fromisoformat slot_item) as [[s e]|] eqn:Hts.
  - rewrite (filter_step_compare fromisoformat st slot_item s e Hts). cbv zeta.
    destruct (ordinal s =? _); simpl; [|done].
    match goal with |- context [time_overlaps ?a ?b ?c ?d] =>
      pose proof (time_overlaps_has_fuel a b c d);
      by destruct (time_overlaps a b c d)
    end.
  - by rewrite (filter_step_skip fromisoformat st slot_item Hts).
Qed.

Lemma filter_has_fuel (fromisoformat : string → option datetime)
    (feed_items : list slot_item) (target_date start_time end_time : string) :
  filter_squash_slots_by_time fromisoformat feed_items target_date start_time end_time
  ≠ OutOfFuel.
Proof.
  unfold filter_squash_slots_by_time, parse_datetime.
  destruct (strptime_date_time target_date start_time) as [ts|]; simpl; [|done].
  destruct (strptime_date_time target_date end_time) as [te|]; simpl; [|done].
  generalize {| target_start := ts; target_end := te; filtered_slots := [] |}.
  induction feed_items as [|i l IH]; intros st; simpl; [done|].
  pose proof (filter_step_has_fuel fromisoformat st i) as Hstep.
  destruct (filter_step fromisoformat st i) as [st'| |]; simpl; [apply IH | done | done].
Qed.

(** With fuel for the page ceiling the programmatic interface always
    comes back: with a report, or with the exception that leaves it. *)
Lemma programmatic_has_fuel (fromisoformat : string → option datetime) (fuel : nat)
    (w : feed) (target_date start_time : string) :
  (1000 < fuel)%nat →
  check_availability_programmatic fromisoformat fuel w target_date start_time ≠ OutOfFuel.
Proof.
  intros Hfuel.
  assert (fetch_all_slots fuel w ≠ OutOfFuel) as Hfetch
    by (apply fetch_loop_has_fuel; lia).
  unfold check_availability_programmatic, build_report, check_squash_availability.
  unfold window_bounds. destruct (strptime_time start_time) as [t|]; simpl; [|done].
  destruct (fetch_all_slots fuel w) as [f|e|]; simpl;
    [| by destruct (is_Exception e) | done].
  pose proof (filter_has_fuel fromisoformat (all_slots f) target_date start_time
                (strftime_HM (add_minutes t 40))) as Hmain.
  destruct (filter_squash_slots_by_time _ _ _ start_time _) as [main_slots|e|]; simpl;
    [| by destruct (is_Exception e) | done].
  pose proof (filter_has_fuel fromisoformat (all_slots f) target_date
                (strftime_HM (add_minutes t (-40))) start_time) as Hbefore.
  destruct (filter_squash_slots_by_time _ _ _ _ start_time) as [before_slots|e|]; simpl;
    [| by destruct (is_Exception e) | done].
  destruct (verdict _) as [message success].
  unfold build_booking_url, add_minutes_checked.
  destruct (strptime_date_T_time _ _) as [bd|]; simpl; [|done].
  by destruct (_ && _).
Qed.

(** ** Invariants of the entries *)

Section EntryInvariant.

Variable P : court → Prop.
Hypothesis P_first : ∀ sd cid, P (recorded sd (new_court cid)).
Hypothesis P_next : ∀ sd c, P c → P (recorded sd c).
Hypothesis P_synthetic : ∀ sd, P (synthetic_court sd).

Lemma invariant_record (name cid : string) (sd : slot_data) (ci : gmap string court) :
  map_Forall (λ _, P) ci → map_Forall (λ _, P) (record_period name cid sd ci).
Proof.
  intros H. rewrite record_period_spec. apply map_Forall_insert_2; [|done].
  destruct (ci !! name) as [c|] eqn:E; simpl.
  - apply P_next. by apply (H name).
  - apply P_first.
Qed.

Lemma invariant_fold {A} (f : gmap string court → A → gmap string court) (l : list A) :
  (∀ ci x, map_Forall (λ _, P) ci → map_Forall (λ _, P) (f ci x)) →
  ∀ ci, map_Forall (λ _, P) ci → map_Forall (λ _, P) (fold_left f l ci).
Proof.
  intros Hf. induction l as [|x l IH]; intros ci Hci; simpl; [done|]. apply IH, Hf, Hci.
Qed.

Lemma invariant_single (sd : slot_data) (ci : gmap string court) :
  map_Forall (λ _, P) ci → map_Forall (λ _, P) (_process_single_slot sd ci).
Proof.
  intros H. destruct (process_single_slot_cases sd ci) as [Hyes Hno].
  destruct (decide (is_partially_booked sd && (length (locations_of sd) =? 2)%nat = true))
    as [Ht|Ht].
  - rewrite Hyes by (by apply partial_pattern_test).
    apply map_Forall_singleton, P_synthetic.
  - rewrite Hno by (by rewrite <- partial_pattern_test).
    unfold record_single_slot. destruct (locations_of sd).
    + by apply invariant_record.
    + apply invariant_fold; [|done]. intros ? ? ?. by apply invariant_record.
Qed.

Lemma invariant_multiple (group : list slot_data) (ci : gmap string court) :
  map_Forall (λ _, P) ci → map_Forall (λ _, P) (_process_multiple_court_slots group ci).
Proof.
  apply invariant_fold. intros ci' sd H. unfold multiple_slot_step.
  destruct (inferred_court sd). by apply invariant_record.
Qed.

Lemma invariant_availability (slots : list slot_item) :
  map_Forall (λ _, P) (get_squash_court_availability slots).
Proof.
  unfold get_squash_court_availability.
  apply invariant_fold; [|apply map_Forall_empty].
  intros ci [k g] H. unfold process_group. simpl.
  destruct g as [|sd [|sd' g]]; first [by apply invariant_multiple | by apply invariant_single].
Qed.

End EntryInvariant.

Lemma most_remaining_recorded (sd : slot_data) (c : court) :
  most_remaining (recorded sd c) = Z.max (most_remaining c) (remaining_of sd).
Proof.
  unfold most_remaining. simpl. rewrite fmap_app. simpl.
  induction (p_remaining <$> slots c) as [|x l IH]; simpl; [lia|]. rewrite IH. lia.
Qed.

Lemma summary_ok_recorded (sd : slot_data) (c : court) :
  summary_ok c → summary_ok (recorded sd c).
Proof.
  intros [Hmax Hflag]. split.
  - rewrite most_remaining_recorded, <- Hmax. done.
  - simpl. rewrite orb_true_iff, Hflag, Z.ltb_lt. lia.
Qed.

Lemma summary_ok_new (cid : string) : summary_ok (new_court cid).
Proof. split; [done|]. simpl. split; [done | lia]. Qed.

Lemma summary_ok_synthetic (sd : slot_data) : summary_ok (synthetic_court sd).
Proof. split; [done|]. simpl. split; [lia | done]. Qed.

Lemma recorded_has_period (sd : slot_data) (c : court) : slots (recorded sd c) ≠ [].
Proof. simpl. by intros [_ ?]%app_eq_nil. Qed.

(** X1.  In the map [get_squash_court_availability] returns, every entry
    has at least one period, its [remaining_uses] is the largest
    [remaining] among its periods (and 0 at least), and it is available
    exactly when its [remaining_uses] is above 0. *)
Theorem entries_summarise_their_periods (feed_items : list slot_item) (name : string)
    (c : court) :
  get_squash_court_availability feed_items !! name = Some c →
  slots c ≠ [] ∧
  remaining_uses c = most_remaining c ∧
  (available c = true ↔ 0 < remaining_uses c).
Proof.
  apply (invariant_availability (λ c, slots c ≠ [] ∧ summary_ok c)).
  - intros sd cid. split; [apply recorded_has_period|].
    apply summary_ok_recorded, summary_ok_new.
  - intros sd c' [_ H]. split; [apply recorded_has_period | by apply summary_ok_recorded].
  - intros sd. split; [done | apply summary_ok_synthetic].
Qed.

(** X1, witness: the entry that stands for the half-booked period. *)
Lemma available_courts_entry_is_summarised :
  slots (synthetic_court half_booked_data) ≠ [] ∧
  remaining_uses (synthetic_court half_booked_data) =
    most_remaining (synthetic_court half_booked_data) ∧
  (available (synthetic_court half_booked_data) = true ↔
   0 < remaining_uses (synthetic_court half_booked_data)).
Proof.
  apply (entries_summarise_their_periods [half_booked_1000] "Available Courts").
  vm_compute. reflexivity.
Defined.

(** ** The groups and the order they are processed in *)

Lemma list_in_iff (x : string) (l : list string) : Py.list_in x l = true ↔ x ∈ l.
Proof.
  unfold Py.list_in. rewrite existsb_exists. split.
  - intros (y & Hy & ->%String.eqb_eq). by apply list_elem_of_In.
  - intros H. exists x. split; [by apply list_elem_of_In | apply String.eqb_refl].
Qed.

Lemma group_append_fresh (k : string) (sd : slot_data)
    (ts : list (string * list slot_data)) :
  k ∉ ts.*1 → group_append k sd ts = ts ++ [(k, [sd])].
Proof.
  induction ts as [|[k0 g] ts IH]; simpl; [done|].
  intros Hk. destruct (String.eqb_spec k0 k) as [->|Hne].
  - exfalso. apply Hk. by left.
  - f_equal. apply IH. intros ?. apply Hk. by right.
Qed.

Lemma group_append_seen (k : string) (sd : slot_data)
    (ts : list (string * list slot_data)) :
  k ∈ ts.*1 → (group_append k sd ts).*1 = ts.*1.
Proof.
  induction ts as [|[k0 g] ts IH]; simpl; [by intros ?%elem_of_nil|].
  intros Hk. destruct (String.eqb_spec k0 k) as [->|Hne]; simpl; [done|].
  f_equal. apply IH. apply elem_of_cons in Hk as [->|Hk]; done.
Qed.

Lemma group_append_groups (k : string) (sd : slot_data)
    (ts : list (string * list slot_data)) :
  Forall (λ kg, kg.2 ≠ []) ts → Forall (λ kg, kg.2 ≠ []) (group_append k sd ts).
Proof.
  induction ts as [|[k0 g] ts IH]; simpl.
  - intros _. by repeat constructor.
  - intros [Hg Hts]%Forall_cons. destruct (String.eqb k0 k).
    + constructor; [|done]. simpl. by intros [_ ?]%app_eq_nil.
    + constructor; [done | by apply IH].
Qed.

Lemma group_targets_groups (kept : list slot_data) :
  Forall (λ kg, kg.2 ≠ []) (group_targets kept).
Proof.
  induction kept as [|sd kept IH] using rev_ind; [constructor|].
  rewrite group_targets_snoc. by apply group_append_groups.
Qed.

Lemma group_targets_keys (kept : list slot_data) (k : string) :
  k ∈ (group_targets kept).*1 ↔ ∃ sd, sd ∈ kept ∧ start_key sd = k.
Proof.
  induction kept as [|sd kept IH] using rev_ind.
  - split; [by intros ?%elem_of_nil | by intros (? & ?%elem_of_nil & _)].
  - rewrite group_targets_snoc. split.
    + intros [->|Hin]%group_append_key.
      * exists sd. split; [apply elem_of_app; right; by left | done].
      * apply IH in Hin as (sd' & ? & ?). exists sd'. split; [apply elem_of_app; by left | done].
    + intros (sd' & [Hin | ->%list_elem_of_singleton]%elem_of_app & <-).
      * assert (start_key sd' ∈ (group_targets kept).*1) as Hk by (apply IH; eauto).
        destruct (decide (start_key sd ∈ (group_targets kept).*1)) as [Hs|Hs].
        -- by rewrite group_append_seen.
        -- rewrite group_append_fresh, fmap_app by done. apply elem_of_app. by left.
      * destruct (decide (start_key sd ∈ (group_targets kept).*1)) as [Hs|Hs].
        -- by rewrite group_append_seen.
        -- rewrite group_append_fresh, fmap_app by done. apply elem_of_app. right. by left.
Qed.

Lemma first_appearances_seen (keys seen seen' : list string) :
  (∀ k, k ∈ seen ↔ k ∈ seen') →
  first_appearances keys seen = first_appearances keys seen'.
Proof.
  revert seen seen'. induction keys as [|k keys IH]; intros seen seen' H; simpl; [done|].
  destruct (Py.list_in k seen) eqn:E; destruct (Py.list_in k seen') eqn:E'.
  - by apply IH.
  - apply list_in_iff, H, list_in_iff in E. congruence.
  - apply list_in_iff, H, list_in_iff in E'. congruence.
  - f_equal. apply IH. intros k'. rewrite !elem_of_cons, H. done.
Qed.

Lemma group_keys_from (kept : list slot_data) (ts : list (string * list slot_data)) :
  (fold_left (λ ts sd, group_append (start_key sd) sd ts) kept ts).*1 =
  ts.*1 ++ first_appearances (start_key <$> kept) ts.*1.
Proof.
  revert ts. induction kept as [|sd kept IH]; intros ts; simpl; [by rewrite app_nil_r|].
  rewrite IH. destruct (Py.list_in (start_key sd) ts.*1) eqn:E.
  - apply list_in_iff in E. by rewrite group_append_seen.
  - assert (start_key sd ∉ ts.*1) as Hk by (rewrite <- list_in_iff; congruence).
    rewrite group_append_fresh, fmap_app by done. simpl. rewrite <- app_assoc. simpl.
    do 2 f_equal. apply first_appearances_seen. intros k.
    rewrite elem_of_app, list_elem_of_singleton, elem_of_cons. tauto.
Qed.

(** X2.  [time_slots] holds one group for each start time of the kept
    items, in the order in which the start times first appear; a group
    is never empty and lists, in arrival order, the kept items of its
    start time. *)
Theorem groups_partition_by_start (feed_items : list slot_item) :
  (group_by_start feed_items).*1 =
    first_appearances (start_key <$> targets feed_items) [] ∧
  NoDup (group_by_start feed_items).*1 ∧
  (∀ key, key ∈ (group_by_start feed_items).*1 ↔
          ∃ sd, sd ∈ targets feed_items ∧ start_key sd = key) ∧
  (∀ key group, (key, group) ∈ group_by_start feed_items →
     group ≠ [] ∧ group = List.filter (same_start key) (targets feed_items)).
Proof.
  rewrite group_by_start_targets. repeat split.
  - apply (group_keys_from (targets feed_items) []).
  - apply group_targets_nodup.
  - by apply group_targets_keys.
  - by apply group_targets_keys.
  - pose proof (group_targets_groups (targets feed_items)) as Hg.
    rewrite Forall_forall in Hg. by apply (Hg (key, group)).
  - by apply group_targets_elem.
Qed.

(** ** An empty result *)

Lemma record_period_nonempty (name cid : string) (sd : slot_data)
    (ci : gmap string court) :
  record_period name cid sd ci ≠ ∅.
Proof. rewrite record_period_spec. apply insert_non_empty. Qed.

Lemma fold_left_nonempty {A} (f : gmap string court → A → gmap string court) (l : list A) :
  (∀ ci x, f ci x ≠ ∅) → l ≠ [] → ∀ ci, fold_left f l ci ≠ ∅.
Proof.
  intros Hf. induction l as [|x l IH]; [done|]. intros _ ci. simpl.
  destruct l as [|y l]; [apply Hf | by apply IH].
Qed.

Lemma process_group_nonempty (ci : gmap string court) (k : string)
    (group : list slot_data) :
  group ≠ [] → process_group ci (k, group) ≠ ∅.
Proof.
  intros Hg. unfold process_group. simpl.
  assert (_process_multiple_court_slots group ci ≠ ∅) as Hmulti.
  { unfold _process_multiple_court_slots. apply fold_left_nonempty.
    - intros ci' sd. unfold multiple_slot_step. destruct (inferred_court sd).
      apply record_period_nonempty.
    - intros Hs. pose proof (sort_by_identifier_perm group) as Hp.
      rewrite Hs in Hp. by apply Permutation_nil_l in Hp. }
  destruct group as [|sd [|sd' group]]; [done | | done].
  destruct (process_single_slot_cases sd ci) as [Hyes Hno].
  destruct (decide (is_partially_booked sd && (length (locations_of sd) =? 2)%nat = true))
    as [Ht|Ht].
  - rewrite Hyes by (by apply partial_pattern_test). apply insert_non_empty.
  - rewrite Hno by (by rewrite <- partial_pattern_test).
    unfold record_single_slot. destruct (locations_of sd) as [|loc locs].
    + apply record_period_nonempty.
    + apply fold_left_nonempty; [|done]. intros ci' loc'. apply record_period_nonempty.
Qed.

Lemma process_groups_nonempty (groups : list (string * list slot_data)) :
  Forall (λ kg, kg.2 ≠ []) groups → groups ≠ [] →
  ∀ ci, fold_left process_group groups ci ≠ ∅.
Proof.
  induction groups as [|[k g] groups IH]; [done|].
  intros [Hg Hgs]%Forall_cons _ ci. simpl.
  destruct groups as [|kg groups]; [by apply process_group_nonempty | by apply IH].
Qed.

(** X3.  [get_squash_court_availability] returns the empty map exactly
    when it keeps no item: when no item has data whose [facilityUse]
    is the facility id, or ends in a slash and the facility id. *)
Theorem no_entry_without_kept_item (feed_items : list slot_item) :
  get_squash_court_availability feed_items = ∅ ↔
  ∀ slot_item, slot_item ∈ feed_items → admitted slot_item = None.
Proof.
  assert ((∀ slot_item, slot_item ∈ feed_items → admitted slot_item = None) ↔
          targets feed_items = []) as ->.
  { unfold targets. induction feed_items as [|i l IH]; simpl.
    - split; [done | by intros _ ? ?%elem_of_nil].
    - destruct (admitted i) eqn:E.
      + split; [|done]. intros H. specialize (H i (list_elem_of_here _ _)). congruence.
      + rewrite <- IH. split.
        * intros H x Hx. apply H. by right.
        * intros H x [->|Hx]%elem_of_cons; [done | by apply H]. }
  unfold get_squash_court_availability. rewrite group_by_start_targets. split.
  - intros Hempty. destruct (targets feed_items) as [|sd kept] eqn:E; [done|].
    exfalso. revert Hempty. apply process_groups_nonempty; [apply group_targets_groups|].
    intros Hnil.
    assert (start_key sd ∈ (group_targets (sd :: kept)).*1) as Hin
      by (apply group_targets_keys; exists sd; split; [by left | done]).
    rewrite Hnil in Hin. by apply elem_of_nil in Hin.
  - intros ->. done.
Qed.

(** X4.  When the item that arrives last shows the partial-booking
    pattern and no kept item before it has its start time, its group is
    the last one processed, and the whole result is the one entry
    "Available Courts", whatever the earlier items were. *)
Theorem last_partial_booking_wins (feed_items : list slot_item) (slot_item : slot_item)
    (sd : slot_data) :
  admitted slot_item = Some sd →
  partial_pattern sd →
  (∀ sd', sd' ∈ targets feed_items → start_key sd' ≠ start_key sd) →
  get_squash_court_availability (feed_items ++ [slot_item]) =
  {[ "Available Courts" := synthetic_court sd ]}.
Proof.
  intros Hsd Hp Hfresh. unfold get_squash_court_availability.
  rewrite group_by_start_targets. unfold targets. rewrite omap_app. simpl. rewrite Hsd.
  fold (targets feed_items). rewrite group_targets_snoc, group_append_fresh.
  - rewrite fold_left_app. simpl. unfold process_group. simpl.
    by apply process_single_slot_cases.
  - intros (sd' & Hin & Hk)%group_targets_keys. by apply (Hfresh sd').
Qed.

(** X4, witness: the half-booked 10:00 period after the two 09:20
    items. *)
Lemma half_booked_period_comes_last :
  get_squash_court_availability ([free_court_0920; booked_court_0920] ++ [half_booked_1000]) =
  {[ "Available Courts" := synthetic_court half_booked_data ]}.
Proof.
  apply (last_partial_booking_wins [free_court_0920; booked_court_0920]
           half_booked_1000 half_booked_data).
  - reflexivity.
  - split; [reflexivity|]. split; [|reflexivity]. eexists _, _. split; reflexivity.
  - intros sd' Hin. vm_compute in Hin.
    apply elem_of_cons in Hin as [->|Hin]; [done|].
    apply elem_of_cons in Hin as [->|Hin]; [done|]. by apply elem_of_nil in Hin.
Defined.

(** ** Which entries a group touches *)

Lemma find_location_name (target : string) (locations : list location)
    (court_name court_id : string) :
  find_location target locations = Some (court_name, court_id) → court_name = target.
Proof.
  induction locations as [|loc locs IH]; simpl; [done|].
  destruct (default (NameStr "") (loc_name loc)) as [s|]; [|done].
  destruct (String.eqb_spec s target) as [->|Hne]; [|done]. by intros [= <- _].
Qed.

Lemma inferred_court_name (sd : slot_data) :
  (inferred_court sd).1 = "Squash Court 1" ∨ (inferred_court sd).1 = "Squash Court 2".
Proof.
  unfold inferred_court, target_court.
  destruct (_ && _); simpl.
  - right. destruct (find_location _ _) as [[cn cid]|] eqn:F; [|done].
    apply find_location_name in F as ->. done.
  - left. destruct (find_location _ _) as [[cn cid]|] eqn:F; [|done].
    apply find_location_name in F as ->. done.
Qed.

Lemma multiple_slot_step_grows (ci : gmap string court) (sd : slot_data) :
  grows ci (multiple_slot_step ci sd).
Proof. unfold multiple_slot_step. destruct (inferred_court sd). apply record_period_grows. Qed.

(** X5.  A group of several items is recorded under the two names
    "Squash Court 1" and "Squash Court 2" only: every entry under
    another name is left as it was, and the entries the map had keep
    their id and their periods. *)
Theorem multiple_court_slots_touch_two_names (group : list slot_data)
    (court_info : gmap string court) :
  (∀ name, name ≠ "Squash Court 1" → name ≠ "Squash Court 2" →
     _process_multiple_court_slots group court_info !! name = court_info !! name) ∧
  grows court_info (_process_multiple_court_slots group court_info).
Proof.
  unfold _process_multiple_court_slots. split.
  - intros name H1 H2. generalize (sort_by_identifier group) as l. intros l.
    revert court_info. induction l as [|sd l IH]; intros ci; simpl; [done|].
    rewrite IH, multiple_slot_step_spec. apply lookup_insert_ne.
    destruct (inferred_court_name sd) as [-> | ->]; done.
  - apply fold_left_grows. intros ci sd. apply multiple_slot_step_grows.
Qed.

Lemma single_slot_location_spec (sd : slot_data) (ci : gmap string court) (loc : location) :
  single_slot_location sd ci loc =
  <[location_court_name loc :=
      recorded sd (default (new_court (Py.str_or (default "" (loc_identifier loc))
                                         (identifier_or_unknown sd)))
                     (ci !! location_court_name loc))]> ci.
Proof.
  unfold single_slot_location, location_court_name. rewrite record_period_spec.
  by destruct (default (NameStr "") (loc_name loc)) as [s|]; [destruct (Py.truthy s)|].
Qed.

Lemma holds_period_recorded (sd : slot_data) (name cid : string) (ci : gmap string court) :
  holds_period sd name (<[name := recorded sd (default (new_court cid) (ci !! name))]> ci).
Proof.
  eexists. split; [apply lookup_insert_eq|]. split.
  - simpl. apply elem_of_app. right. by left.
  - simpl. intros ?%Z.ltb_lt. rewrite orb_true_iff. by right.
Qed.

Lemma holds_period_kept (sd : slot_data) (name name' cid : string)
    (ci : gmap string court) :
  holds_period sd name ci →
  holds_period sd name (<[name' := recorded sd (default (new_court cid) (ci !! name'))]> ci).
Proof.
  intros (c & Hc & Hp & Ha). destruct (decide (name' = name)) as [->|Hne].
  - apply holds_period_recorded.
  - exists c. by rewrite lookup_insert_ne.
Qed.

Lemma holds_period_locations (sd : slot_data) (name : string) (locations : list location) :
  ∀ ci, holds_period sd name ci →
        holds_period sd name (fold_left (single_slot_location sd) locations ci).
Proof.
  induction locations as [|loc locs IH]; intros ci H; simpl; [done|].
  apply IH. rewrite single_slot_location_spec. by apply holds_period_kept.
Qed.

(** X6.  An item that is alone at its start time is recorded once under
    each of its locations: under the location's name, or under
    "Squash Court (<location id>)" when the name is empty, absent or
    not a string.  Each of these entries holds the item's period, and
    is available when the item has uses left; entries under other names
    are left as they were. *)
Theorem single_slot_is_recorded_per_location (sd : slot_data)
    (court_info : gmap string court) :
  (∀ loc, loc ∈ locations_of sd →
     ∃ c, record_single_slot sd court_info !! location_court_name loc = Some c ∧
          period_of sd ∈ slots c ∧
          (0 < remaining_of sd → available c = true)) ∧
  (∀ name, locations_of sd ≠ [] →
     name ∉ location_court_name <$> locations_of sd →
     record_single_slot sd court_info !! name = court_info !! name).
Proof.
  unfold record_single_slot. split.
  - intros loc Hloc. destruct (locations_of sd) as [|l0 locs] eqn:E; [by apply elem_of_nil in Hloc|].
    rewrite <- E in *. clear E. revert court_info.
    induction (locations_of sd) as [|l1 rest IH]; intros ci; [by apply elem_of_nil in Hloc|].
    simpl. apply elem_of_cons in Hloc as [->|Hloc].
    + apply holds_period_locations. rewrite single_slot_location_spec.
      apply holds_period_recorded.
    + by apply IH.
  - intros name Hne Hname. destruct (locations_of sd) as [|l0 locs] eqn:E; [done|].
    rewrite <- E in *. clear E Hne. revert court_info.
    induction (locations_of sd) as [|l1 rest IH]; intros ci; [done|].
    simpl. rewrite IH.
    + rewrite single_slot_location_spec. apply lookup_insert_ne.
      intros <-. apply Hname. simpl. by left.
    + intros ?. apply Hname. simpl. by right.
Qed.

(** ** Pages that do not end the feed *)

Lemma fetch_loop_leads (w : feed) (pages : list (list slot_item)) :
  ∀ (k : nat) (next_url : option string) (acc : list slot_item) (fuel k' : nat)
    (url' : string),
    leads w k (url_or_base next_url) pages k' url' →
    (k + length pages ≤ 1000)%nat →
    k' = (k + length pages)%nat ∧
    ∃ next_url', url_or_base next_url' = url' ∧
      fetch_loop (length pages + fuel) w acc next_url k =
      fetch_loop fuel w (acc ++ concat pages) next_url' k'.
Proof.
  induction pages as [|page rest IH]; intros k next_url acc fuel k' url' Hl Hk;
    inversion Hl as [? ? | ? ? items next ? ? ? Hw Hnext Hmore Hrest]; subst.
  - split; [simpl; lia|]. exists next_url. split; [done|]. simpl. by rewrite app_nil_r.
  - simpl in Hk.
    destruct (IH (S k) (Some next) (acc ++ default [] items) fuel k' url') as (-> & nu & Hnu & Hrun);
      [by rewrite url_or_base_some | lia |].
    split; [simpl; lia|]. exists nu. split; [done|].
    simpl. unfold fetch_slots. rewrite Hw. simpl.
    assert (no_items {| pg_items := items; pg_next := Some next |}
            && bool_decide (Some next = Some (url_or_base next_url)) = false) as ->.
    { apply andb_false_iff. destruct items as [[|i items]|]; simpl in *; [right | by left | right];
        apply bool_decide_eq_false_2; intros [= E]; by apply Hmore. }
    unfold Py.truthy. rewrite (proj2 (String.eqb_neq next "")) by done. simpl.
    destruct (Nat.ltb_spec 1000 (S k)) as [?|_]; [lia|].
    assert (match items with Some items0 => acc ++ items0 | None => acc end =
            acc ++ default [] items) as -> by (destruct items; simpl; [done | by rewrite app_nil_r]).
    rewrite Hrun. by rewrite <- app_assoc.
Qed.

(** X7.  A request that fails after some pages were fetched ends the
    whole [fetch_all_slots]: with a [RequestException] the program
    exits with status 1, any other exception is passed on, and the
    items of the pages fetched so far are not returned. *)
Theorem failure_discards_fetched_pages (w : feed) (pages : list (list slot_item))
    (k : nat) (url : string) (e : exn) (fuel : nat) :
  leads w 0 BASE_URL pages k url →
  (length pages ≤ 1000)%nat →
  (length pages < fuel)%nat →
  w k url = Failed e →
  fetch_all_slots fuel w =
  Raise (if is_RequestException e then SystemExit 1 else e).
Proof.
  intros Hl Hlen Hfuel Hw. unfold fetch_all_slots.
  destruct (fetch_loop_leads w pages 0 None [] (fuel - length pages) k url Hl)
    as (Hk & nu & Hnu & Hrun); [simpl; lia|]. simpl in Hk, Hrun. subst k.
  replace (length pages + (fuel - length pages))%nat with fuel in Hrun by lia.
  rewrite Hrun. destruct (fuel - length pages)%nat as [|fuel'] eqn:E; [lia|].
  simpl. unfold fetch_slots. rewrite Hnu, Hw. by destruct (is_RequestException e).
Qed.

(** X7, witness: the second request fails. *)
Lemma dropped_feed_exits :
  fetch_all_slots 2 dropped_feed = Raise (SystemExit 1).
Proof.
  apply (failure_discards_fetched_pages dropped_feed [[numbered_item 0]] 1
           (BASE_URL +:+ "?afterTimestamp=1") (RequestException "connection reset") 2).
  - apply (leads_next dropped_feed 0 BASE_URL (Some [numbered_item 0])
             (BASE_URL +:+ "?afterTimestamp=1") [] 1 (BASE_URL +:+ "?afterTimestamp=1")).
    + reflexivity.
    + done.
    + by intros [? _].
    + apply leads_here.
  - simpl. lia.
  - simpl. lia.
  - reflexivity.
Defined.

(** X8.  A page without a [next] URL (absent or empty) ends
    [fetch_all_slots] as well, and its own items are part of the
    result: the items of all the pages fetched, in arrival order. *)
Theorem page_without_next_ends_the_feed (w : feed) (pages : list (list slot_item))
    (k : nat) (url : string) (items : option (list slot_item)) (next : option string)
    (fuel : nat) :
  leads w 0 BASE_URL pages k url →
  (length pages ≤ 1000)%nat →
  (length pages < fuel)%nat →
  w k url = Body {| pg_items := items; pg_next := next |} →
  default "" next = "" →
  fetch_all_slots fuel w =
  Ret {| all_slots := concat pages ++ default [] items;
         page_count := S (length pages);
         stopped := NoNext; printed := [] |}.
Proof.
  intros Hl Hlen Hfuel Hw Hnext. unfold fetch_all_slots.
  destruct (fetch_loop_leads w pages 0 None [] (fuel - length pages) k url Hl)
    as (Hk & nu & Hnu & Hrun); [simpl; lia|]. simpl in Hk, Hrun. subst k.
  replace (length pages + (fuel - length pages))%nat with fuel in Hrun by lia.
  rewrite Hrun. destruct (fuel - length pages)%nat as [|fuel'] eqn:E; [lia|].
  simpl. unfold fetch_slots. rewrite Hnu, Hw. simpl.
  assert (bool_decide (next = Some url) = false) as ->.
  { apply bool_decide_eq_false_2. intros ->. simpl in Hnext.
    apply (url_or_base_nonempty nu). congruence. }
  rewrite andb_false_r, Hnext. simpl.
  destruct items; simpl; [done | by rewrite app_nil_r].
Qed.

(** X8, witness: the second page has no [next]. *)
Lemma unlinked_feed_is_fetched :
  fetch_all_slots 2 unlinked_feed =
  Ret {| all_slots := [numbered_item 0; numbered_item 1]; page_count := 2;
         stopped := NoNext; printed := [] |}.
Proof.
  apply (page_without_next_ends_the_feed unlinked_feed [[numbered_item 0]] 1
           (BASE_URL +:+ "?afterTimestamp=1") (Some [numbered_item 1]) None 2).
  - apply (leads_next unlinked_feed 0 BASE_URL (Some [numbered_item 0])
             (BASE_URL +:+ "?afterTimestamp=1") [] 1 (BASE_URL +:+ "?afterTimestamp=1")).
    + reflexivity.
    + done.
    + by intros [? _].
    + apply leads_here.
  - simpl. lia.
  - simpl. lia.
  - reflexivity.
  - reflexivity.
Defined.

(** ** What the filter keeps *)

Lemma foldM_app {A S : Type} (f : S → A → outcome S) (l1 l2 : list A) (s : S) :
  foldM f (l1 ++ l2) s = foldM f l1 s ≫= foldM f l2.
Proof.
  revert s. induction l1 as [|x l1 IH]; intros s; simpl; [done|].
  destruct (f s x); simpl; [apply IH | done | done].
Qed.

Lemma one_offset_tested (fromisoformat : string → option datetime) (z : option Z)
    (feed_items : list slot_item) :
  forallb (offset_test fromisoformat z) feed_items = true →
  one_offset fromisoformat z feed_items.
Proof.
  intros H i s e Hi Hts. rewrite forallb_forall in H.
  specialize (H i (proj1 (list_elem_of_In _ _) Hi)).
  unfold offset_test in H. rewrite Hts in H.
  apply andb_true_iff in H as [H1 H2].
  split; by eapply bool_decide_eq_true.
Qed.

Section FilterKeeps.

Variable fromisoformat : string → option datetime.

Lemma filter_step_one_offset (z : option Z) (d a b : Z) (st : filter_state)
    (slot_item : slot_item) :
  bounds_at z d a b st →
  (∀ s e, squash_timestamps fromisoformat slot_item = Some (s, e) →
          tzinfo s = z ∧ tzinfo e = z) →
  ∃ st', filter_step fromisoformat st slot_item = Ret st' ∧
         bounds_at z d a b st' ∧
         filtered_slots st' =
         filtered_slots st ++
         (if in_window fromisoformat z d a b slot_item then [slot_item] else []).
Proof.
  intros (Hos & Hms & Hoe & Hme & Hzs & Hze) Hz. unfold in_window.
  destruct (squash_timestamps fromisoformat slot_item) as [[s e]|] eqn:Hts.
  - destruct (Hz s e eq_refl) as [Hs He].
    rewrite (filter_step_compare fromisoformat st slot_item s e Hts). cbv zeta.
    set (ts := adopt_tzinfo (target_start st) s).
    set (te := adopt_tzinfo (target_end st) e).
    destruct (adopt_fields (target_start st) s) as [Ho1 Hm1].
    destruct (adopt_fields (target_end st) e) as [Ho2 Hm2].
    fold ts in Ho1, Hm1. fold te in Ho2, Hm2.
    assert (tzinfo ts = z) as Htzs.
    { unfold ts. rewrite adopt_tz. destruct Hzs as [-> | Hzs]; [done|].
      rewrite Hzs. by destruct z. }
    assert (tzinfo te = z) as Htze.
    { unfold te. rewrite adopt_tz. destruct Hze as [-> | Hze]; [done|].
      rewrite Hze. by destruct z. }
    assert (bounds_at z d a b {| target_start := ts; target_end := te;
                                 filtered_slots := [] |}) as (_ & _ & _ & _ & Hb1 & Hb2).
    { unfold bounds_at. simpl. rewrite Ho1, Ho2, Hm1, Hm2, Htzs, Htze. tauto. }
    assert (instant ts = bound d a z) as Hits
      by (unfold instant, bound; rewrite Ho1, Hm1, Htzs, Hos, Hms; done).
    assert (instant te = bound d b z) as Hite
      by (unfold instant, bound; rewrite Ho2, Hm2, Htze, Hoe, Hme; done).
    rewrite Ho1, Hos.
    destruct (ordinal s =? d) eqn:Hord; simpl.
    + rewrite (time_overlaps_decided s e ts te)
        by (apply aware_tz; congruence).
      rewrite Hits, Hite.
      assert (bool_decide (instant s < bound d b z ∧ instant e > bound d a z) =
              (instant s <? bound d b z) && (bound d a z <? instant e)) as ->.
      { case_bool_decide as H.
        - symmetry. apply andb_true_iff. rewrite !Z.ltb_lt. lia.
        - symmetry. apply andb_false_iff. rewrite !Z.ltb_ge. lia. }
      simpl. eexists. split; [done|]. split.
      * unfold bounds_at. simpl. rewrite Ho1, Ho2, Hm1, Hm2. tauto.
      * simpl. destruct (_ && _); [done | by rewrite app_nil_r].
    + eexists. split; [done|]. split.
      * unfold bounds_at. simpl. rewrite Ho1, Ho2, Hm1, Hm2. tauto.
      * simpl. by rewrite app_nil_r.
  - rewrite (filter_step_skip fromisoformat st slot_item Hts).
    exists st. split; [done|]. split; [done | by rewrite app_nil_r].
Qed.

Lemma filter_loop_one_offset (z : option Z) (d a b : Z) (slots : list slot_item) :
  one_offset fromisoformat z slots →
  ∀ st, bounds_at z d a b st →
    ∃ st', foldM (filter_step fromisoformat) slots st = Ret st' ∧
           filtered_slots st' =
           filtered_slots st ++ List.filter (in_window fromisoformat z d a b) slots.
Proof.
  induction slots as [|slot_item slots IH]; intros Hz st Hb; simpl.
  - exists st. by rewrite app_nil_r.
  - destruct (filter_step_one_offset z d a b st slot_item Hb) as (st1 & -> & Hb1 & Hf1).
    { intros s e. apply Hz. by left. }
    simpl. destruct (IH (λ i s e Hi, Hz i s e (list_elem_of_further _ _ _ Hi)) st1 Hb1)
      as (st' & -> & Hf).
    exists st'. split; [done|]. rewrite Hf, Hf1, <- app_assoc.
    by destruct (in_window fromisoformat z d a b slot_item).
Qed.

(** The items a run of the loop appends: a sublist of the items it
    went through, each with two timestamps that parse and a start on
    the window's day. *)
Lemma filter_step_appends (st st' : filter_state) (slot_item : slot_item) :
  filter_step fromisoformat st slot_item = Ret st' →
  ordinal (target_start st') = ordinal (target_start st) ∧
  (filtered_slots st' = filtered_slots st ∨
   filtered_slots st' = filtered_slots st ++ [slot_item] ∧
   ∃ s e, squash_timestamps fromisoformat slot_item = Some (s, e) ∧
          ordinal s = ordinal (target_start st)).
Proof.
  destruct (squash_timestamps fromisoformat slot_item) as [[s e]|] eqn:Hts.
  - rewrite (filter_step_compare fromisoformat st slot_item s e Hts). cbv zeta.
    destruct (adopt_fields (target_start st) s) as [Ho1 _]. rewrite Ho1.
    destruct (ordinal s =? ordinal (target_start st)) eqn:Hord; simpl.
    + destruct (time_overlaps _ _ _ _) as [[|]| |]; simpl; [| |done|done];
        intros [= <-]; simpl; (split; [done|]); [right | by left].
      split; [done|]. exists s, e. split; [done|]. by apply Z.eqb_eq.
    + intros [= <-]. simpl. split; [done | by left].
  - rewrite (filter_step_skip fromisoformat st slot_item Hts). intros [= <-].
    split; [done | by left].
Qed.

Lemma filter_loop_appends (slots : list slot_item) :
  ∀ st st', foldM (filter_step fromisoformat) slots st = Ret st' →
    ∃ new, filtered_slots st' = filtered_slots st ++ new ∧
           new `sublist_of` slots ∧
           ∀ slot_item, slot_item ∈ new →
             ∃ s e, squash_timestamps fromisoformat slot_item = Some (s, e) ∧
                    ordinal s = ordinal (target_start st).
Proof.
  induction slots as [|slot_item slots IH]; intros st st'; simpl.
  - intros [= <-]. exists []. rewrite app_nil_r. split; [done|]. split; [done|].
    by intros ? ?%elem_of_nil.
  - destruct (filter_step fromisoformat st slot_item) as [st1| |] eqn:Hstep; simpl; [|done|done].
    intros Hrest. destruct (IH st1 st' Hrest) as (new & Hnew & Hsub & Hold).
    destruct (filter_step_appends st st1 slot_item Hstep) as [Hord [Hsame | [Happ Hts]]].
    + exists new. rewrite Hnew, Hsame. split; [done|]. split; [by apply sublist_cons_r; left|].
      intros i Hi. rewrite <- Hord. by apply Hold.
    + exists (slot_item :: new). rewrite Hnew, Happ, <- app_assoc. split; [done|].
      split; [by apply sublist_skip|].
      intros i [->|Hi]%elem_of_cons; [done|]. rewrite <- Hord. by apply Hold.
Qed.

Lemma filter_step_raises (st : filter_state) (slot_item : slot_item) (x : exn) :
  filter_step fromisoformat st slot_item = Raise x → x = TypeError naive_aware_message.
Proof.
  destruct (squash_timestamps fromisoformat slot_item) as [[s e]|] eqn:Hts.
  - rewrite (filter_step_compare fromisoformat st slot_item s e Hts). cbv zeta.
    destruct (_ =? _); simpl; [|done].
    unfold time_overlaps, Datetime.gt, Datetime.lt.
    destruct (Bool.eqb (aware s) _); simpl; [|by intros [= <-]].
    destruct (_ <? _); simpl; [|done].
    destruct (Bool.eqb _ (aware e)); simpl; [done | by intros [= <-]].
  - by rewrite (filter_step_skip fromisoformat st slot_item Hts).
Qed.

Lemma filter_loop_raises (slots : list slot_item) (x : exn) :
  ∀ st, foldM (filter_step fromisoformat) slots st = Raise x →
        x = TypeError naive_aware_message.
Proof.
  induction slots as [|slot_item slots IH]; intros st; simpl; [done|].
  destruct (filter_step fromisoformat st slot_item) as [st1| |] eqn:Hstep; simpl; [|
    intros [= <-]; by eapply filter_step_raises | done].
  apply IH.
Qed.

End FilterKeeps.

(** ** The filter, feed by feed *)

Lemma parse_datetime_stripped (date time_str : string) (d t : Z) :
  strptime_Ymd (rstrip date) = Some d → strptime_HM time_str = Some t →
  parse_datetime date time_str = Ret (at_minute d t).
Proof.
  intros Hd Ht. unfold parse_datetime, strptime_date_time. by rewrite Hd, Ht.
Qed.

Lemma filter_from_bounds (fromisoformat : string → option datetime) (z : option Z)
    (slots : list slot_item) (target_date start_time end_time : string) (d a b : Z) :
  parse_datetime target_date start_time = Ret (at_minute d a) →
  parse_datetime target_date end_time = Ret (at_minute d b) →
  one_offset fromisoformat z slots →
  filter_squash_slots_by_time fromisoformat slots target_date start_time end_time =
  Ret (List.filter (in_window fromisoformat z d a b) slots).
Proof.
  intros Ha Hb Hz. unfold filter_squash_slots_by_time. rewrite Ha, Hb. simpl.
  destruct (filter_loop_one_offset fromisoformat z d a b slots Hz
              {| target_start := at_minute d a; target_end := at_minute d b;
                 filtered_slots := [] |}) as (st' & -> & Hf).
  { unfold bounds_at. simpl. tauto. }
  simpl. by rewrite Hf.
Qed.

(** X9.  On a feed whose timestamps all carry the same UTC offset (or
    are all naive), the filter returns, in feed order, exactly the
    items of the squash facility whose two timestamps parse, whose
    start is on the target date and whose period overlaps the window,
    the window being read at the feed's offset. *)
Theorem filter_on_one_offset (fromisoformat : string → option datetime) (z : option Z)
    (slots : list slot_item) (target_date start_time end_time : string) (d a b : Z) :
  strptime_Ymd (rstrip target_date) = Some d →
  strptime_HM start_time = Some a →
  strptime_HM end_time = Some b →
  one_offset fromisoformat z slots →
  filter_squash_slots_by_time fromisoformat slots target_date start_time end_time =
  Ret (List.filter (in_window fromisoformat z d a b) slots).
Proof.
  intros Hd Ha Hb Hz.
  apply filter_from_bounds; [by apply parse_datetime_stripped .. | done].
Qed.

(** X9, witness: the before window of 10:00 on the morning's items, all
    at offset 0. *)
Lemma morning_items_before_ten :
  filter_squash_slots_by_time iso_basic morning_items "2026-02-03" "09:20" "10:00" =
  Ret [free_court_0920; booked_court_0920].
Proof.
  apply (filter_on_one_offset iso_basic (Some 0) morning_items
           "2026-02-03" "09:20" "10:00" 739650 560 600).
  - reflexivity.
  - reflexivity.
  - reflexivity.
  - apply one_offset_tested. vm_compute. reflexivity.
Defined.

(** X10.  Whatever the feed, the items the filter returns are a sublist
    of its input (nothing is added, repeated or reordered), and each of
    them has data of the squash facility, two timestamps that parse and
    a start on the target date. *)
Theorem filter_keeps_a_sublist (fromisoformat : string → option datetime)
    (slots : list slot_item) (target_date start_time end_time : string)
    (kept : list slot_item) :
  filter_squash_slots_by_time fromisoformat slots target_date start_time end_time
    = Ret kept →
  kept `sublist_of` slots ∧
  ∃ d, strptime_Ymd (rstrip target_date) = Some d ∧
       ∀ slot_item, slot_item ∈ kept →
         ∃ s e, squash_timestamps fromisoformat slot_item = Some (s, e) ∧ ordinal s = d.
Proof.
  unfold filter_squash_slots_by_time, parse_datetime, strptime_date_time.
  destruct (strptime_Ymd (rstrip target_date)) as [d|]; simpl; [|done].
  destruct (strptime_HM start_time) as [a|]; simpl; [|done].
  destruct (strptime_HM end_time) as [b|]; simpl; [|done].
  destruct (foldM _ _ _) as [st'| |] eqn:Hloop; simpl; [|done|done].
  intros [= <-].
  destruct (filter_loop_appends fromisoformat slots _ _ Hloop) as (new & Hnew & Hsub & Hall).
  simpl in Hnew, Hall. rewrite Hnew. split; [done|]. by exists d.
Qed.

(** X10, witness: the one item of a one-item feed. *)
Lemma misfiled_item_is_kept :
  [misfiled_item] `sublist_of` [misfiled_item] ∧
  ∃ d, strptime_Ymd (rstrip "2026-02-03") = Some d ∧
       ∀ slot_item, slot_item ∈ [misfiled_item] →
         ∃ s e, squash_timestamps iso_basic slot_item = Some (s, e) ∧ ordinal s = d.
Proof.
  apply (filter_keeps_a_sublist iso_basic [misfiled_item] "2026-02-03" "10:00" "10:40").
  vm_compute. reflexivity.
Defined.

(** X11.  On items whose fields have the types of the feed's records,
    the filter fails in two ways only: a date or a bound of the window
    that does not parse ends the program with exit status 1, and the
    comparison of a naive with an offset-aware datetime raises
    [TypeError]; timestamps that are missing or do not parse never make
    it fail. *)
Theorem filter_failure_modes (fromisoformat : string → option datetime)
    (slots : list slot_item) (target_date start_time end_time : string) (x : exn) :
  filter_squash_slots_by_time fromisoformat slots target_date start_time end_time
    = Raise x →
  (x = SystemExit 1 ∧
   (strptime_date_time target_date start_time = None ∨
    strptime_date_time target_date end_time = None)) ∨
  (x = TypeError naive_aware_message ∧
   is_Some (strptime_date_time target_date start_time) ∧
   is_Some (strptime_date_time target_date end_time)).
Proof.
  unfold filter_squash_slots_by_time, parse_datetime.
  destruct (strptime_date_time target_date start_time) as [ts|]; simpl;
    [| intros [= <-]; left; split; [done | by left]].
  destruct (strptime_date_time target_date end_time) as [te|]; simpl;
    [| intros [= <-]; left; split; [done | by right]].
  destruct (foldM _ _ _) as [st'| |] eqn:Hloop; simpl; [done | | done].
  intros [= <-]. right. split; [by eapply filter_loop_raises | by split].
Qed.

(** X11, witness: a date that is no date. *)
Lemma filter_rejects_a_bad_date :
  (SystemExit 1 = SystemExit 1 ∧
   (strptime_date_time "2026-02-30" "10:00" = None ∨
    strptime_date_time "2026-02-30" "10:40" = None)) ∨
  (SystemExit 1 = TypeError naive_aware_message ∧
   is_Some (strptime_date_time "2026-02-30" "10:00") ∧
   is_Some (strptime_date_time "2026-02-30" "10:40")).
Proof.
  apply (filter_failure_modes iso_basic morning_items "2026-02-30" "10:00" "10:40").
  vm_compute. reflexivity.
Defined.

(** X12.  Once the window's bounds have taken the offset of an aware
    item, a naive item that starts on the target date cannot be
    compared with them: the filter raises [TypeError], whatever follows
    in the feed. *)
Theorem naive_after_aware_raises (fromisoformat : string → option datetime)
    (rest : list slot_item) (first slot_item : slot_item)
    (target_date start_time end_time : string) (s0 e0 s e : datetime) (a b : Z) :
  squash_timestamps fromisoformat first = Some (s0, e0) →
  aware s0 = true → aware e0 = true →
  squash_timestamps fromisoformat slot_item = Some (s, e) →
  aware s = false →
  strptime_Ymd (rstrip target_date) = Some (ordinal s) →
  strptime_HM start_time = Some a →
  strptime_HM end_time = Some b →
  filter_squash_slots_by_time fromisoformat (first :: slot_item :: rest)
    target_date start_time end_time = Raise (TypeError naive_aware_message).
Proof.
  intros H0 Hs0 He0 H1 Hs Hd Ha Hb. unfold filter_squash_slots_by_time.
  rewrite (parse_datetime_stripped _ _ _ _ Hd Ha), (parse_datetime_stripped _ _ _ _ Hd Hb).
  simpl.
  rewrite (filter_step_compare fromisoformat _ first s0 e0 H0). cbv zeta. simpl.
  change (adopt_tzinfo (at_minute (ordinal s) a) s0)
    with (replace_tzinfo (tzinfo s0) (at_minute (ordinal s) a)).
  change (adopt_tzinfo (at_minute (ordinal s) b) e0)
    with (replace_tzinfo (tzinfo e0) (at_minute (ordinal s) b)).
  assert (∀ tz x, aware x = true → aware (replace_tzinfo (tzinfo x) tz) = true) as Haw.
  { intros tz x. unfold aware. simpl. done. }
  assert (∃ keep,
    (if ordinal s0 =? ordinal s
     then time_overlaps s0 e0 (replace_tzinfo (tzinfo s0) (at_minute (ordinal s) a))
            (replace_tzinfo (tzinfo e0) (at_minute (ordinal s) b))
     else Ret false) = Ret keep) as [keep ->].
  { destruct (_ =? _); [|by eexists].
    rewrite time_overlaps_decided; [by eexists | |]; rewrite Haw; done. }
  simpl.
  rewrite (filter_step_compare fromisoformat _ slot_item s e H1). cbv zeta. simpl.
  unfold adopt_tzinfo. simpl.
  assert (is_Some (tzinfo s0) ∧ is_Some (tzinfo e0)) as [[zs Hzs] [ze Hze]].
  { unfold aware in Hs0, He0. split; by eapply bool_decide_eq_true. }
  rewrite Hzs, Hze. simpl. rewrite Z.eqb_refl.
  unfold time_overlaps, Datetime.lt. rewrite Hs. simpl. done.
Qed.

(** X12, witness: a naive 09:20 item after an aware one. *)
Lemma naive_item_breaks_the_filter :
  filter_squash_slots_by_time iso_basic (free_court_0920 :: naive_item :: [])
    "2026-02-03" "09:20" "10:00" = Raise (TypeError naive_aware_message).
Proof.
  apply (naive_after_aware_raises iso_basic [] free_court_0920 naive_item
           "2026-02-03" "09:20" "10:00"
           {| ordinal := 739650; micros := 560 * us_per_minute; tzinfo := Some 0 |}
           {| ordinal := 739650; micros := 600 * us_per_minute; tzinfo := Some 0 |}
           {| ordinal := 739650; micros := 560 * us_per_minute; tzinfo := None |}
           {| ordinal := 739650; micros := 600 * us_per_minute; tzinfo := None |}
           560 600); reflexivity.
Defined.

(** X13.  An item the filter cannot read (no data, another facility, a
    start or end that is missing or does not parse) is passed over
    without an error: the filter's result is the same with and without
    it. *)
Theorem unreadable_items_are_skipped (fromisoformat : string → option datetime)
    (before after : list slot_item) (slot_item : slot_item)
    (target_date start_time end_time : string) :
  squash_timestamps fromisoformat slot_item = None →
  filter_squash_slots_by_time fromisoformat (before ++ slot_item :: after)
    target_date start_time end_time =
  filter_squash_slots_by_time fromisoformat (before ++ after)
    target_date start_time end_time.
Proof.
  intros Hts. unfold filter_squash_slots_by_time.
  destruct (parse_datetime target_date start_time) as [ts| |]; simpl; [|done|done].
  destruct (parse_datetime target_date end_time) as [te| |]; simpl; [|done|done].
  rewrite !foldM_app.
  destruct (foldM _ before _) as [st| |]; simpl; [|done|done].
  by rewrite (filter_step_skip fromisoformat st slot_item Hts).
Qed.

(** X13, witness: an item without data between two items. *)
Lemma bare_item_is_skipped :
  filter_squash_slots_by_time iso_basic ([free_court_0920] ++ bare_item :: [booked_court_0920])
    "2026-02-03" "09:20" "10:00" =
  filter_squash_slots_by_time iso_basic ([free_court_0920] ++ [booked_court_0920])
    "2026-02-03" "09:20" "10:00".
Proof.
  apply (unreadable_items_are_skipped iso_basic [free_court_0920] [booked_court_0920]
           bare_item "2026-02-03" "09:20" "10:00").
  reflexivity.
Defined.

(** ** Runs that end in an error report, and runs that do not *)

Lemma booking_url_built (target_date : string) (d m : Z) :
  strptime_Ymd target_date = Some d → 2 ≤ d →
  ∃ url, build_booking_url target_date (clock m) = Ret url.
Proof.
  intros Hd Hd2. unfold build_booking_url, strptime_date_T_time.
  rewrite Hd, clock_parses. simpl.
  assert (0 ≤ m `mod` 1440 < 1440) as Hr by (apply Z.mod_pos_bound; lia).
  unfold add_minutes_checked, add_minutes. simpl.
  apply strptime_Ymd_range in Hd.
  assert (-1 ≤ (m `mod` 1440 * us_per_minute + -40 * us_per_minute) `div` us_per_day ≤ 0)
    as Hdiv.
  { generalize (m `mod` 1440) Hr. intros n Hn. unfold us_per_minute, us_per_day.
    split.
    - apply Z.div_le_lower_bound; lia.
    - apply Z.lt_succ_r. apply Z.div_lt_upper_bound; lia. }
  destruct (Z.leb_spec 1 (d + (m `mod` 1440 * us_per_minute + -40 * us_per_minute)
                                `div` us_per_day)); [|lia].
  destruct (Z.leb_spec (d + (m `mod` 1440 * us_per_minute + -40 * us_per_minute)
                              `div` us_per_day) max_ordinal); [|lia].
  simpl. eauto.
Qed.

Lemma strptime_Ymd_stripped (target_date : string) (d : Z) :
  strptime_Ymd target_date = Some d → strptime_Ymd (rstrip target_date) = Some d.
Proof.
  intros H. by rewrite (rstrip_ends_in_digit _ (strptime_Ymd_ends_in_digit _ _ H)).
Qed.






(** X16.  When fetching the feed raises an exception other than a
    [RequestException] (whatever the page it comes from), the run ends
    in the error report: no success, the exception's text in the
    message and under ['error'], and the booking link without
    parameters. *)
Theorem fetch_exception_is_reported (fromisoformat : string → option datetime)
    (fuel : nat) (w : feed) (target_date start_time : string) (t : Z) (e : exn) :
  strptime_HM start_time = Some t →
  fetch_all_slots fuel w = Raise e →
  is_Exception e = true →
  check_availability_programmatic fromisoformat fuel w target_date start_time =
  Ret (ErrorResult ("Error checking availability: " +:+ str_exn e) GENERIC_URL (str_exn e)).
Proof.
  intros Ht Hf He.
  unfold check_availability_programmatic, build_report, check_squash_availability.
  rewrite (window_bounds_spec _ _ Ht). simpl. rewrite Hf. simpl. by rewrite He.
Qed.

(** X16, witness: a body that is not JSON. *)
Lemma garbled_body_is_reported :
  check_availability_programmatic iso_basic 1001 garbled_feed "2026-02-03" "10:00" =
  Ret (ErrorResult "Error checking availability: Expecting value: line 1 column 1 (char 0)"
         GENERIC_URL "Expecting value: line 1 column 1 (char 0)").
Proof.
  apply (fetch_exception_is_reported iso_basic 1001 garbled_feed "2026-02-03" "10:00" 600
           (ValueError "Expecting value: line 1 column 1 (char 0)")); reflexivity.
Defined.

(** X17.  On a feed that is fetched and whose timestamps all carry one
    UTC offset, for a date after 0001-01-01 and a start time that
    parse, the run ends in a result: the two maps are the aggregation
    of the items in the main window and in the before window, the two
    counts are the numbers of available entries of these maps, and the
    message and [success] follow from the before count. *)
Theorem report_on_one_offset_feed (fromisoformat : string → option datetime)
    (z : option Z) (fuel : nat) (w : feed) (target_date start_time : string)
    (d t : Z) (f : fetched) :
  strptime_Ymd target_date = Some d → 2 ≤ d →
  strptime_HM start_time = Some t →
  fetch_all_slots fuel w = Ret f →
  one_offset fromisoformat z (all_slots f) →
  ∃ url,
    check_availability_programmatic fromisoformat fuel w target_date start_time =
    Ret (Result
           (verdict (count_available
              (window_info fromisoformat z d ((t - 40) `mod` 1440) t (all_slots f)))).2
           (verdict (count_available
              (window_info fromisoformat z d ((t - 40) `mod` 1440) t (all_slots f)))).1
           (count_available
              (window_info fromisoformat z d t ((t + 40) `mod` 1440) (all_slots f)))
           (count_available
              (window_info fromisoformat z d ((t - 40) `mod` 1440) t (all_slots f)))
           url
           (window_info fromisoformat z d t ((t + 40) `mod` 1440) (all_slots f))
           (window_info fromisoformat z d ((t - 40) `mod` 1440) t (all_slots f))
           (window_pair start_time t)).
Proof.
  intros Hd Hd2 Ht Hf Hz.
  pose proof (strptime_Ymd_stripped _ _ Hd) as Hds.
  destruct (booking_url_built target_date d (t - 40) Hd Hd2) as [url Hurl].
  exists url.
  unfold check_availability_programmatic, build_report, check_squash_availability.
  rewrite (window_bounds_spec _ _ Ht). simpl. rewrite Hf. simpl.
  rewrite (filter_from_bounds fromisoformat z (all_slots f) target_date start_time
             (clock (t + 40)) d t ((t + 40) `mod` 1440)
             (parse_datetime_stripped _ _ _ _ Hds Ht)
             (parse_datetime_stripped _ _ _ _ Hds (clock_parses _)) Hz).
  simpl.
  rewrite (filter_from_bounds fromisoformat z (all_slots f) target_date
             (clock (t - 40)) start_time d ((t - 40) `mod` 1440) t
             (parse_datetime_stripped _ _ _ _ Hds (clock_parses _))
             (parse_datetime_stripped _ _ _ _ Hds Ht) Hz).
  simpl. fold (window_info fromisoformat z d t ((t + 40) `mod` 1440) (all_slots f)).
  fold (window_info fromisoformat z d ((t - 40) `mod` 1440) t (all_slots f)).
  destruct (verdict _) as [message success]. simpl. rewrite Hurl. done.
Qed.

(** X17, witness for the report on a feed with one offset: 10:00 on the
    morning feed. *)
Lemma morning_report_at_ten :
  ∃ url,
    check_availability_programmatic iso_basic 1001 morning_feed "2026-02-03" "10:00" =
    Ret (Result true "There is one slot free before your booking" 1 1 url
           (window_info iso_basic (Some 0) 739650 600 640 morning_items)
           (window_info iso_basic (Some 0) 739650 560 600 morning_items)
           (window_pair "10:00" 600)).
Proof.
  apply (report_on_one_offset_feed iso_basic (Some 0) 1001 morning_feed "2026-02-03" "10:00"
           739650 600
           {| all_slots := morning_items; page_count := 2; stopped := LastPage;
              printed := [] |}).
  - reflexivity.
  - lia.
  - reflexivity.
  - vm_compute. reflexivity.
  - apply one_offset_tested. vm_compute. reflexivity.
Defined.

Lemma append_assoc (a b c : string) : (a +:+ b) +:+ c = a +:+ (b +:+ c).
Proof.
  induction a as [|x a IH]; [by rewrite !append_nil|].
  rewrite !append_cons. by f_equal.
Qed.

(** X18.  A target date followed by white space passes the filter
    ([strptime] lets the blank of ["%Y-%m-%d %H:%M"] match it) but not
    the booking link's parser: on a feed that is fetched and filtered
    without error, the run still ends in the error report. *)
Theorem padded_date_is_reported (fromisoformat : string → option datetime)
    (z : option Z) (fuel : nat) (w : feed) (target_date start_time : string)
    (d t : Z) (f : fetched) :
  strptime_Ymd (rstrip target_date) = Some d →
  rstrip target_date ≠ target_date →
  strptime_HM start_time = Some t →
  fetch_all_slots fuel w = Ret f →
  one_offset fromisoformat z (all_slots f) →
  ∃ msg,
    check_availability_programmatic fromisoformat fuel w target_date start_time =
    Ret (ErrorResult ("Error checking availability: " +:+ msg) GENERIC_URL msg).
Proof.
  intros Hds Hpad Ht Hf Hz.
  assert (strptime_Ymd target_date = None) as Hd.
  { destruct (strptime_Ymd target_date) as [d'|] eqn:E; [|done].
    exfalso. apply Hpad, rstrip_ends_in_digit. by eapply strptime_Ymd_ends_in_digit. }
  eexists.
  unfold check_availability_programmatic, build_report, check_squash_availability.
  rewrite (window_bounds_spec _ _ Ht). simpl. rewrite Hf. simpl.
  rewrite (filter_from_bounds fromisoformat z (all_slots f) target_date start_time
             (clock (t + 40)) d t ((t + 40) `mod` 1440)
             (parse_datetime_stripped _ _ _ _ Hds Ht)
             (parse_datetime_stripped _ _ _ _ Hds (clock_parses _)) Hz).
  simpl.
  rewrite (filter_from_bounds fromisoformat z (all_slots f) target_date
             (clock (t - 40)) start_time d ((t - 40) `mod` 1440) t
             (parse_datetime_stripped _ _ _ _ Hds (clock_parses _))
             (parse_datetime_stripped _ _ _ _ Hds Ht) Hz).
  simpl. destruct (verdict _) as [message success]. simpl.
  unfold build_booking_url, strptime_date_T_time. rewrite Hd. simpl. done.
Qed.

(** X18, witness: a blank after the date. *)
Lemma blank_after_the_date :
  ∃ msg,
    check_availability_programmatic iso_basic 1001 morning_feed "2026-02-03 " "10:00" =
    Ret (ErrorResult ("Error checking availability: " +:+ msg) GENERIC_URL msg).
Proof.
  apply (padded_date_is_reported iso_basic (Some 0) 1001 morning_feed "2026-02-03 " "10:00"
           739650 600
           {| all_slots := morning_items; page_count := 2; stopped := LastPage;
              printed := [] |}).
  - reflexivity.
  - done.
  - reflexivity.
  - vm_compute. reflexivity.
  - apply one_offset_tested. vm_compute. reflexivity.
Defined.

(** X19.  Every item the aggregation keeps also passes the filter's
    facility test: filtering first never removes, on the ground of the
    facility, an item that the aggregation would have kept. *)
Theorem kept_items_pass_the_filter_test (slot_item : slot_item) (sd : slot_data) :
  admitted slot_item = Some sd →
  get_data slot_item = Some sd ∧ is_squash (default "" (sd_facilityUse sd)) = true.
Proof.
  intros [Hdata Huse]%admitted_iff. split; [done|]. apply is_squash_iff.
  destruct Huse as [-> | [pre ->]].
  - by exists "", "".
  - exists (pre +:+ "/"), "". rewrite <- append_assoc. done.
Qed.

(** X19, witness: the free court of 09:20. *)
Lemma free_court_passes_both_tests :
  get_data free_court_0920 =
    Some (example_data "slot-0920-a" squash_use
            "2026-02-03T09:20:00Z" "2026-02-03T10:00:00Z" 1 (41 # 4) []) ∧
  is_squash (default "" (sd_facilityUse
    (example_data "slot-0920-a" squash_use
       "2026-02-03T09:20:00Z" "2026-02-03T10:00:00Z" 1 (41 # 4) []))) = true.
Proof.
  apply (kept_items_pass_the_filter_test free_court_0920). reflexivity.
Defined.



(** ** The booking link *)



(** ** The printed report *)

Lemma str_le_total : Total str_le.
Proof. intros a b. apply String.leb_total. Qed.

Lemma available_names_spec (court_info : court_items) (name : string) :
  name ∈ available_names court_info ↔
  ∃ c, (name, c) ∈ court_info ∧ available c = true.
Proof.
  unfold available_names. rewrite elem_of_list_to_set, list_elem_of_fmap. split.
  - intros ([n c] & -> & [Ha Hin]%list_elem_of_filter). by exists c.
  - intros (c & Hin & Ha). exists (name, c). split; [done|].
    by apply list_elem_of_filter.
Qed.

Lemma sorted_spec (s : gset string) :
  Sorted str_le (sorted s) ∧ NoDup (sorted s) ∧ ∀ name, name ∈ sorted s ↔ name ∈ s.
Proof.
  unfold sorted. split; [apply Sorted_merge_sort, str_le_total|]. split.
  - rewrite merge_sort_Permutation. apply NoDup_elements.
  - intros name. by rewrite merge_sort_Permutation, elem_of_elements.
Qed.

(** X21.  The last block of the printed report lists the courts that are
    available in both windows: each name once, in ascending order, and
    exactly the names that have an available entry in the main map and
    in the before map; when there is none, the block says so. *)
Theorem both_slots_block (main_court_info before_court_info : court_items) :
  ∃ names,
    Sorted str_le names ∧ NoDup names ∧
    (∀ name, name ∈ names ↔
       (∃ c, (name, c) ∈ main_court_info ∧ available c = true) ∧
       (∃ c, (name, c) ∈ before_court_info ∧ available c = true)) ∧
    both_slots_lines main_court_info before_court_info =
    [ newline +:+ "SQUASH COURTS AVAILABLE FOR BOTH SLOTS:"; times "-" 40 ] ++
    match names with
    | [] => [ "  No squash courts available for both time slots." ]
    | _ => "  🎯 Courts available for both time slots:"
           :: ((λ court, "    " +:+ court) <$> names)
    end.
Proof.
  exists (sorted (common_available main_court_info before_court_info)).
  destruct (sorted_spec (common_available main_court_info before_court_info))
    as (Hsorted & Hnodup & Hin).
  split; [done|]. split; [done|]. split.
  - intros name. rewrite Hin. unfold common_available.
    by rewrite elem_of_intersection, !available_names_spec.
  - unfold both_slots_lines. f_equal.
    destruct (decide (common_available main_court_info before_court_info = ∅)) as [He|Hne].
    + rewrite He. done.
    + destruct (sorted _) as [|n l] eqn:E; [|done].
      exfalso. apply Hne. apply set_eq. intros name. rewrite <- Hin.
      split; [by intros ?%elem_of_nil | by intros ?%elem_of_empty].
Qed.

Lemma court_line_shape (line : string) : "  " +:+ line = String " " (String " " line).
Proof. reflexivity. Qed.

Lemma link_line_in_window (title : string) (court_info : court_items)
    (start_time end_time : string) :
  "🔗 Click here to see which court is available:"
    ∈ window_lines title court_info start_time end_time →
  filter (λ kv, available kv.2 = true) court_info ≠ [] ∧
  Py.list_in "partial_booking" ((λ kv, id kv.2) <$> court_info) = true.
Proof.
  unfold window_lines.
  set (av := filter (λ kv, available kv.2 = true) court_info).
  set (un := filter (λ kv, available kv.2 ≠ true) court_info).
  assert (∀ l : list string,
            "🔗 Click here to see which court is available:"
              ∉ (λ court, "  " +:+ court) <$> l) as Hcourts.
  { intros l (line & Heq & _)%list_elem_of_fmap. rewrite court_line_shape in Heq. done. }
  intros [Htitle | [Hav | Hun]%elem_of_app]%elem_of_app.
  - apply elem_of_cons in Htitle as [Heq | Hrule].
    + unfold newline in Heq. rewrite append_cons in Heq. done.
    + apply list_elem_of_singleton in Hrule. done.
  - destruct av as [|kv av'] eqn:Eav; [by apply elem_of_nil in Hav|].
    split; [done|].
    apply elem_of_cons in Hav as [Heq | [Hline | Hnote]%elem_of_app].
    + exfalso. revert Heq. generalize (str (Z.of_nat (length (available_line <$> kv :: av')))).
      intros n Heq. rewrite !append_cons in Heq. done.
    + by apply Hcourts in Hline.
    + by destruct (Py.list_in _ _); [|apply elem_of_nil in Hnote].
  - exfalso. destruct un as [|kv un']; [by apply elem_of_nil in Hun|].
    apply elem_of_cons in Hun as [Heq | Hline].
    + revert Heq. generalize (str (Z.of_nat (length (unavailable_line <$> kv :: un')))).
      intros n Heq. rewrite !append_cons in Heq. done.
    + by apply Hcourts in Hline.
Qed.

(** X22.  In the block printed for a window, the lines that send the
    reader to the booking calendar are printed exactly when some entry
    of the window is available and some entry has the id
    "partial_booking". *)
Theorem partial_booking_note_is_printed (title : string) (court_info : court_items)
    (start_time end_time : string) :
  (∀ line, line ∈ partial_booking_note →
           line ∈ window_lines title court_info start_time end_time) ↔
  (∃ name c, (name, c) ∈ court_info ∧ available c = true) ∧
  (∃ name c, (name, c) ∈ court_info ∧ id c = "partial_booking").
Proof.
  assert (Py.list_in "partial_booking" ((λ kv, id kv.2) <$> court_info) = true ↔
          ∃ name c, (name, c) ∈ court_info ∧ id c = "partial_booking") as Hflag.
  { rewrite list_in_iff, list_elem_of_fmap. split.
    - intros ([n c] & Hid & Hin). by exists n, c.
    - intros (n & c & Hin & Hid). by exists (n, c). }
  assert (filter (λ kv, available kv.2 = true) court_info ≠ [] ↔
          ∃ name c, (name, c) ∈ court_info ∧ available c = true) as Hsome.
  { split.
    - intros Hne. destruct (filter _ court_info) as [|[n c] l] eqn:E; [done|].
      assert ((n, c) ∈ filter (λ kv, available kv.2 = true) court_info) as Hin
        by (rewrite E; by left).
      apply list_elem_of_filter in Hin as [Ha Hin]. by exists n, c.
    - intros (n & c & Hin & Ha) He.
      assert ((n, c) ∈ filter (λ kv, available kv.2 = true) court_info) as Hin'
        by (by apply list_elem_of_filter).
      rewrite He in Hin'. by apply elem_of_nil in Hin'. }
  rewrite <- Hflag, <- Hsome. split.
  - intros Hall. apply (link_line_in_window title court_info start_time end_time).
    apply Hall. unfold partial_booking_note. right. by left.
  - intros [Hav Hpb] line Hline. unfold window_lines.
    apply elem_of_app. right. apply elem_of_app. left.
    destruct (available_line <$> filter _ court_info) as [|l0 ls] eqn:E.
    { destruct (filter _ court_info); [done | discriminate E]. }
    rewrite Hpb. right. apply elem_of_app. by right.
Qed.

(** ** Worked examples *)

(** No locations: the item is recorded under a name made from its
    identifier, whatever its price and remaining uses. *)
Example no_locations_no_reconstruction :
  get_squash_court_availability
    [example_slot "slot-1200" squash_use
       "2026-02-03T12:00:00Z" "2026-02-03T12:40:00Z" 0 (41 # 4) []] =
  {["Squash Court (slot-1200)" :=
      {| id := "slot-1200"; available := false; remaining_uses := 0;
         slots := [ {| p_start := Some "2026-02-03T12:00:00Z";
                       p_end := Some "2026-02-03T12:40:00Z";
                       p_remaining := 0 |} ] |}]}.
Proof. vm_compute. reflexivity. Qed.

(** Only the booked half of a two-court period is in the feed. *)
Example half_booked_period :
  get_squash_court_availability [half_booked_1000] =
  {["Available Courts" :=
      {| id := "partial_booking"; available := true; remaining_uses := 1;
         slots := [ {| p_start := Some "2026-02-03T10:00:00Z";
                       p_end := Some "2026-02-03T10:40:00Z";
                       p_remaining := 1 |} ] |}]}.
Proof. vm_compute. reflexivity. Qed.

(** The feed has split the period by court. *)
Example split_period :
  get_squash_court_availability [free_court_0920; booked_court_0920] =
  <["Squash Court 2" :=
      {| id := "041ZSQU002"; available := true; remaining_uses := 1;
         slots := [ {| p_start := Some "2026-02-03T09:20:00Z";
                       p_end := Some "2026-02-03T10:00:00Z";
                       p_remaining := 1 |} ] |}]>
  {["Squash Court 1" :=
      {| id := "041ZSQU001"; available := false; remaining_uses := 0;
         slots := [ {| p_start := Some "2026-02-03T09:20:00Z";
                       p_end := Some "2026-02-03T10:00:00Z";
                       p_remaining := 0 |} ] |}]}.
Proof. vm_compute. reflexivity. Qed.

(** A start time late in the evening: the main window's end is the
    clock time after midnight. *)
Example late_evening_bounds :
  window_bounds "23:30" =
  Ret {| main_start := "23:30"; main_end := "00:10";
         before_start := "22:50"; before_end := "23:30" |}.
Proof. reflexivity. Qed.

(** Every item once, the lone item with two locations twice. *)
Example plain_items_contributions :
  concat (map (contributions (targets plain_items)) (targets plain_items)) =
  [ {| p_start := Some "2026-02-03T09:20:00Z"; p_end := Some "2026-02-03T10:00:00Z";
       p_remaining := 1 |};
    {| p_start := Some "2026-02-03T09:20:00Z"; p_end := Some "2026-02-03T10:00:00Z";
       p_remaining := 0 |};
    {| p_start := Some "2026-02-03T11:00:00Z"; p_end := Some "2026-02-03T11:40:00Z";
       p_remaining := 1 |};
    {| p_start := Some "2026-02-03T11:00:00Z"; p_end := Some "2026-02-03T11:40:00Z";
       p_remaining := 1 |} ].
Proof. vm_compute. reflexivity. Qed.

(** A start time soon after midnight: the before window's start is the
    clock time before midnight. *)
Example early_morning_bounds :
  window_bounds "00:20" =
  Ret {| main_start := "00:20"; main_end := "01:00";
         before_start := "23:40"; before_end := "00:20" |}.
Proof. reflexivity. Qed.
